(** * A TLS reverse proxy: connection plane and configuration validator

    Shallow embedding of two source files of the proxy and the properties
    proved about them.

    - [Module internal] embeds [internal/proxy.go]: the proxy object with its
      server-name mapping and open-connection counter, [Reconfigure],
      [backend], [Backend.dial], [forward] and [handleConnection].
    - [Module config] embeds the configuration file of package [proxy]:
      [Config.Check] with the data it validates, and
      [validateProxyProtoVersion].

    Go values are modelled as follows.  [int], [time.Duration] and the other
    integer types are [Z]; no computation of the two files can leave the
    64-bit range for inputs that fit it (the only arithmetic is [+ 1], [- 1],
    [n/2 - 100] and a remainder by a slice length).  [byte] is a [Z] in
    [0, 256).  Strings are [string] (byte sequences).  A pointer to an
    optional value ([*bool], [*[]string], [*string]) is an [option].  Objects
    reached through pointers and mutated in place ([*Backend] in
    [internal/proxy.go]) live in an explicit heap.  A Go function returning
    [(T, error)] returns a sum [T + error]; a run-time panic is a separate
    outcome.  Operations of the Go standard library and of the operating
    system (files, sockets, the TLS handshake, YAML encoding, IDNA) are
    parameters collected in a record. *)

From Stdlib Require Import ZArith List String Ascii Bool Lia.
From Stdlib Require Import Floats.PrimFloat.
From stdpp Require Import base gmap strings list option.

Open Scope string_scope.
Open Scope list_scope.
Open Scope stdpp_scope.

(** ** Go error values

    [errors.New] and [fmt.Errorf] are kept symbolic: the format string and
    the arguments, not the rendered text. *)

Inductive error : Type :=
| errors_New (text : string)
| fmt_Errorf (format : string) (args : list arg)
| lib_error (text : string)
with arg : Type :=
| AInt (n : Z)
| AStr (s : string)
| AStrs (l : list string)
| AErr (e : error).

(** [for { ... }]: one iteration either goes round again or leaves the loop. *)
Inductive iter (S R : Type) : Type :=
| Continue (s : S)
| Break (r : R).
Arguments Continue {S R} s.
Arguments Break {S R} r.

(** ** crypto/tls configuration values built by the proxy *)
Module tls.

Inductive ClientAuthType := NoClientCert | RequireAndVerifyClientCert.

(** [x509.CertPool]: the certificates it holds. *)
Definition CertPool := list string.

Record Config := {
  GetCertificate : bool;          (* set to the certificate manager's callback *)
  ClientAuth : ClientAuthType;
  ClientCAs : option CertPool;
  InsecureSkipVerify : bool;
  ServerName : string;
  RootCAs : option CertPool;
}.

Definition empty : Config :=
  {| GetCertificate := false; ClientAuth := NoClientCert; ClientCAs := None;
     InsecureSkipVerify := false; ServerName := ""; RootCAs := None |}.

Definition set_ClientCAs (c : CertPool) (tc : Config) : Config :=
  {| GetCertificate := GetCertificate tc; ClientAuth := ClientAuth tc;
     ClientCAs := Some c; InsecureSkipVerify := InsecureSkipVerify tc;
     ServerName := ServerName tc; RootCAs := RootCAs tc |}.

Definition set_RootCAs (c : CertPool) (tc : Config) : Config :=
  {| GetCertificate := GetCertificate tc; ClientAuth := ClientAuth tc;
     ClientCAs := ClientCAs tc; InsecureSkipVerify := InsecureSkipVerify tc;
     ServerName := ServerName tc; RootCAs := Some c |}.

End tls.

(** * internal/proxy.go *)
Module internal.

(** ** Data *)

(** Address of a [Backend] object. *)
Definition loc := positive.

(** The fields of [Backend] and [Config] that [proxy.go] reads or writes.
    [mu] (a mutex) has no counterpart: every method below is one atomic step
    of a sequential run. *)
Record Backend := {
  ServerNames : list string;
  ClientAuth : bool;
  ClientCAs : string;
  ForwardRootCAs : string;
  Addresses : list string;
  UseTLS : bool;
  InsecureSkipVerify : bool;
  ForwardServerName : string;
  ForwardTimeout : Z;
  tlsConfig : option tls.Config;
  forwardRootCAs : option tls.CertPool;
  next : Z;
}.

Record Config := {
  HTTPAddr : string;
  TLSAddr : string;
  CacheDir : string;
  Email : string;
  MaxOpen : Z;
  Backends : list loc;            (* []*Backend *)
}.

(** [net.Conn] values, by dynamic type. *)
Inductive Conn : Type :=
| TCPConn (fd : nat)                                    (* *net.TCPConn *)
| TLSConn (netConn : Conn)                              (* *tls.Conn *)
| OtherConn (fd : nat) (closeWriter closeReader : bool). (* any other implementation *)

(** Method sets: [*net.TCPConn] has [CloseRead] and [CloseWrite], [*tls.Conn]
    has [CloseWrite] only. *)
Definition implements_closeWriter (c : Conn) : bool :=
  match c with
  | TCPConn _ => true
  | TLSConn _ => true
  | OtherConn _ w _ => w
  end.

Definition implements_closeReader (c : Conn) : bool :=
  match c with
  | TCPConn _ => true
  | TLSConn _ => false
  | OtherConn _ _ r => r
  end.

Record DialReq := {
  dial_addr : string;
  dial_timeout : Z;
  dial_tls : option tls.Config;   (* tls.DialWithDialer when set, Dialer.Dial otherwise *)
}.

(** How [io.Copy] ended: [nil] at end of stream, or the first error. *)
Inductive CopyEnd := EOF | CopyError (e : error).

(** Observable actions, in the order they happen.  A dial attempt is
    recorded with its outcome. *)
Inductive event : Type :=
| ELog (format : string)
| ENumOpen (delta : Z)
| ESetKeepAlive (c : Conn)
| EHandshake (c : Conn)
| EDial (req : DialReq) (outcome : nat + error)
| ECopy (dst src : Conn)
| EClose (c : Conn)
| ECloseWrite (c : Conn)
| ECloseRead (c : Conn).

(** The [Proxy] object ([cm], [ctx], [cancel], [listener] are not modelled). *)
Record Proxy := {
  cfg : option Config;
  mapping : gmap string loc;
  numOpen : Z;
}.

Record state := {
  heap : gmap loc Backend;
  px : Proxy;
  trace : list event;
}.

(** The environment.  Answers may depend on everything that happened so
    far. *)
Record World := {
  os_ReadFile : string -> string + error;
  x509_parsePEM : string -> list string;    (* the certificates AppendCertsFromPEM finds *)
  yaml_Marshal : gmap loc Backend -> option Config -> string;
  net_Dial : list event -> DialReq -> nat + error;
  io_Copy : list event -> Conn -> Conn -> CopyEnd;
  concurrent_Reconfigure : list event -> option (option Config);
}.

(** What the TLS client of one connection does. *)
Record Peer := {
  clientHello : string + error;   (* the server name of the ClientHello, or why none arrived *)
  handshakeRest : option error;   (* how the handshake ends once a configuration is selected *)
}.

(** ** Runs *)

Inductive run (A : Type) : Type :=
| Returns (a : A) (s : state)
| Panics
| Diverges.
Arguments Returns {A} a s.
Arguments Panics {A}.
Arguments Diverges {A}.

Definition M (A : Type) : Type := state -> run A.

Definition ret {A} (a : A) : M A := fun s => Returns a s.

Definition bind {A B} (m : M A) (k : A -> M B) : M B :=
  fun s => match m s with
           | Returns a s' => k a s'
           | Panics => Panics
           | Diverges => Diverges
           end.

Notation "x <~ m ;; k" := (bind m (fun x => k))
  (at level 100, m at next level, right associativity).
Notation "m ;;; k" := (bind m (fun _ => k))
  (at level 100, right associativity).

Definition panic {A} : M A := fun _ => Panics.

Definition emit (e : event) : M unit :=
  fun s => Returns tt {| heap := heap s; px := px s; trace := trace s ++ [e] |}.

Definition log_Printf (format : string) : M unit := emit (ELog format).

Definition get_trace : M (list event) := fun s => Returns (trace s) s.
Definition get_heap : M (gmap loc Backend) := fun s => Returns (heap s) s.
Definition get_proxy : M Proxy := fun s => Returns (px s) s.

Definition put_proxy (p : Proxy) : M unit :=
  fun s => Returns tt {| heap := heap s; px := p; trace := trace s |}.

(** [*be]: a nil or dangling pointer panics. *)
Definition deref (l : loc) : M Backend :=
  fun s => match heap s !! l with
           | Some be => Returns be s
           | None => Panics
           end.

Definition assign (l : loc) (be : Backend) : M unit :=
  fun s => Returns tt {| heap := <[l := be]> (heap s); px := px s; trace := trace s |}.

(** [s[i]] on a slice: out of range panics. *)
Definition index {A} (s : list A) (i : Z) : M A :=
  fun st => if (i <? 0)%Z then Panics
            else match s !! Z.to_nat i with
                 | Some a => Returns a st
                 | None => Panics
                 end.

(** A [for] loop.  [fuel] bounds the number of iterations that are run. *)
Fixpoint loop {S R} (fuel : nat) (body : S -> M (iter S R)) (s : S) : M R :=
  match fuel with
  | O => fun _ => Diverges
  | Datatypes.S fuel' =>
      r <~ body s ;;
      match r with
      | Continue s' => loop fuel' body s'
      | Break v => ret v
      end
  end.

Definition set_next (n : Z) (be : Backend) : Backend :=
  {| ServerNames := ServerNames be; ClientAuth := ClientAuth be;
     ClientCAs := ClientCAs be; ForwardRootCAs := ForwardRootCAs be;
     Addresses := Addresses be; UseTLS := UseTLS be;
     InsecureSkipVerify := InsecureSkipVerify be;
     ForwardServerName := ForwardServerName be;
     ForwardTimeout := ForwardTimeout be; tlsConfig := tlsConfig be;
     forwardRootCAs := forwardRootCAs be; next := n |}.

Definition set_tlsConfig (tc : tls.Config) (be : Backend) : Backend :=
  {| ServerNames := ServerNames be; ClientAuth := ClientAuth be;
     ClientCAs := ClientCAs be; ForwardRootCAs := ForwardRootCAs be;
     Addresses := Addresses be; UseTLS := UseTLS be;
     InsecureSkipVerify := InsecureSkipVerify be;
     ForwardServerName := ForwardServerName be;
     ForwardTimeout := ForwardTimeout be; tlsConfig := Some tc;
     forwardRootCAs := forwardRootCAs be; next := next be |}.

Definition set_forwardRootCAs (c : tls.CertPool) (be : Backend) : Backend :=
  {| ServerNames := ServerNames be; ClientAuth := ClientAuth be;
     ClientCAs := ClientCAs be; ForwardRootCAs := ForwardRootCAs be;
     Addresses := Addresses be; UseTLS := UseTLS be;
     InsecureSkipVerify := InsecureSkipVerify be;
     ForwardServerName := ForwardServerName be;
     ForwardTimeout := ForwardTimeout be; tlsConfig := tlsConfig be;
     forwardRootCAs := Some c; next := next be |}.

Section Code.

Variable W : World.

(** ** loadCerts *)
Definition loadCerts (s : string) : tls.CertPool + error :=
  let b := match s with
           | String "/" _ => os_ReadFile W s
           | _ => inl s
           end in
  match b with
  | inr err => inr err
  | inl b =>
      match x509_parsePEM W b with
      | [] => inr (errors_New "invalid certs")
      | pool => inl pool
      end
  end.

(** ** Proxy.Reconfigure *)

(** One iteration of [for _, be := range cfg.Backends]. *)
Definition Reconfigure_backend (l : loc) (mapping : gmap string loc)
  : M (gmap string loc + error) :=
  be <~ deref l ;;
  let mapping := foldl (fun m sn => <[sn := l]> m) mapping (ServerNames be) in
  r1 <~ (if ClientAuth be then
           let tc := {| tls.GetCertificate := true;
                        tls.ClientAuth := tls.RequireAndVerifyClientCert;
                        tls.ClientCAs := None;
                        tls.InsecureSkipVerify := false;
                        tls.ServerName := "";
                        tls.RootCAs := None |} in
           if bool_decide (ClientCAs be = "") then
             assign l (set_tlsConfig tc be) ;;; ret None
           else
             match loadCerts (ClientCAs be) with
             | inr err => ret (Some err)
             | inl c => assign l (set_tlsConfig (tls.set_ClientCAs c tc) be) ;;; ret None
             end
         else ret None) ;;
  match r1 with
  | Some err => ret (inr err)
  | None =>
      if bool_decide (ForwardRootCAs be = "") then ret (inl mapping)
      else
        match loadCerts (ForwardRootCAs be) with
        | inr err => ret (inr err)
        | inl c =>
            be' <~ deref l ;;
            assign l (set_forwardRootCAs c be') ;;;
            ret (inl mapping)
        end
  end.

Fixpoint Reconfigure_loop (bes : list loc) (mapping : gmap string loc)
  : M (gmap string loc + error) :=
  match bes with
  | [] => ret (inl mapping)
  | l :: rest =>
      r <~ Reconfigure_backend l mapping ;;
      match r with
      | inr err => ret (inr err)
      | inl mapping' => Reconfigure_loop rest mapping'
      end
  end.

Definition Reconfigure (c : option Config) : M (option error) :=
  p <~ get_proxy ;;
  h <~ get_heap ;;
  let a := yaml_Marshal W h (cfg p) in
  let b := yaml_Marshal W h c in
  if bool_decide (a = b) then ret None
  else
    (if cfg p is Some _ then log_Printf "INFO Configuration changed" else ret tt) ;;;
    match c with
    | None => panic                 (* cfg.Backends on a nil *Config *)
    | Some c' =>
        r <~ Reconfigure_loop (Backends c') ∅ ;;
        match r with
        | inr err => ret (Some err)
        | inl mapping' =>
            put_proxy {| cfg := Some c'; mapping := mapping'; numOpen := numOpen p |} ;;;
            ret None
        end
    end.

(** ** Proxy.backend *)
Definition backend (sni : string) : M (loc + error) :=
  p <~ get_proxy ;;
  match mapping p !! sni with
  | None => ret (inr (fmt_Errorf "unexpected SNI: %q" [AStr sni]))
  | Some be => ret (inl be)
  end.

(** The [GetConfigForClient] callback installed by [Start]. *)
Definition GetConfigForClient (serverName : string) : M (option tls.Config + error) :=
  r <~ backend serverName ;;
  match r with
  | inr err => ret (inr err)
  | inl l => be <~ deref l ;; ret (inl (tlsConfig be))
  end.

(** ** Backend.dial *)

Definition dial_request (be : Backend) (addr : string) : DialReq :=
  {| dial_addr := addr;
     dial_timeout := ForwardTimeout be;
     dial_tls :=
       if UseTLS be then
         let tc := {| tls.GetCertificate := false;
                      tls.ClientAuth := tls.NoClientCert;
                      tls.ClientCAs := None;
                      tls.InsecureSkipVerify := InsecureSkipVerify be;
                      tls.ServerName := ForwardServerName be;
                      tls.RootCAs := None |} in
         Some (match forwardRootCAs be with
               | Some c => tls.set_RootCAs c tc
               | None => tc
               end)
       else None |}.

(** The body of the [for] loop of [dial]; the loop variable is [max]. *)
Definition dial_iter (l : loc) (max : Z) : M (iter Z (Conn + error)) :=
  be <~ deref l ;;
  let sz := Z.of_nat (length (Addresses be)) in
  let max := if (max =? 0)%Z then sz else max in
  addr <~ index (Addresses be) (next be) ;;
  (if (sz =? 0)%Z then panic else ret tt) ;;;       (* integer divide by zero *)
  assign l (set_next (Z.rem (next be + 1) sz) be) ;;;
  let req := dial_request be addr in
  t <~ get_trace ;;
  let outcome := net_Dial W t req in
  emit (EDial req outcome) ;;;
  match outcome with
  | inr err =>
      log_Printf "ERR dial %q: %v" ;;;
      let max := (max - 1)%Z in
      if (max >? 0)%Z then ret (Continue max) else ret (Break (inr err))
  | inl fd =>
      ret (Break (inl (if UseTLS be then TLSConn (TCPConn fd) else TCPConn fd)))
  end.

Definition dial (fuel : nat) (l : loc) : M (Conn + error) :=
  loop fuel (dial_iter l) 0%Z.

(** ** forward *)
Definition forward (out in_ : Conn) : M (option error) :=
  t <~ get_trace ;;
  emit (ECopy out in_) ;;;
  match io_Copy W t out in_ with
  | CopyError err =>
      emit (EClose out) ;;;          (* every net.Conn is an io.Closer *)
      emit (EClose in_) ;;;
      ret (Some err)
  | EOF =>
      (if implements_closeWriter out then emit (ECloseWrite out) else ret tt) ;;;
      (if implements_closeReader in_ then emit (ECloseRead in_) else ret tt) ;;;
      ret None
  end.

(** ** handleConnection *)

Definition incNumOpen (n : Z) : M Z :=
  p <~ get_proxy ;;
  let v := (numOpen p + n)%Z in
  put_proxy {| cfg := cfg p; mapping := mapping p; numOpen := v |} ;;;
  emit (ENumOpen n) ;;;
  ret v.

Fixpoint setKeepAlive (conn : Conn) : M unit :=
  match conn with
  | TLSConn c => setKeepAlive c
  | TCPConn _ => emit (ESetKeepAlive conn)
  | OtherConn _ _ _ => ret tt
  end.

(** The server side of the TLS handshake: once the ClientHello is read the
    library calls [GetConfigForClient] and aborts with its error. *)
Definition HandshakeContext (peer : Peer) (c : Conn) : M (option error) :=
  emit (EHandshake c) ;;;
  match clientHello peer with
  | inr err => ret (Some err)
  | inl serverName =>
      r <~ GetConfigForClient serverName ;;
      match r with
      | inr err => ret (Some err)
      | inl _ => ret (handshakeRest peer)
      end
  end.

(** [ConnectionState().ServerName] after a completed handshake. *)
Definition ConnectionState_ServerName (peer : Peer) : string :=
  match clientHello peer with
  | inl serverName => serverName
  | inr _ => ""
  end.

(** Other goroutines run between the handshake and the resolution of the
    backend; the one that matters here is a reload. *)
Definition interleaved : M unit :=
  t <~ get_trace ;;
  match concurrent_Reconfigure W t with
  | None => ret tt
  | Some c => Reconfigure c ;;; ret tt
  end.

(** The statements of [handleConnection] after the two [defer]red closures
    are registered.  The two [forward] calls run in two goroutines; they are
    run one after the other here. *)
Definition handleConnection_body (fuel : nat) (peer : Peer) (extConn : Conn)
    (numOpen : Z) : M unit :=
  p <~ get_proxy ;;
  match cfg p with
  | None => panic
  | Some c =>
      if (MaxOpen c <=? numOpen)%Z then
        log_Printf "ERR %s: too many open connections: %d >= %d"
      else
        setKeepAlive match extConn with TLSConn n => n | _ => extConn end ;;;
        hs <~ HandshakeContext peer extConn ;;
        match hs with
        | Some _ => log_Printf "ERR %s: %v"
        | None =>
            (* extConn.Handshake() returns nil once the handshake is complete *)
            let sni := ConnectionState_ServerName peer in
            interleaved ;;;
            r <~ backend sni ;;
            match r with
            | inr _ => log_Printf "ERR %s: received unexpected SNI %q"
            | inl be =>
                d <~ dial fuel be ;;
                match d with
                | inr _ => ret tt
                | inl intConn =>
                    setKeepAlive intConn ;;;
                    log_Printf "BEGIN %s" ;;;
                    e1 <~ forward intConn extConn ;;
                    e2 <~ forward extConn intConn ;;
                    (if e1 is Some _ then log_Printf "ERR %s [ext ➔ int]: %v" else ret tt) ;;;
                    (if e2 is Some _ then log_Printf "ERR %s [int ➔ ext]: %v" else ret tt) ;;;
                    log_Printf "END   %s; HS:%s Dial:%s Total:%s" ;;;
                    emit (EClose intConn)          (* defer intConn.Close() *)
                end
            end
        end
  end.

Definition handleConnection (fuel : nat) (peer : Peer) (netConn : Conn) : M unit :=
  let extConn := TLSConn netConn in
  numOpen <~ incNumOpen 1 ;;
  handleConnection_body fuel peer extConn numOpen ;;;
  (* defer func() { extConn.Close(); p.incNumOpen(-1) }() *)
  emit (EClose extConn) ;;;
  incNumOpen (-1) ;;;
  ret tt.

End Code.

(** ** Reading traces *)


(** The positions of a slice of length [n] visited by [m] steps of a cursor
    that starts at [c] and wraps around. *)
Definition rotation (n c m : nat) : list nat :=
  (fun j => (c + j) mod n) <$> seq 0 m.

(** What [dial] hands back for the outcome of its last attempt. *)
Definition dial_result (be : Backend) (o : nat + error) : Conn + error :=
  match o with
  | inl fd => inl (if UseTLS be then TLSConn (TCPConn fd) else TCPConn fd)
  | inr err => inr err
  end.

(** The events of consecutive attempts with outcomes [outs], the first one
    at position [c]. *)
Fixpoint attempt_trace (be : Backend) (c : nat) (outs : list (nat + error))
  : list event :=
  match outs with
  | [] => []
  | o :: rest =>
      EDial (dial_request be (default "" (Addresses be !! c))) o
        :: (if o is inr _ then [ELog "ERR dial %q: %v"] else [])
        ++ attempt_trace be (S c mod length (Addresses be)) rest
  end.

Definition failed (o : nat + error) : Prop := exists err, o = inr err.


(** ** Well-formed states *)

(** The fields of a backend that [Reconfigure] leaves alone. *)
Definition stable (be be' : Backend) : Prop :=
  ServerNames be' = ServerNames be /\ Addresses be' = Addresses be /\
  next be' = next be.

Definition heap_stable (h h' : gmap loc Backend) : Prop :=
  forall l, match h !! l with
            | Some be => exists be', h' !! l = Some be' /\ stable be be'
            | None => h' !! l = None
            end.

(** Every backend has at least one and at most [bound] addresses, and its
    cursor is a position of the address list. *)
Definition heap_ok (bound : nat) (h : gmap loc Backend) : Prop :=
  forall l be, h !! l = Some be ->
    (1 <= length (Addresses be) <= bound)%nat /\
    (0 <= next be < Z.of_nat (length (Addresses be)))%Z.

Definition mapping_ok (h : gmap loc Backend) (m : gmap string loc) : Prop :=
  forall sn l, m !! sn = Some l -> is_Some (h !! l).

(** A reload by another goroutine installs a configuration whose backends
    exist. *)
Definition reload_ok (W : World) (h : gmap loc Backend) : Prop :=
  forall t c, concurrent_Reconfigure W t = Some c ->
    exists c', c = Some c' /\ forall l, l ∈ Backends c' -> is_Some (h !! l).

Definition wf (W : World) (bound : nat) (s : state) : Prop :=
  heap_ok bound (heap s) /\ mapping_ok (heap s) (mapping (px s)) /\
  reload_ok W (heap s).

(** [sn] is a server name of one of the backends [bes]. *)
Definition listed (h : gmap loc Backend) (bes : list loc) (sn : string) : Prop :=
  exists l be, l ∈ bes /\ h !! l = Some be /\ sn ∈ ServerNames be.

(** An event other than a change of the open-connection counter. *)
Definition quiet (e : event) : Prop := forall d, e <> ENumOpen d.


(** [m], started in [s], returns, leaves the counter of open connections
    alone, and ends in a state and value that satisfy [Q]. *)
Definition quietly {A} (m : M A) (s : state) (Q : A -> state -> Prop) : Prop :=
  exists a s' evs,
    m s = Returns a s' /\ trace s' = trace s ++ evs /\
    numOpen (px s') = numOpen (px s) /\ Forall quiet evs /\ Q a s'.

(** The events of [setKeepAlive]. *)
Fixpoint keepalive_events (c : Conn) : list event :=
  match c with
  | TLSConn c' => keepalive_events c'
  | TCPConn _ => [ESetKeepAlive c]
  | OtherConn _ _ _ => []
  end.

(** ** New *)
Section Construct.

Variable W : World.

(** [New]: [cfg.CacheDir] and [cfg.Email] are read to build the proxy, a nil
    [cfg] panics there; then a proxy without configuration,
    [p.Reconfigure(cfg)], whose result is dropped; [New] returns [(p, nil)]. *)
Definition New (c : option Config) : M (option error) :=
  match c with
  | None => panic                                (* nil pointer dereference *)
  | Some _ =>
      put_proxy {| cfg := None; mapping := ∅; numOpen := 0 |} ;;;
      Reconfigure W c ;;;
      ret None
  end.

End Construct.

(** ** Reading the effect of [Reconfigure] on the backends *)

(** The server names of the backend at [l]. *)
Definition names_of (h : gmap loc Backend) (l : loc) : list string :=
  match h !! l with
  | Some be => ServerNames be
  | None => []
  end.

(** One round of the loop of [Reconfigure] on the routing table: the names
    [nm l] of the backend at [l] are pointed to [l]. *)
Definition add_names (nm : loc -> list string) (m : gmap string loc) (l : loc)
  : gmap string loc :=
  foldl (fun m sn => <[sn := l]> m) m (nm l).

(** [be'] has the settings of [be]; its [tlsConfig] is the one of [be] when
    [be] asks for no client certificate, and its [forwardRootCAs] the one of
    [be] when [be] names no root certificates. *)
Definition kept (be be' : Backend) : Prop :=
  ServerNames be' = ServerNames be /\ ClientAuth be' = ClientAuth be /\
  ClientCAs be' = ClientCAs be /\ ForwardRootCAs be' = ForwardRootCAs be /\
  Addresses be' = Addresses be /\ UseTLS be' = UseTLS be /\
  InsecureSkipVerify be' = InsecureSkipVerify be /\
  ForwardServerName be' = ForwardServerName be /\
  ForwardTimeout be' = ForwardTimeout be /\ next be' = next be /\
  (ClientAuth be = false -> tlsConfig be' = tlsConfig be) /\
  (ForwardRootCAs be = "" -> forwardRootCAs be' = forwardRootCAs be).

(** [be'] carries the TLS values that the settings of [be] ask for: with
    [ClientAuth], a server configuration that requires and verifies a client
    certificate, against the pool loaded from [ClientCAs] when that is set;
    with [ForwardRootCAs], the pool loaded from it. *)
Definition loaded (W : World) (be be' : Backend) : Prop :=
  (ClientAuth be = true ->
   exists tc,
     tlsConfig be' = Some tc /\
     tls.GetCertificate tc = true /\
     tls.ClientAuth tc = tls.RequireAndVerifyClientCert /\
     (if bool_decide (ClientCAs be = "") then tls.ClientCAs tc = None
      else exists pool, loadCerts W (ClientCAs be) = inl pool /\
                        tls.ClientCAs tc = Some pool)) /\
  (ForwardRootCAs be <> "" ->
   exists pool, loadCerts W (ForwardRootCAs be) = inl pool /\
                forwardRootCAs be' = Some pool).

End internal.

(** * The configuration file of package proxy *)
Module config.

Definition and_then {A B} (m : A + error) (k : A -> B + error) : B + error :=
  match m with
  | inl a => k a
  | inr err => inr err
  end.

Notation "'let?' x := m 'in' k" := (and_then m (fun x => k))
  (at level 10, x pattern, m at level 100, k at level 200).

(** [for i, x := range l { ... }] with an early [return err]: the body sees
    the index, the variables [s] the loop updates and the element, and gives
    back the updated variables and the element as the body left it. *)
Fixpoint for_range {S A} (body : nat -> S -> A -> (S * A) + error)
    (i : nat) (s : S) (l : list A) : (S * list A) + error :=
  match l with
  | [] => inl (s, [])
  | x :: rest =>
      let? (s1, x') := body i s x in
      let? (s2, rest') := for_range body (Datatypes.S i) s1 rest in
      inl (s2, x' :: rest')
  end.

(** A run of [for_range] that reached the end of the list: from the loop
    variables [s] and the list [l] to the variables [s'] and the list [l']. *)
Inductive ran {S A} (body : nat -> S -> A -> (S * A) + error)
  : nat -> S -> list A -> S -> list A -> Prop :=
| ran_nil i s : ran body i s [] s []
| ran_cons i s x rest s1 x' s2 rest' :
    body i s x = inl (s1, x') ->
    ran body (Datatypes.S i) s1 rest s2 rest' ->
    ran body i s (x :: rest) s2 (x' :: rest').

Definition ModePlaintext : string := "PLAINTEXT".
Definition ModeTCP : string := "TCP".
Definition ModeTLS : string := "TLS".
Definition ModeTLSPassthrough : string := "TLSPASSTHROUGH".
Definition ModeQUIC : string := "QUIC".
Definition ModeHTTP : string := "HTTP".
Definition ModeHTTPS : string := "HTTPS".
Definition ModeLocal : string := "LOCAL".
Definition ModeConsole : string := "CONSOLE".

Definition validModes : list string :=
  [ModeTCP; ModeTLS; ModeTLSPassthrough; ModeQUIC; ModeHTTP; ModeHTTPS;
   ModeLocal; ModeConsole].

Definition validXFCCFields : list string :=
  ["cert"; "chain"; "hash"; "subject"; "uri"; "dns"].

Definition defaultALPNProtos : list string := ["h2"; "http/1.1"].
Definition defaultALPNProtosPlusH3 : list string := ["h3"; "h2"; "http/1.1"].

(** [time.Duration] counts nanoseconds. *)
Definition time_Second : Z := 1000000000.

(** ** The configuration types, with their exported fields and the
    unexported fields that [Check] sets *)

Module BWLimit.
Record t := {
  Name : string;
  Ingress : float;
  Egress : float;
}.
End BWLimit.

Module ClientAuth.
Record t := {
  ACL : option (list string);
  RootCAs : list string;
  AddClientCertHeader : list string;
}.
End ClientAuth.

Module ConfigOIDC.
Record t := {
  Name : string;
  DiscoveryURL : string;
  AuthEndpoint : string;
  Scopes : list string;
  HostedDomain : string;
  TokenEndpoint : string;
  UserinfoEndpoint : string;
  RedirectURL : string;
  ClientID : string;
  ClientSecret : string;
  Domain : string;
}.
Definition set_Domain (d : string) (x : t) : t :=
  {| Name := Name x; DiscoveryURL := DiscoveryURL x;
     AuthEndpoint := AuthEndpoint x; Scopes := Scopes x;
     HostedDomain := HostedDomain x; TokenEndpoint := TokenEndpoint x;
     UserinfoEndpoint := UserinfoEndpoint x; RedirectURL := RedirectURL x;
     ClientID := ClientID x; ClientSecret := ClientSecret x; Domain := d |}.
End ConfigOIDC.

Module ConfigSAML.
Record t := {
  Name : string;
  SSOURL : string;
  EntityID : string;
  Certs : string;
  ACSURL : string;
  Domain : string;
}.
Definition set_Domain (d : string) (x : t) : t :=
  {| Name := Name x; SSOURL := SSOURL x; EntityID := EntityID x;
     Certs := Certs x; ACSURL := ACSURL x; Domain := d |}.
End ConfigSAML.

Module ConfigPasskey.
Record t := {
  Name : string;
  IdentityProvider : string;
  RefreshInterval : Z;
  Endpoint : string;
  Domain : string;
}.
Definition set_Domain (d : string) (x : t) : t :=
  {| Name := Name x; IdentityProvider := IdentityProvider x;
     RefreshInterval := RefreshInterval x; Endpoint := Endpoint x;
     Domain := d |}.
End ConfigPasskey.

Module ConfigPKI.
Record t := {
  Name : string;
  KeyType : string;
  IssuingCertificateURLs : list string;
  CRLDistributionPoints : list string;
  OCSPServer : list string;
  Endpoint : string;
  Admins : list string;
}.
End ConfigPKI.

Module LocalOIDCClient.
Record t := {
  ID : string;
  Secret : string;
  RedirectURI : list string;
}.
End LocalOIDCClient.

Module LocalOIDCRewriteRule.
Record t := {
  InputClaim : string;
  OutputClaim : string;
  Regex : string;
  Value : string;
}.
End LocalOIDCRewriteRule.

Module LocalOIDCServer.
Record t := {
  PathPrefix : string;
  Clients : list LocalOIDCClient.t;
  RewriteRules : list LocalOIDCRewriteRule.t;
}.
End LocalOIDCServer.

Module BackendSSO.
Record t := {
  Provider : string;
  ForceReAuth : Z;
  ACL : option (list string);
  Paths : list string;
  SetUserIDHeader : bool;
  GenerateIDTokens : bool;
  LocalOIDCServer : option LocalOIDCServer.t;
}.
End BackendSSO.

Module PathOverride.
Record t := {
  Paths : list string;
  Addresses : list string;
  Mode : string;
  BackendProto : option string;
  InsecureSkipVerify : bool;
  ForwardServerName : string;
  ForwardRootCAs : list string;
  ForwardTimeout : Z;
  ProxyProtocolVersion : string;
  proxyProtocolVersion : Z;
}.
End PathOverride.

(** [*net.IPNet]: the network in canonical text form. *)
Definition IPNet := string.

Module Backend.
Record t := {
  ServerNames : list string;
  ClientAuth : option ClientAuth.t;
  AllowIPs : option (list string);
  DenyIPs : option (list string);
  SSO : option BackendSSO.t;
  ExportJWKS : string;
  ALPNProtos : option (list string);
  BackendProto : option string;
  Mode : string;
  BWLimit : string;
  Addresses : list string;
  InsecureSkipVerify : bool;
  ForwardRateLimit : Z;
  ForwardServerName : string;
  ForwardRootCAs : list string;
  ForwardTimeout : Z;
  PathOverrides : list PathOverride.t;
  ProxyProtocolVersion : string;
  ServerCloseEndsConnection : option bool;
  ClientCloseEndsConnection : option bool;
  HalfCloseTimeout : option Z;
  connLimit : option (Z * Z);          (* rate.NewLimiter(limit, burst) *)
  proxyProtocolVersion : Z;
  allowIPs : option (list IPNet);
  denyIPs : option (list IPNet);
}.

(** The assignments of the first loop over the backends. *)
Definition set_mode (mode : string) (alpn : option (list string))
    (sc cc : option bool) (x : t) : t :=
  {| ServerNames := ServerNames x; ClientAuth := ClientAuth x;
     AllowIPs := AllowIPs x; DenyIPs := DenyIPs x; SSO := SSO x;
     ExportJWKS := ExportJWKS x; ALPNProtos := alpn;
     BackendProto := BackendProto x; Mode := mode; BWLimit := BWLimit x;
     Addresses := Addresses x; InsecureSkipVerify := InsecureSkipVerify x;
     ForwardRateLimit := ForwardRateLimit x;
     ForwardServerName := ForwardServerName x;
     ForwardRootCAs := ForwardRootCAs x; ForwardTimeout := ForwardTimeout x;
     PathOverrides := PathOverrides x;
     ProxyProtocolVersion := ProxyProtocolVersion x;
     ServerCloseEndsConnection := sc; ClientCloseEndsConnection := cc;
     HalfCloseTimeout := HalfCloseTimeout x; connLimit := connLimit x;
     proxyProtocolVersion := proxyProtocolVersion x;
     allowIPs := allowIPs x; denyIPs := denyIPs x |}.

Definition set_ServerNames (names : list string) (x : t) : t :=
  {| ServerNames := names; ClientAuth := ClientAuth x;
     AllowIPs := AllowIPs x; DenyIPs := DenyIPs x; SSO := SSO x;
     ExportJWKS := ExportJWKS x; ALPNProtos := ALPNProtos x;
     BackendProto := BackendProto x; Mode := Mode x; BWLimit := BWLimit x;
     Addresses := Addresses x; InsecureSkipVerify := InsecureSkipVerify x;
     ForwardRateLimit := ForwardRateLimit x;
     ForwardServerName := ForwardServerName x;
     ForwardRootCAs := ForwardRootCAs x; ForwardTimeout := ForwardTimeout x;
     PathOverrides := PathOverrides x;
     ProxyProtocolVersion := ProxyProtocolVersion x;
     ServerCloseEndsConnection := ServerCloseEndsConnection x;
     ClientCloseEndsConnection := ClientCloseEndsConnection x;
     HalfCloseTimeout := HalfCloseTimeout x; connLimit := connLimit x;
     proxyProtocolVersion := proxyProtocolVersion x;
     allowIPs := allowIPs x; denyIPs := denyIPs x |}.

(** The assignments of the second loop over the backends. *)
Definition set_forwarding (timeout : Z) (allow deny : option (list IPNet))
    (sni : string) (limit : Z) (ver : Z) (pos : list PathOverride.t)
    (x : t) : t :=
  {| ServerNames := ServerNames x; ClientAuth := ClientAuth x;
     AllowIPs := AllowIPs x; DenyIPs := DenyIPs x; SSO := SSO x;
     ExportJWKS := ExportJWKS x; ALPNProtos := ALPNProtos x;
     BackendProto := BackendProto x; Mode := Mode x; BWLimit := BWLimit x;
     Addresses := Addresses x; InsecureSkipVerify := InsecureSkipVerify x;
     ForwardRateLimit := limit; ForwardServerName := sni;
     ForwardRootCAs := ForwardRootCAs x; ForwardTimeout := timeout;
     PathOverrides := pos;
     ProxyProtocolVersion := ProxyProtocolVersion x;
     ServerCloseEndsConnection := ServerCloseEndsConnection x;
     ClientCloseEndsConnection := ClientCloseEndsConnection x;
     HalfCloseTimeout := HalfCloseTimeout x;
     connLimit := Some (limit, limit);
     proxyProtocolVersion := ver;
     allowIPs := allow; denyIPs := deny |}.
End Backend.

Module Config.
Record t := {
  Definitions : option string;         (* [any]: a holder of YAML anchors *)
  HTTPAddr : string;
  TLSAddr : string;
  EnableQUIC : option bool;
  CacheDir : string;
  DefaultServerName : string;
  Backends : list Backend.t;
  Email : string;
  RevokeUnusedCertificates : option bool;
  MaxOpen : Z;
  AcceptTOS : bool;
  OIDCProviders : list ConfigOIDC.t;
  SAMLProviders : list ConfigSAML.t;
  PasskeyProviders : list ConfigPasskey.t;
  PKI : list ConfigPKI.t;
  BWLimits : list BWLimit.t;
}.

(** The lists whose elements [Check] completes. *)
Definition set_lists (backends : list Backend.t) (oidc : list ConfigOIDC.t)
    (saml : list ConfigSAML.t) (passkey : list ConfigPasskey.t) (x : t) : t :=
  {| Definitions := Definitions x; HTTPAddr := HTTPAddr x; TLSAddr := TLSAddr x;
     EnableQUIC := EnableQUIC x; CacheDir := CacheDir x;
     DefaultServerName := DefaultServerName x; Backends := backends;
     Email := Email x; RevokeUnusedCertificates := RevokeUnusedCertificates x;
     MaxOpen := MaxOpen x; AcceptTOS := AcceptTOS x; OIDCProviders := oidc;
     SAMLProviders := saml; PasskeyProviders := passkey; PKI := PKI x;
     BWLimits := BWLimits x |}.
End Config.

(** ** What [Check] calls outside this file: other files of the package,
    the Go library and the operating system *)
Record Env := {
  os_UserCacheDir : string + error;
  filepath_Join : list string -> string;
  openFileLimit : Z + error;
  quicIsEnabled : bool;
  idnaToASCII : string -> string;
  url_Parse : string -> option error;
  hostAndPath : string -> string + error;      (* the host; the other results are unused *)
  strings_ToUpper : string -> string;
  strings_ToLower : string -> string;
  loadCerts : string -> option error;
  net_ParseCIDR : string -> IPNet + error;
  regexp_Compile : string -> option error;
  os_MkdirAll : string -> option error;
}.

Definition strings_HasPrefix (s prefix : string) : bool := String.prefix prefix s.

Definition strings_HasSuffix (s suffix : string) : bool :=
  (String.length suffix <=? String.length s)%nat &&
  bool_decide
    (String.substring (String.length s - String.length suffix)
                      (String.length suffix) s = suffix).

(** [m[k]] on a [map[K]bool]: [false] when the key is absent. *)
Definition flag `{Countable K} (m : gmap K bool) (k : K) : bool :=
  default false (m !! k).

(** ** validateProxyProtoVersion *)

Definition is_digit (c : ascii) : bool :=
  (48 <=? nat_of_ascii c)%nat && (nat_of_ascii c <=? 57)%nat.

(** The decimal value of a string of digits. *)
Fixpoint digits_value (s : string) (acc : Z) : option Z :=
  match s with
  | EmptyString => Some acc
  | String c rest =>
      if is_digit c
      then digits_value rest (acc * 10 + Z.of_nat (nat_of_ascii c - 48))%Z
      else None
  end.

(** [strconv.ParseInt(s, 10, 8)]: an optional sign, then decimal digits only;
    the value must fit a signed 8-bit integer. *)
Definition strconv_ParseInt_10_8 (s : string) : Z + error :=
  match s with
  | EmptyString => inr (lib_error "invalid syntax")
  | String c rest =>
      let neg := bool_decide (c = "-"%char) in
      let body := if bool_decide (c = "+"%char) || neg then rest else s in
      match body with
      | EmptyString => inr (lib_error "invalid syntax")
      | _ =>
          match digits_value body 0 with
          | None => inr (lib_error "invalid syntax")
          | Some un =>
              if negb neg && (128 <=? un)%Z then inr (lib_error "value out of range")
              else if neg && (128 <? un)%Z then inr (lib_error "value out of range")
              else inl (if neg then - un else un)%Z
          end
      end
  end.

Definition validateProxyProtoVersion (s : string) : Z + error :=
  match s with
  | EmptyString => inl 0%Z
  | String c rest =>
      if (String.length s <? 2)%nat || negb (bool_decide (c = "v"%char))
      then inr (fmt_Errorf "invalid value %q, expected v1 or v2" [AStr s])
      else
        match strconv_ParseInt_10_8 rest with
        | inr err => inr err
        | inl v => inl (v mod 256)%Z          (* byte(v) *)
        end
  end.

(** ** Config.Check *)

(** [if cond { return err }] *)
Definition fail_if (cond : bool) (err : error) : unit + error :=
  if cond then inr err else inl tt.

(** [if err := f(); err != nil { return wrap(err) }] *)
Definition fail_on (r : option error) (wrap : error -> error) : unit + error :=
  match r with
  | Some err => inr (wrap err)
  | None => inl tt
  end.

Definition not_nil {A} (o : option A) : bool :=
  match o with
  | Some _ => true
  | None => false
  end.

(** [beKey{serverName, proto}] *)
Definition beKey : Type := string * string.

Section Check.

Variable E : Env.

Definition idx (i : nat) : arg := AInt (Z.of_nat i).

(** The statements of [Check] before the first loop. *)
Definition check_top (cfg : Config.t) : Config.t + error :=
  let? cacheDir :=
    (if bool_decide (Config.CacheDir cfg = "") then
       match os_UserCacheDir E with
       | inr _ => inr (errors_New "CacheDir must be set in config")
       | inl d => inl (filepath_Join E [d; "tlsproxy"; "letsencrypt"])
       end
     else inl (Config.CacheDir cfg)) in
  let tlsAddr :=
    if bool_decide (Config.TLSAddr cfg = "") then ":10443" else Config.TLSAddr cfg in
  let? maxOpen :=
    (if (Config.MaxOpen cfg =? 0)%Z then
       match openFileLimit E with
       | inr _ => inr (errors_New "MaxOpen: value must be set")
       | inl n => inl (Z.quot n 2 - 100)%Z
       end
     else inl (Config.MaxOpen cfg)) in
  let enableQUIC :=
    match Config.EnableQUIC cfg with
    | None => quicIsEnabled E
    | Some v => v
    end in
  let? _ := fail_if (enableQUIC && negb (quicIsEnabled E))
              (errors_New "EnableQUIC: QUIC is not supported in this binary") in
  inl {| Config.Definitions := None;
         Config.HTTPAddr := Config.HTTPAddr cfg;
         Config.TLSAddr := tlsAddr;
         Config.EnableQUIC := Some enableQUIC;
         Config.CacheDir := cacheDir;
         Config.DefaultServerName := idnaToASCII E (Config.DefaultServerName cfg);
         Config.Backends := Config.Backends cfg;
         Config.Email := Config.Email cfg;
         Config.RevokeUnusedCertificates := Config.RevokeUnusedCertificates cfg;
         Config.MaxOpen := maxOpen;
         Config.AcceptTOS := Config.AcceptTOS cfg;
         Config.OIDCProviders := Config.OIDCProviders cfg;
         Config.SAMLProviders := Config.SAMLProviders cfg;
         Config.PasskeyProviders := Config.PasskeyProviders cfg;
         Config.PKI := Config.PKI cfg;
         Config.BWLimits := Config.BWLimits cfg |}.

(** [if x.Domain != "" { x.Domain = idnaToASCII(x.Domain); host, _, _, err :=
    hostAndPath(url); ...; if !strings.HasSuffix(host, x.Domain) ... }], the
    block that ends each of the three provider loops; the result is the
    value of [x.Domain] afterwards. *)
Definition check_domain (domain url : string) (bad_url : error -> error)
    (not_part : string -> string -> error) : string + error :=
  if bool_decide (domain = "") then inl domain
  else
    let domain := idnaToASCII E domain in
    match hostAndPath E url with
    | inr err => inr (bad_url err)
    | inl host =>
        let? _ := fail_if (negb (strings_HasSuffix host domain))
                    (not_part domain host) in
        inl domain
    end.

(** [if u != "" { if _, err := url.Parse(u); err != nil { ... } }] *)
Definition check_url (u : string) (wrap : error -> error) : unit + error :=
  if bool_decide (u = "") then inl tt else fail_on (url_Parse E u) wrap.

(** The body of [for i, oi := range cfg.OIDCProviders]. *)
Definition check_oidc (i : nat) (identityProviders : gmap string bool)
    (oi : ConfigOIDC.t) : (gmap string bool * ConfigOIDC.t) + error :=
  let? _ := fail_if (flag identityProviders (ConfigOIDC.Name oi))
              (fmt_Errorf "oidc[%d].Name: duplicate provider name %q"
                 [idx i; AStr (ConfigOIDC.Name oi)]) in
  let identityProviders := <[ConfigOIDC.Name oi := true]> identityProviders in
  let? _ := fail_if
              ((bool_decide (ConfigOIDC.AuthEndpoint oi = "")
                || bool_decide (ConfigOIDC.TokenEndpoint oi = ""))
               && bool_decide (ConfigOIDC.DiscoveryURL oi = ""))
              (fmt_Errorf "oidc[%d] AuthEndpoint and TokenEndpoint must be set unless DiscoveryURL is set"
                 [idx i]) in
  let? _ := check_url (ConfigOIDC.DiscoveryURL oi)
              (fun err => fmt_Errorf "oidc[%d].DiscoveryURL: %v" [idx i; AErr err]) in
  let? _ := check_url (ConfigOIDC.AuthEndpoint oi)
              (fun err => fmt_Errorf "oidc[%d].AuthEndpoint: %v" [idx i; AErr err]) in
  let? _ := check_url (ConfigOIDC.TokenEndpoint oi)
              (fun err => fmt_Errorf "oidc[%d].TokenEndpoint: %v" [idx i; AErr err]) in
  let? _ := fail_if (bool_decide (ConfigOIDC.RedirectURL oi = ""))
              (fmt_Errorf "oidc[%d].RedirectURL must be set" [idx i]) in
  let? _ := fail_on (url_Parse E (ConfigOIDC.RedirectURL oi))
              (fun err => fmt_Errorf "oidc[%d].RedirectURL: %v" [idx i; AErr err]) in
  let? _ := fail_if (bool_decide (ConfigOIDC.ClientID oi = ""))
              (fmt_Errorf "oidc[%d].ClientID must be set" [idx i]) in
  let? _ := fail_if (bool_decide (ConfigOIDC.ClientSecret oi = ""))
              (fmt_Errorf "oidc[%d].ClientSecret must be set" [idx i]) in
  let? domain :=
    check_domain (ConfigOIDC.Domain oi) (ConfigOIDC.RedirectURL oi)
      (fun err => fmt_Errorf "oidc[%d].RedirectURL %q: %v"
                    [idx i; AStr (ConfigOIDC.RedirectURL oi); AErr err])
      (fun d host => fmt_Errorf "oidc[%d].Domain %q must be part of RedirectURL (%s)"
                       [idx i; AStr d; AStr host]) in
  inl (identityProviders, ConfigOIDC.set_Domain domain oi).

(** The body of [for i, s := range cfg.SAMLProviders]. *)
Definition check_saml (i : nat) (identityProviders : gmap string bool)
    (s : ConfigSAML.t) : (gmap string bool * ConfigSAML.t) + error :=
  let? _ := fail_if (flag identityProviders (ConfigSAML.Name s))
              (fmt_Errorf "saml[%d].Name: duplicate provider name %q"
                 [idx i; AStr (ConfigSAML.Name s)]) in
  let identityProviders := <[ConfigSAML.Name s := true]> identityProviders in
  let? _ := fail_if (bool_decide (ConfigSAML.SSOURL s = ""))
              (fmt_Errorf "saml[%d].SSOURL must be set" [idx i]) in
  let? _ := fail_if (bool_decide (ConfigSAML.EntityID s = ""))
              (fmt_Errorf "saml[%d].EntityID must be set" [idx i]) in
  let? _ := fail_if (bool_decide (ConfigSAML.Certs s = ""))
              (fmt_Errorf "saml[%d].Certs must be set" [idx i]) in
  let? _ := fail_if (bool_decide (ConfigSAML.ACSURL s = ""))
              (fmt_Errorf "saml[%d].ACSURL must be set" [idx i]) in
  let? domain :=
    check_domain (ConfigSAML.Domain s) (ConfigSAML.ACSURL s)
      (fun err => fmt_Errorf "saml[%d].ACSURL %q: %v"
                    [idx i; AStr (ConfigSAML.ACSURL s); AErr err])
      (fun d host => fmt_Errorf "saml[%d].Domain %q must be part of ACSURL (%s)"
                       [idx i; AStr d; AStr host]) in
  inl (identityProviders, ConfigSAML.set_Domain domain s).

(** The body of [for i, pp := range cfg.PasskeyProviders]. *)
Definition check_passkey (i : nat) (identityProviders : gmap string bool)
    (pp : ConfigPasskey.t) : (gmap string bool * ConfigPasskey.t) + error :=
  let? _ := fail_if (flag identityProviders (ConfigPasskey.Name pp))
              (fmt_Errorf "passkey[%d].Name: duplicate provider name %q"
                 [idx i; AStr (ConfigPasskey.Name pp)]) in
  let identityProviders := <[ConfigPasskey.Name pp := true]> identityProviders in
  let? _ := fail_if (bool_decide (ConfigPasskey.Endpoint pp = ""))
              (fmt_Errorf "passkey[%d].Endpoint must be set" [idx i]) in
  let? _ := fail_if (bool_decide (ConfigPasskey.IdentityProvider pp = ""))
              (fmt_Errorf "passkey[%d].IdentityProvider must be set" [idx i]) in
  let? _ := fail_if
              (negb (not_nil (identityProviders !! ConfigPasskey.IdentityProvider pp)))
              (fmt_Errorf "passkey[%d].IdentityProvider has unexpected value %q"
                 [idx i; AStr (ConfigPasskey.IdentityProvider pp)]) in
  let? domain :=
    check_domain (ConfigPasskey.Domain pp) (ConfigPasskey.Endpoint pp)
      (fun err => fmt_Errorf "passkey[%d].Endpoint %q: %v"
                    [idx i; AStr (ConfigPasskey.Endpoint pp); AErr err])
      (fun d host => fmt_Errorf "passkey[%d].Domain %q must be part of Endpoint (%s)"
                       [idx i; AStr d; AStr host]) in
  inl (identityProviders, ConfigPasskey.set_Domain domain pp).

(** The body of the first [for i, be := range cfg.Backends]. *)
Definition check_backend_mode (enableQUIC : bool) (i : nat) (_ : unit)
    (be : Backend.t) : (unit * Backend.t) + error :=
  let mode := strings_ToUpper E (Backend.Mode be) in
  let mode :=
    if bool_decide (mode = "") || bool_decide (mode = ModePlaintext)
    then ModeTCP else mode in
  let? _ := fail_if (negb (bool_decide (mode ∈ validModes)))
              (fmt_Errorf "backend[%d].Mode: value %q must be one of %v"
                 [idx i; AStr mode; AStrs validModes]) in
  let? _ := fail_if (bool_decide (mode = ModeTLSPassthrough)
                     && not_nil (Backend.ClientAuth be))
              (fmt_Errorf "backend[%d].ClientAuth: client auth is not compatible with TLS Passthrough"
                 [idx i]) in
  let alpn :=
    match Backend.ALPNProtos be with
    | Some protos => Some protos
    | None =>
        if enableQUIC &&
           (bool_decide (mode = ModeHTTP) || bool_decide (mode = ModeHTTPS)
            || bool_decide (mode = ModeQUIC) || bool_decide (mode = ModeLocal)
            || bool_decide (mode = ModeConsole))
        then Some defaultALPNProtosPlusH3
        else Some defaultALPNProtos
    end in
  let? _ := fail_if (not_nil (Backend.BackendProto be)
                     && negb (bool_decide (mode = ModeHTTP))
                     && negb (bool_decide (mode = ModeHTTPS)))
              (fmt_Errorf "backend[%d].BackendProto: field is not valid in mode %s"
                 [idx i; AStr mode]) in
  let or_false (v : option bool) : option bool :=
    if bool_decide (mode = ModeQUIC)
    then match v with None => Some false | Some b => Some b end
    else v in
  inl (tt, Backend.set_mode mode alpn
             (or_false (Backend.ServerCloseEndsConnection be))
             (or_false (Backend.ClientCloseEndsConnection be)) be).

(** The body of [for _, proto := range *be.ALPNProtos]. *)
Definition check_proto (i : nat) (sn : string) (_ : nat)
    (beKeys : gmap beKey bool) (proto : string)
  : (gmap beKey bool * string) + error :=
  let key : beKey := (sn, proto) in
  let? _ := fail_if (flag beKeys key)
              (fmt_Errorf "backend[%d].ServerNames: duplicate server name %q alpnProto %q combination"
                 [idx i; AStr sn; AStr proto]) in
  inl (<[key := true]> beKeys, proto).

(** The body of [for j, sn := range be.ServerNames]; [serverNames] maps a
    name to the backend that listed it first, given by its index in
    [cfg.Backends]. *)
Definition check_server_name (i : nat) (alpnProtos : list string) (j : nat)
    (st : gmap string nat * gmap beKey bool) (sn : string)
  : ((gmap string nat * gmap beKey bool) * string) + error :=
  let sn := idnaToASCII E sn in
  let? serverNames :=
    match st.1 !! sn with
    | None => inl (<[sn := i]> st.1)
    | Some _ =>
        let? _ := fail_if (length alpnProtos =? 0)%nat
                    (fmt_Errorf "backend[%d].ServerNames: duplicate server name %q"
                       [idx i; AStr sn]) in
        inl st.1
    end in
  let? (beKeys, _) := for_range (check_proto i sn) 0 st.2 alpnProtos in
  inl ((serverNames, beKeys), sn).

(** The body of the second [for i, be := range cfg.Backends].
    [*be.ALPNProtos] is not nil here: the first loop set it. *)
Definition check_backend_names (i : nat)
    (st : gmap string nat * gmap beKey bool) (be : Backend.t)
  : ((gmap string nat * gmap beKey bool) * Backend.t) + error :=
  let? (st', names) :=
    for_range (check_server_name i (default [] (Backend.ALPNProtos be))) 0 st
      (Backend.ServerNames be) in
  inl (st', Backend.set_ServerNames names be).

(** The body of [for i, p := range cfg.PKI]. *)
Definition check_pki (backends : list Backend.t) (serverNames : gmap string nat)
    (i : nat) (pkis : gmap string bool) (p : ConfigPKI.t)
  : (gmap string bool * ConfigPKI.t) + error :=
  let? _ := fail_if (flag pkis (ConfigPKI.Name p))
              (fmt_Errorf "pki[%d].Name: duplicate name %q"
                 [idx i; AStr (ConfigPKI.Name p)]) in
  let pkis := <[ConfigPKI.Name p := true]> pkis in
  let? _ :=
    (if bool_decide (ConfigPKI.Endpoint p = "") then inl tt
     else
       match hostAndPath E (ConfigPKI.Endpoint p) with
       | inr err =>
           inr (fmt_Errorf "pki[%d].Endpoint %q: %v"
                  [idx i; AStr (ConfigPKI.Endpoint p); AErr err])
       | inl host =>
           match serverNames !! host ≫= (fun k => backends !! k) with
           | None =>
               inr (fmt_Errorf "pki[%d].Endpoint %q: backend not found"
                      [idx i; AStr (ConfigPKI.Endpoint p)])
           | Some be =>
               let mode := strings_ToUpper E (Backend.Mode be) in
               fail_if (negb (bool_decide (mode = ModeLocal))
                        && negb (bool_decide (mode = ModeConsole)))
                 (fmt_Errorf "pki[%d].Endpoint %q: backend must have mode %s or %s, found %s"
                    [idx i; AStr (ConfigPKI.Endpoint p); AStr ModeLocal;
                     AStr ModeConsole; AStr mode])
           end
       end) in
  inl (pkis, p).

(** The body of [for i, l := range cfg.BWLimits]. *)
Definition check_bwlimit (i : nat) (bwLimits : gmap string bool) (l : BWLimit.t)
  : (gmap string bool * BWLimit.t) + error :=
  let? _ := fail_if (flag bwLimits (BWLimit.Name l))
              (fmt_Errorf "bwLimit[%d].Name: duplicate name %q"
                 [idx i; AStr (BWLimit.Name l)]) in
  inl (<[BWLimit.Name l := true]> bwLimits, l).

(** [for j, n := range names { if pkis[n] { continue }; if err :=
    loadCerts(pool, n); err != nil { ... } }] *)
Definition check_root_cas (pkis : gmap string bool) (wrap : nat -> error -> error)
    (names : list string) : unit + error :=
  let? _ :=
    for_range
      (fun j (_ : unit) n =>
         if flag pkis n then inl (tt, n)
         else let? _ := fail_on (loadCerts E n) (wrap j) in inl (tt, n))
      0 tt names in
  inl tt.

(** [ips := make(...); for j, c := range *list { _, n, err :=
    net.ParseCIDR(c); ...; ips = append(ips, n) }] *)
Definition parse_cidrs (wrap : nat -> error -> error) (l : list string)
  : list IPNet + error :=
  let? (ips, _) :=
    for_range
      (fun j (ips : list IPNet) c =>
         match net_ParseCIDR E c with
         | inr err => inr (wrap j err)
         | inl n => inl (ips ++ [n], c)
         end)
      0 [] l in
  inl ips.

(** The body of [for j, client := range be.SSO.LocalOIDCServer.Clients]. *)
Definition check_oidc_client (i j : nat) (_ : unit) (client : LocalOIDCClient.t)
  : (unit * LocalOIDCClient.t) + error :=
  let? _ := fail_if (bool_decide (LocalOIDCClient.ID client = ""))
              (fmt_Errorf "backend[%d].SSO.LocalOIDCServer.Clients[%d].ID must be set"
                 [idx i; idx j]) in
  let? _ := fail_if (bool_decide (LocalOIDCClient.Secret client = ""))
              (fmt_Errorf "backend[%d].SSO.LocalOIDCServer.Clients[%d].Secret must be set"
                 [idx i; idx j]) in
  let? _ := fail_if (length (LocalOIDCClient.RedirectURI client) =? 0)%nat
              (fmt_Errorf "backend[%d].SSO.LocalOIDCServer.Clients[%d].RedirectURI must be set"
                 [idx i; idx j]) in
  inl (tt, client).

(** The body of [for j, rr := range be.SSO.LocalOIDCServer.RewriteRules]. *)
Definition check_rewrite_rule (i j : nat) (_ : unit) (rr : LocalOIDCRewriteRule.t)
  : (unit * LocalOIDCRewriteRule.t) + error :=
  let? _ := fail_if (bool_decide (LocalOIDCRewriteRule.InputClaim rr = ""))
              (fmt_Errorf "backend[%d].SSO.LocalOIDCServer.RewriteRules[%d].InputClaim must be set"
                 [idx i; idx j]) in
  let? _ := fail_if (bool_decide (LocalOIDCRewriteRule.OutputClaim rr = ""))
              (fmt_Errorf "backend[%d].SSO.LocalOIDCServer.RewriteRules[%d].OutputClaim must be set"
                 [idx i; idx j]) in
  let? _ := fail_if (bool_decide (LocalOIDCRewriteRule.Regex rr = ""))
              (fmt_Errorf "backend[%d].SSO.LocalOIDCServer.RewriteRules[%d].Regex must be set"
                 [idx i; idx j]) in
  let? _ := fail_on (regexp_Compile E (LocalOIDCRewriteRule.Regex rr))
              (fun err => fmt_Errorf "backend[%d].SSO.LocalOIDCServer.RewriteRules[%d].Regex: %v"
                            [idx i; idx j; AErr err]) in
  inl (tt, rr).

(** The body of [for j, po := range be.PathOverrides]. *)
Definition check_path_override (pkis : gmap string bool) (i : nat)
    (beMode : string) (j : nat) (_ : unit) (po : PathOverride.t)
  : (unit * PathOverride.t) + error :=
  let? _ := fail_if (length (PathOverride.Paths po) =? 0)%nat
              (fmt_Errorf "backend[%d].PathOverrides[%d].Paths: cannot be empty"
                 [idx i; idx j]) in
  let? _ :=
    for_range
      (fun k (_ : unit) n =>
         let? _ := fail_if (negb (strings_HasPrefix n "/"))
                     (fmt_Errorf "backend[%d].PathOverrides[%d].Paths[%d]: must start with /"
                        [idx i; idx j; idx k]) in
         inl (tt, n))
      0 tt (PathOverride.Paths po) in
  let mode :=
    if bool_decide (PathOverride.Mode po = "") then beMode else PathOverride.Mode po in
  let mode := strings_ToUpper E mode in
  let? _ := fail_if (negb (bool_decide (mode = ModeHTTP))
                     && negb (bool_decide (mode = ModeHTTPS)))
              (fmt_Errorf "backend[%d].PathOverrides[%d].Mode: must be either %s or %s"
                 [idx i; idx j; AStr ModeHTTP; AStr ModeHTTPS]) in
  let? _ := check_root_cas pkis
              (fun k err => fmt_Errorf "backend[%d].PathOverrides[%d].ForwardRootCAs[%d]: %w"
                              [idx i; idx j; idx k; AErr err])
              (PathOverride.ForwardRootCAs po) in
  let sni := idnaToASCII E (PathOverride.ForwardServerName po) in
  let timeout :=
    if (PathOverride.ForwardTimeout po =? 0)%Z then (30 * time_Second)%Z
    else PathOverride.ForwardTimeout po in
  match validateProxyProtoVersion (PathOverride.ProxyProtocolVersion po) with
  | inr err =>
      inr (fmt_Errorf "backend[%d].PathOverrides[%d].ProxyProtocolVersion: %w"
             [idx i; idx j; AErr err])
  | inl ver =>
      inl (tt, {| PathOverride.Paths := PathOverride.Paths po;
                  PathOverride.Addresses := PathOverride.Addresses po;
                  PathOverride.Mode := mode;
                  PathOverride.BackendProto := PathOverride.BackendProto po;
                  PathOverride.InsecureSkipVerify := PathOverride.InsecureSkipVerify po;
                  PathOverride.ForwardServerName := sni;
                  PathOverride.ForwardRootCAs := PathOverride.ForwardRootCAs po;
                  PathOverride.ForwardTimeout := timeout;
                  PathOverride.ProxyProtocolVersion := PathOverride.ProxyProtocolVersion po;
                  PathOverride.proxyProtocolVersion := ver |})
  end.

(** [if be.ClientAuth != nil { ... }] *)
Definition check_client_auth (pkis : gmap string bool) (i : nat)
    (ca : option ClientAuth.t) : unit + error :=
  match ca with
  | None => inl tt
  | Some ca =>
      let? _ := check_root_cas pkis
                  (fun j err => fmt_Errorf "backend[%d].ClientAuth.RootCAs[%d]: %w"
                                  [idx i; idx j; AErr err])
                  (ClientAuth.RootCAs ca) in
      let? _ :=
        for_range
          (fun (_ : nat) (_ : unit) f =>
             let? _ := fail_if
                         (negb (bool_decide (strings_ToLower E f ∈ validXFCCFields)))
                         (fmt_Errorf "backend[%d].ClientAuth.AddClientCertHeader: invalid field %q, valid values are %v"
                            [idx i; AStr f; AStrs validXFCCFields]) in
             inl (tt, f))
          0 tt (ClientAuth.AddClientCertHeader ca) in
      inl tt
  end.

(** [if be.SSO != nil { ... }] *)
Definition check_sso (identityProviders : gmap string bool) (i : nat)
    (sso : option BackendSSO.t) : unit + error :=
  match sso with
  | None => inl tt
  | Some sso =>
      let? _ := fail_if (negb (flag identityProviders (BackendSSO.Provider sso)))
                  (fmt_Errorf "backend[%d].SSO.Provider: unknown provider %q"
                     [idx i; AStr (BackendSSO.Provider sso)]) in
      match BackendSSO.LocalOIDCServer sso with
      | None => inl tt
      | Some srv =>
          let? _ := for_range (check_oidc_client i) 0 tt (LocalOIDCServer.Clients srv) in
          let? _ := for_range (check_rewrite_rule i) 0 tt
                      (LocalOIDCServer.RewriteRules srv) in
          inl tt
      end
  end.

(** The body of the third [for i, be := range cfg.Backends]. *)
Definition check_backend (identityProviders pkis bwLimits : gmap string bool)
    (i : nat) (_ : unit) (be : Backend.t) : (unit * Backend.t) + error :=
  let mode := Backend.Mode be in
  let? _ := fail_if (length (Backend.ServerNames be) =? 0)%nat
              (fmt_Errorf "backend[%d].ServerNames: backend must have at least one server name"
                 [idx i]) in
  let? _ := fail_if ((length (Backend.Addresses be) =? 0)%nat
                     && negb (bool_decide (mode = ModeConsole))
                     && negb (bool_decide (mode = ModeHTTP))
                     && negb (bool_decide (mode = ModeHTTPS))
                     && negb (bool_decide (mode = ModeLocal)))
              (fmt_Errorf "backend[%d].Addresses: backend must have at least one address"
                 [idx i]) in
  let? _ := fail_if ((0 <? length (Backend.Addresses be))%nat
                     && (bool_decide (mode = ModeConsole)
                         || bool_decide (mode = ModeLocal)))
              (fmt_Errorf "backend[%d].Addresses: Addresses should be empty when Mode is CONSOLE or LOCAL"
                 [idx i]) in
  let? _ := fail_if (negb (bool_decide (Backend.BWLimit be = ""))
                     && negb (flag bwLimits (Backend.BWLimit be)))
              (fmt_Errorf "backend[%d].BWLimit: undefined name %q"
                 [idx i; AStr (Backend.BWLimit be)]) in
  let? _ := check_client_auth pkis i (Backend.ClientAuth be) in
  let? _ := check_sso identityProviders i (Backend.SSO be) in
  let? _ := check_root_cas pkis
              (fun j err => fmt_Errorf "backend[%d].ForwardRootCAs[%d]: %w"
                              [idx i; idx j; AErr err])
              (Backend.ForwardRootCAs be) in
  let timeout :=
    if (Backend.ForwardTimeout be =? 0)%Z then (30 * time_Second)%Z
    else Backend.ForwardTimeout be in
  let? allow :=
    match Backend.AllowIPs be with
    | None => inl (Backend.allowIPs be)
    | Some l =>
        let? ips := parse_cidrs
                      (fun j err => fmt_Errorf "backend[%d].AllowIPs[%d]: %w"
                                      [idx i; idx j; AErr err]) l in
        inl (Some ips)
    end in
  let? deny :=
    match Backend.DenyIPs be with
    | None => inl (Backend.denyIPs be)
    | Some l =>
        let? ips := parse_cidrs
                      (fun j err => fmt_Errorf "backend[%d].DenyIPs[%d]: %w"
                                      [idx i; idx j; AErr err]) l in
        inl (Some ips)
    end in
  let sni := idnaToASCII E (Backend.ForwardServerName be) in
  let limit :=
    if (Backend.ForwardRateLimit be =? 0)%Z then 5%Z else Backend.ForwardRateLimit be in
  match validateProxyProtoVersion (Backend.ProxyProtocolVersion be) with
  | inr err =>
      inr (fmt_Errorf "backend[%d].ProxyProtocolVersion: %w" [idx i; AErr err])
  | inl ver =>
      let? _ := fail_if ((0 <? length (Backend.PathOverrides be))%nat
                         && negb (bool_decide (mode = ModeHTTP))
                         && negb (bool_decide (mode = ModeHTTPS)))
                  (fmt_Errorf "backend[%d].PathOverrides is only valid in %s or %s mode"
                     [idx i; AStr ModeHTTP; AStr ModeHTTPS]) in
      let? (_, pos) := for_range (check_path_override pkis i mode) 0 tt
                         (Backend.PathOverrides be) in
      inl (tt, Backend.set_forwarding timeout allow deny sni limit ver pos be)
  end.

(** [Config.Check].  The configuration is validated and completed in place;
    the result is the configuration as [Check] leaves it when it returns
    [nil], and the error otherwise. *)
Definition Check (cfg : Config.t) : Config.t + error :=
  let? cfg := check_top cfg in
  let enableQUIC := default false (Config.EnableQUIC cfg) in
  let? (identityProviders, oidc) :=
    for_range check_oidc 0 ∅ (Config.OIDCProviders cfg) in
  let? (identityProviders, saml) :=
    for_range check_saml 0 identityProviders (Config.SAMLProviders cfg) in
  let? (identityProviders, passkey) :=
    for_range check_passkey 0 identityProviders (Config.PasskeyProviders cfg) in
  let? (_, backends) :=
    for_range (check_backend_mode enableQUIC) 0 tt (Config.Backends cfg) in
  let? (maps, backends) :=
    for_range check_backend_names 0 (∅, ∅) backends in
  let serverNames := maps.1 in
  let? (pkis, _) :=
    for_range (check_pki backends serverNames) 0 ∅ (Config.PKI cfg) in
  let? (bwLimits, _) :=
    for_range check_bwlimit 0 ∅ (Config.BWLimits cfg) in
  let? (_, backends) :=
    for_range (check_backend identityProviders pkis bwLimits) 0 tt backends in
  let? _ := fail_on (os_MkdirAll E (Config.CacheDir cfg)) (fun err => err) in
  inl (Config.set_lists backends oidc saml passkey cfg).

End Check.

(** ** Reading a configuration *)

(** The fields that the first loop over the backends reads or writes. *)
Definition same_mode_fields (b b' : Backend.t) : Prop :=
  Backend.Mode b' = Backend.Mode b /\
  Backend.ClientAuth b' = Backend.ClientAuth b /\
  Backend.ALPNProtos b' = Backend.ALPNProtos b /\
  Backend.BackendProto b' = Backend.BackendProto b /\
  Backend.ServerCloseEndsConnection b' = Backend.ServerCloseEndsConnection b /\
  Backend.ClientCloseEndsConnection b' = Backend.ClientCloseEndsConnection b.

(** The fields that the second loop over the backends reads or writes. *)
Definition same_name_fields (b b' : Backend.t) : Prop :=
  Backend.ServerNames b' = Backend.ServerNames b /\
  Backend.ALPNProtos b' = Backend.ALPNProtos b.

(** The pairs [(server name, ALPN protocol)] of a list of names and a list
    of protocols, of a backend and of a list of backends. *)
Definition pairs (names protos : list string) : list beKey :=
  sn ← names; proto ← protos; [(sn, proto)].

Definition keys (be : Backend.t) : list beKey :=
  pairs (Backend.ServerNames be) (default [] (Backend.ALPNProtos be)).

Definition offered (backends : list Backend.t) : list beKey :=
  be ← backends; keys be.

(** The names of a backend whose list of protocols is empty are new: not in
    [seen], not listed by a backend before it, and listed once. *)
Definition names_new (seen : gmap string nat) (backends : list Backend.t) : Prop :=
  forall n bj, backends !! n = Some bj ->
    default [] (Backend.ALPNProtos bj) = [] ->
    NoDup (Backend.ServerNames bj) /\
    forall sn, sn ∈ Backend.ServerNames bj ->
      seen !! sn = None /\
      forall m bi, (m < n)%nat -> backends !! m = Some bi ->
                   sn ∉ Backend.ServerNames bi.

(** ** Reading what [Check] stores *)

(** The mode that the first loop over the backends stores: upper case, and
    [TCP] for the empty string and for [PLAINTEXT]. *)
Definition mode_of (E : Env) (b : Backend.t) : string :=
  let m := strings_ToUpper E (Backend.Mode b) in
  if bool_decide (m = "") || bool_decide (m = ModePlaintext) then ModeTCP else m.

(** The modes whose default ALPN list has [h3] when QUIC is enabled. *)
Definition h3Modes : list string :=
  [ModeHTTP; ModeHTTPS; ModeQUIC; ModeLocal; ModeConsole].

(** The names of all identity providers of a configuration. *)
Definition provider_names (cfg : Config.t) : list string :=
  (ConfigOIDC.Name <$> Config.OIDCProviders cfg) ++
  (ConfigSAML.Name <$> Config.SAMLProviders cfg) ++
  (ConfigPasskey.Name <$> Config.PasskeyProviders cfg).

End config.

(** * Sample environments and inputs *)
Module examples.

Definition ascii_upper (c : ascii) : ascii :=
  let n := nat_of_ascii c in
  if (97 <=? n)%nat && (n <=? 122)%nat then ascii_of_nat (n - 32) else c.

Definition ascii_lower (c : ascii) : ascii :=
  let n := nat_of_ascii c in
  if (65 <=? n)%nat && (n <=? 90)%nat then ascii_of_nat (n + 32) else c.

Fixpoint string_map (f : ascii -> ascii) (s : string) : string :=
  match s with
  | EmptyString => EmptyString
  | String c rest => String (f c) (string_map f rest)
  end.

(** Letter case of ASCII text, as [strings.ToUpper], [strings.ToLower] and
    the IDNA lookup profile treat it. *)
Definition to_upper : string -> string := string_map ascii_upper.
Definition to_lower : string -> string := string_map ascii_lower.

(** The text before the first [/]. *)
Fixpoint until_slash (s : string) : string :=
  match s with
  | EmptyString => EmptyString
  | String c rest => if bool_decide (c = "/"%char) then EmptyString
                     else String c (until_slash rest)
  end.

(** ** For internal/proxy.go *)
Import internal.

(** A world in which only 10.0.0.3:1 accepts connections, files do not
    exist, every copy ends at end of stream and nobody reloads. *)
Definition W0 : World :=
  {| os_ReadFile := fun _ => inr (lib_error "no such file or directory");
     x509_parsePEM := fun b => if bool_decide (b = "") then [] else [b];
     yaml_Marshal := fun h c =>
       match c with
       | None => "null"
       | Some c =>
           String.concat ";"
             (TLSAddr c ::
              ((fun l => match h !! l with
                         | Some be => String.concat "," (ServerNames be)
                         | None => "null"
                         end) <$> Backends c))
       end;
     net_Dial := fun _ req =>
       if bool_decide (dial_addr req = "10.0.0.3:1") then inl 5%nat
       else inr (lib_error "connection refused");
     io_Copy := fun _ _ _ => EOF;
     concurrent_Reconfigure := fun _ => None |}.

Definition be3 : Backend :=
  {| ServerNames := ["example.com"]; ClientAuth := false; ClientCAs := "";
     ForwardRootCAs := ""; Addresses := ["10.0.0.1:1"; "10.0.0.2:1"; "10.0.0.3:1"];
     UseTLS := false; InsecureSkipVerify := false; ForwardServerName := "";
     ForwardTimeout := 30000000000; tlsConfig := None; forwardRootCAs := None;
     next := 0 |}.

Definition c3 : Config :=
  {| HTTPAddr := ""; TLSAddr := ":10443"; CacheDir := "/var/cache/tlsproxy";
     Email := ""; MaxOpen := 2; Backends := [1%positive] |}.

(** The proxy after [New(c3)], with [n] connections open. *)
Definition s3 (n : Z) : state :=
  {| heap := {[ 1%positive := be3 ]};
     px := {| cfg := Some c3; mapping := {[ "example.com" := 1%positive ]};
              numOpen := n |};
     trace := [] |}.

(** The proxy before any configuration is installed. *)
Definition s_new : state :=
  {| heap := {[ 1%positive := be3 ]};
     px := {| cfg := None; mapping := ∅; numOpen := 0 |};
     trace := [] |}.

(** A backend with two addresses; the second one accepts. *)
Definition be2 : Backend :=
  {| ServerNames := ["example.com"]; ClientAuth := false; ClientCAs := "";
     ForwardRootCAs := ""; Addresses := ["10.0.0.1:1"; "10.0.0.3:1"];
     UseTLS := false; InsecureSkipVerify := false; ForwardServerName := "";
     ForwardTimeout := 30000000000; tlsConfig := None; forwardRootCAs := None;
     next := 0 |}.

Definition s2 : state :=
  {| heap := {[ 1%positive := be2 ]};
     px := {| cfg := None; mapping := ∅; numOpen := 0 |};
     trace := [] |}.


Definition peer3 : Peer :=
  {| clientHello := inl "example.com"; handshakeRest := None |}.

(** A configuration without backends, and a world in which it is loaded
    while connections are being handled. *)
Definition c_empty : Config :=
  {| HTTPAddr := ""; TLSAddr := ":10444"; CacheDir := "/var/cache/tlsproxy";
     Email := ""; MaxOpen := 2; Backends := [] |}.

Definition W1 : World :=
  {| os_ReadFile := os_ReadFile W0; x509_parsePEM := x509_parsePEM W0;
     yaml_Marshal := yaml_Marshal W0; net_Dial := net_Dial W0;
     io_Copy := io_Copy W0;
     concurrent_Reconfigure := fun _ => Some (Some c_empty) |}.

(** A backend that asks for client certificates and names a file of
    authorities, which [W0] cannot read. *)
Definition be_auth : Backend :=
  {| ServerNames := ["secure.example.com"]; ClientAuth := true;
     ClientCAs := "/etc/ssl/clients.pem"; ForwardRootCAs := "";
     Addresses := ["10.0.0.4:1"]; UseTLS := false; InsecureSkipVerify := false;
     ForwardServerName := ""; ForwardTimeout := 30000000000; tlsConfig := None;
     forwardRootCAs := None; next := 0 |}.

Definition c_auth : Config :=
  {| HTTPAddr := ""; TLSAddr := ":10443"; CacheDir := "/var/cache/tlsproxy";
     Email := ""; MaxOpen := 2; Backends := [1%positive; 2%positive] |}.

(** The proxy serving [c3] when [c_auth] arrives. *)
Definition s_auth : state :=
  {| heap := <[2%positive := be_auth]> {[ 1%positive := be3 ]};
     px := px (s3 0);
     trace := [] |}.

(** A second backend for [example.com], later in the list. *)
Definition be5 : Backend :=
  {| ServerNames := ["example.com"; "alt.example.com"]; ClientAuth := false;
     ClientCAs := ""; ForwardRootCAs := ""; Addresses := ["10.0.0.5:1"];
     UseTLS := false; InsecureSkipVerify := false; ForwardServerName := "";
     ForwardTimeout := 30000000000; tlsConfig := None; forwardRootCAs := None;
     next := 0 |}.

Definition c_dup : Config :=
  {| HTTPAddr := ""; TLSAddr := ":10443"; CacheDir := "/var/cache/tlsproxy";
     Email := ""; MaxOpen := 2; Backends := [1%positive; 3%positive] |}.

Definition s_dup : state :=
  {| heap := <[3%positive := be5]> {[ 1%positive := be3 ]};
     px := {| cfg := None; mapping := ∅; numOpen := 0 |};
     trace := [] |}.

(** A backend with inline PEM data for both pools. *)
Definition be_pem : Backend :=
  {| ServerNames := ["pem.example.com"]; ClientAuth := true;
     ClientCAs := "PEM-CLIENTS"; ForwardRootCAs := "PEM-ROOTS";
     Addresses := ["10.0.0.6:1"]; UseTLS := true; InsecureSkipVerify := false;
     ForwardServerName := "upstream.example.com"; ForwardTimeout := 30000000000;
     tlsConfig := None; forwardRootCAs := None; next := 0 |}.

Definition c_pem : Config :=
  {| HTTPAddr := ""; TLSAddr := ":10443"; CacheDir := "/var/cache/tlsproxy";
     Email := ""; MaxOpen := 2; Backends := [4%positive] |}.

Definition s_pem : state :=
  {| heap := {[ 4%positive := be_pem ]};
     px := {| cfg := None; mapping := ∅; numOpen := 0 |};
     trace := [] |}.

(** The state a run ends in, or [d] when it does not return. *)
Definition final {A} (r : run A) (d : state) : state :=
  match r with
  | Returns _ s' => s'
  | _ => d
  end.

(** A client that hangs up before sending a ClientHello. *)
Definition peer_eof : Peer :=
  {| clientHello := inr (lib_error "EOF"); handshakeRest := None |}.

(** ** For the configuration file *)
Import config.

Definition env0 : Env :=
  {| os_UserCacheDir := inl "/home/proxy/.cache";
     filepath_Join := String.concat "/";
     openFileLimit := inl 1024%Z;
     quicIsEnabled := true;
     idnaToASCII := to_lower;
     url_Parse := fun _ => None;
     hostAndPath := fun u =>
       match u with
       | String "h" (String "t" (String "t" (String "p" (String "s"
           (String ":" (String "/" (String "/" rest))))))) => inl (until_slash rest)
       | _ => inr (lib_error "invalid URL")
       end;
     strings_ToUpper := to_upper;
     strings_ToLower := to_lower;
     loadCerts := fun _ => None;
     net_ParseCIDR := fun c => inl c;
     regexp_Compile := fun _ => None;
     os_MkdirAll := fun _ => None |}.

Definition backend0 : Backend.t :=
  {| Backend.ServerNames := []; Backend.ClientAuth := None;
     Backend.AllowIPs := None; Backend.DenyIPs := None; Backend.SSO := None;
     Backend.ExportJWKS := ""; Backend.ALPNProtos := None;
     Backend.BackendProto := None; Backend.Mode := ""; Backend.BWLimit := "";
     Backend.Addresses := []; Backend.InsecureSkipVerify := false;
     Backend.ForwardRateLimit := 0; Backend.ForwardServerName := "";
     Backend.ForwardRootCAs := []; Backend.ForwardTimeout := 0;
     Backend.PathOverrides := []; Backend.ProxyProtocolVersion := "";
     Backend.ServerCloseEndsConnection := None;
     Backend.ClientCloseEndsConnection := None;
     Backend.HalfCloseTimeout := None; Backend.connLimit := None;
     Backend.proxyProtocolVersion := 0; Backend.allowIPs := None;
     Backend.denyIPs := None |}.

(** A backend in the default mode with the given names, ALPN protocols,
    addresses and PROXY protocol version. *)
Definition simple_backend (names : list string) (alpn : option (list string))
    (addrs : list string) (ver : string) : Backend.t :=
  {| Backend.ServerNames := names; Backend.ClientAuth := None;
     Backend.AllowIPs := None; Backend.DenyIPs := None; Backend.SSO := None;
     Backend.ExportJWKS := ""; Backend.ALPNProtos := alpn;
     Backend.BackendProto := None; Backend.Mode := ""; Backend.BWLimit := "";
     Backend.Addresses := addrs; Backend.InsecureSkipVerify := false;
     Backend.ForwardRateLimit := 0; Backend.ForwardServerName := "";
     Backend.ForwardRootCAs := []; Backend.ForwardTimeout := 0;
     Backend.PathOverrides := []; Backend.ProxyProtocolVersion := ver;
     Backend.ServerCloseEndsConnection := None;
     Backend.ClientCloseEndsConnection := None;
     Backend.HalfCloseTimeout := None; Backend.connLimit := None;
     Backend.proxyProtocolVersion := 0; Backend.allowIPs := None;
     Backend.denyIPs := None |}.

Definition simple_config (backends : list Backend.t) : Config.t :=
  {| Config.Definitions := None; Config.HTTPAddr := ""; Config.TLSAddr := "";
     Config.EnableQUIC := Some false; Config.CacheDir := "/var/cache/tlsproxy";
     Config.DefaultServerName := ""; Config.Backends := backends;
     Config.Email := ""; Config.RevokeUnusedCertificates := None;
     Config.MaxOpen := 100; Config.AcceptTOS := true;
     Config.OIDCProviders := []; Config.SAMLProviders := [];
     Config.PasskeyProviders := []; Config.PKI := []; Config.BWLimits := [] |}.

(** A backend without ALPN, then a backend for the same name with [h2]. *)
Definition cfg_shared_name : Config.t :=
  simple_config
    [simple_backend ["a.test"] (Some []) ["127.0.0.1:9001"] "";
     simple_backend ["a.test"] (Some ["h2"]) ["127.0.0.1:9002"] ""].

(** The same two backends in the other order. *)
Definition cfg_shared_name_swapped : Config.t :=
  simple_config
    [simple_backend ["a.test"] (Some ["h2"]) ["127.0.0.1:9002"] "";
     simple_backend ["a.test"] (Some []) ["127.0.0.1:9001"] ""].

Definition cfg_proxy_v3 : Config.t :=
  simple_config [simple_backend ["a.test"] None ["127.0.0.1:9001"] "v3"].

Definition cfg_sample : Config.t :=
  simple_config
    [simple_backend ["Example.COM"; "www.example.com"] None ["127.0.0.1:9001"] "v2";
     simple_backend ["api.example.com"] (Some ["h2"]) ["10.0.0.1:80"; "10.0.0.2:80"] ""].

(** A configuration with providers of the three kinds, a PKI, a bandwidth
    limit group and three backends; the passkey provider names itself as its
    identity provider. *)
Definition oidc_full : ConfigOIDC.t :=
  {| ConfigOIDC.Name := "idp";
     ConfigOIDC.DiscoveryURL := "https://accounts.example.com/.well-known";
     ConfigOIDC.AuthEndpoint := ""; ConfigOIDC.Scopes := [];
     ConfigOIDC.HostedDomain := ""; ConfigOIDC.TokenEndpoint := "";
     ConfigOIDC.UserinfoEndpoint := "";
     ConfigOIDC.RedirectURL := "https://login.example.com/callback";
     ConfigOIDC.ClientID := "client"; ConfigOIDC.ClientSecret := "secret";
     ConfigOIDC.Domain := "Example.COM" |}.

Definition saml_full : ConfigSAML.t :=
  {| ConfigSAML.Name := "saml";
     ConfigSAML.SSOURL := "https://sso.example.org/login";
     ConfigSAML.EntityID := "proxy"; ConfigSAML.Certs := "PEM";
     ConfigSAML.ACSURL := "https://login.example.com/saml/acs";
     ConfigSAML.Domain := "" |}.

Definition passkey_full : ConfigPasskey.t :=
  {| ConfigPasskey.Name := "passkey"; ConfigPasskey.IdentityProvider := "passkey";
     ConfigPasskey.RefreshInterval := 0;
     ConfigPasskey.Endpoint := "https://login.example.com/passkey";
     ConfigPasskey.Domain := "" |}.

Definition pki_full : ConfigPKI.t :=
  {| ConfigPKI.Name := "ca"; ConfigPKI.KeyType := "";
     ConfigPKI.IssuingCertificateURLs := [];
     ConfigPKI.CRLDistributionPoints := []; ConfigPKI.OCSPServer := [];
     ConfigPKI.Endpoint := "https://pki.example.com/ca";
     ConfigPKI.Admins := [] |}.

Definition sso_full : BackendSSO.t :=
  {| BackendSSO.Provider := "idp"; BackendSSO.ForceReAuth := 0;
     BackendSSO.ACL := None; BackendSSO.Paths := [];
     BackendSSO.SetUserIDHeader := false; BackendSSO.GenerateIDTokens := false;
     BackendSSO.LocalOIDCServer :=
       Some {| LocalOIDCServer.PathPrefix := "";
               LocalOIDCServer.Clients :=
                 [{| LocalOIDCClient.ID := "app"; LocalOIDCClient.Secret := "s3cr3t";
                     LocalOIDCClient.RedirectURI := ["https://app.example.com/cb"] |}];
               LocalOIDCServer.RewriteRules :=
                 [{| LocalOIDCRewriteRule.InputClaim := "email";
                     LocalOIDCRewriteRule.OutputClaim := "preferred_username";
                     LocalOIDCRewriteRule.Regex := "^([^@]+)@example.com$";
                     LocalOIDCRewriteRule.Value := "$1" |}] |} |}.

Definition override_full : PathOverride.t :=
  {| PathOverride.Paths := ["/api/"]; PathOverride.Addresses := ["10.0.0.9:443"];
     PathOverride.Mode := ""; PathOverride.BackendProto := None;
     PathOverride.InsecureSkipVerify := false;
     PathOverride.ForwardServerName := ""; PathOverride.ForwardRootCAs := ["ca"];
     PathOverride.ForwardTimeout := 0; PathOverride.ProxyProtocolVersion := "v1";
     PathOverride.proxyProtocolVersion := 0 |}.

Definition web_backend : Backend.t :=
  {| Backend.ServerNames := ["WWW.Example.com"];
     Backend.ClientAuth :=
       Some {| ClientAuth.ACL := None;
               ClientAuth.RootCAs := ["ca"; "/etc/ssl/clients.pem"];
               ClientAuth.AddClientCertHeader := ["Cert"; "hash"] |};
     Backend.AllowIPs := Some ["10.0.0.0/8"; "192.168.0.0/16"];
     Backend.DenyIPs := None; Backend.SSO := Some sso_full;
     Backend.ExportJWKS := ""; Backend.ALPNProtos := None;
     Backend.BackendProto := Some "h2"; Backend.Mode := "https";
     Backend.BWLimit := "slow"; Backend.Addresses := ["10.0.0.1:443"];
     Backend.InsecureSkipVerify := false; Backend.ForwardRateLimit := 0;
     Backend.ForwardServerName := "Upstream.Example.com";
     Backend.ForwardRootCAs := ["ca"]; Backend.ForwardTimeout := 0;
     Backend.PathOverrides := [override_full];
     Backend.ProxyProtocolVersion := "v2";
     Backend.ServerCloseEndsConnection := None;
     Backend.ClientCloseEndsConnection := None;
     Backend.HalfCloseTimeout := None; Backend.connLimit := None;
     Backend.proxyProtocolVersion := 0; Backend.allowIPs := None;
     Backend.denyIPs := None |}.

Definition cfg_full : Config.t :=
  {| Config.Definitions := Some "anchors"; Config.HTTPAddr := ":10080";
     Config.TLSAddr := ""; Config.EnableQUIC := None; Config.CacheDir := "";
     Config.DefaultServerName := "WWW.Example.com";
     Config.Backends :=
       [web_backend;
        Backend.set_mode "local" None None None
          (simple_backend ["pki.example.com"] None [] "");
        Backend.set_mode "quic" None None (Some true)
          (simple_backend ["quic.example.com"] None ["10.0.0.2:443"] "")];
     Config.Email := "admin@example.com"; Config.RevokeUnusedCertificates := None;
     Config.MaxOpen := 0; Config.AcceptTOS := true;
     Config.OIDCProviders := [oidc_full]; Config.SAMLProviders := [saml_full];
     Config.PasskeyProviders := [passkey_full]; Config.PKI := [pki_full];
     Config.BWLimits :=
       [{| BWLimit.Name := "slow"; BWLimit.Ingress := 0; BWLimit.Egress := 0 |}] |}.

(** The backend at position [k], or [backend0] when there is none. *)
Definition nth_backend (k : nat) (cfg : Config.t) : Backend.t :=
  default backend0 (Config.Backends cfg !! k).

(** What [Check] returned, or [d] when it returned an error. *)
Definition accepted (d : Config.t) (r : Config.t + error) : Config.t :=
  match r with inl c => c | inr _ => d end.

(** The names and the ALPN protocols of the backends, in order. *)
Definition routes (cfg : Config.t) : list (list string * option (list string)) :=
  (fun b => (Backend.ServerNames b, Backend.ALPNProtos b)) <$> Config.Backends cfg.

(** What [Check] makes of [cfg_full] in [env0]. *)
Definition cfg_full_checked : Config.t := accepted cfg_full (Check env0 cfg_full).

End examples.

(** * Properties of internal/proxy.go *)
Module internal_facts.
Import internal.

Section Facts.

Variable W : World.

(** ** forward *)

Lemma forward_eof out in_ s :
  io_Copy W (trace s) out in_ = EOF ->
  forward W out in_ s =
    Returns None
      {| heap := heap s; px := px s;
         trace := trace s ++ [ECopy out in_]
                    ++ (if implements_closeWriter out then [ECloseWrite out] else [])
                    ++ (if implements_closeReader in_ then [ECloseRead in_] else []) |}.
Proof.
  intros Hc. unfold forward, bind, get_trace, emit, ret; simpl. rewrite Hc.
  destruct (implements_closeWriter out), (implements_closeReader in_); simpl;
    rewrite <- ?app_assoc; reflexivity.
Qed.

Lemma forward_error out in_ s err :
  io_Copy W (trace s) out in_ = CopyError err ->
  forward W out in_ s =
    Returns (Some err)
      {| heap := heap s; px := px s;
         trace := trace s ++ [ECopy out in_; EClose out; EClose in_] |}.
Proof.
  intros Hc. unfold forward, bind, get_trace, emit, ret; simpl. rewrite Hc.
  simpl. rewrite <- !app_assoc. reflexivity.
Qed.

(** ** Backend.dial *)

(** More fuel does not change a run that returned. *)
Lemma loop_fuel_mono {S R} (body : S -> M (iter S R)) :
  forall f f' x s r s',
    loop f body x s = Returns r s' -> (f <= f')%nat ->
    loop f' body x s = Returns r s'.
Proof.
  induction f as [|f IH]; intros f' x s r s' Hrun Hle; [discriminate|].
  destruct f' as [|f']; [lia|].
  cbn [loop] in *. unfold bind in *.
  destruct (body x s) as [[x'|v] s1| |]; try discriminate.
  - apply (IH f'); [exact Hrun|lia].
  - exact Hrun.
Qed.

Lemma dial_request_set_next n be addr :
  dial_request (set_next n be) addr = dial_request be addr.
Proof. reflexivity. Qed.

Lemma attempt_trace_set_next n be c outs :
  attempt_trace (set_next n be) c outs = attempt_trace be c outs.
Proof.
  revert c. induction outs as [|o outs IH]; intros c; simpl; [reflexivity|].
  rewrite IH. reflexivity.
Qed.

(** One iteration of the loop, on a backend whose cursor is in range. *)
Lemma dial_iter_run l mx s be :
  heap s !! l = Some be ->
  (0 <= next be < Z.of_nat (length (Addresses be)))%Z ->
  let n := Z.of_nat (length (Addresses be)) in
  let req := dial_request be (default "" (Addresses be !! Z.to_nat (next be))) in
  let out := net_Dial W (trace s) req in
  let h' := <[l := set_next ((next be + 1) mod n)%Z be]> (heap s) in
  dial_iter W l mx s =
    match out with
    | inl fd =>
        Returns (Break (dial_result be out))
          {| heap := h'; px := px s; trace := trace s ++ [EDial req out] |}
    | inr err =>
        let max' := ((if (mx =? 0)%Z then n else mx) - 1)%Z in
        Returns (if (max' >? 0)%Z then Continue max' else Break (inr err))
          {| heap := h'; px := px s;
             trace := trace s ++ [EDial req out; ELog "ERR dial %q: %v"] |}
    end.
Proof.
  intros Hl Hc n req out h'.
  unfold dial_iter, bind, deref. rewrite Hl.
  unfold index. destruct (next be <? 0)%Z eqn:Hneg; [lia|].
  destruct (Addresses be !! Z.to_nat (next be)) as [addr|] eqn:Ha.
  2:{ apply lookup_ge_None in Ha. lia. }
  fold n. destruct (n =? 0)%Z eqn:Hz; [lia|].
  unfold ret, assign, get_trace, emit, log_Printf, emit; simpl.
  rewrite Z.rem_mod_nonneg by lia.
  subst req out. simpl. fold n.
  destruct (net_Dial W (trace s) _) as [fd|err] eqn:Hd; simpl.
  - reflexivity.
  - rewrite <- app_assoc. simpl.
    destruct ((if (mx =? 0)%Z then n else mx) - 1 >? 0)%Z; reflexivity.
Qed.

Lemma dial_loop_run (r : nat) :
  forall fuel l mx s be,
    heap s !! l = Some be ->
    (0 <= next be < Z.of_nat (length (Addresses be)))%Z ->
    (if (mx =? 0)%Z then Z.of_nat (length (Addresses be)) else mx) = Z.of_nat r ->
    (1 <= r)%nat -> (r <= fuel)%nat ->
    exists outs o,
      loop fuel (dial_iter W l) mx s =
        Returns (dial_result be o)
          {| heap := <[l := set_next ((next be + Z.of_nat (S (length outs)))
                                       mod Z.of_nat (length (Addresses be)))%Z be]> (heap s);
             px := px s;
             trace := trace s ++ attempt_trace be (Z.to_nat (next be)) (outs ++ [o]) |}
      /\ (length outs < r)%nat
      /\ Forall failed outs
      /\ (failed o -> S (length outs) = r).
Proof.
  induction r as [|r IH]; intros fuel l mx s be Hl Hc Hmx Hr Hf; [lia|].
  destruct fuel as [|fuel]; [lia|].
  cbn [loop]. unfold bind at 1.
  rewrite (dial_iter_run l mx s be Hl Hc). cbv zeta.
  set (n := Z.of_nat (length (Addresses be))) in *.
  set (req := dial_request be _).
  destruct (net_Dial W (trace s) req) as [fd|err] eqn:Hd.
  - exists [], (inl fd). split; [|split; [|split]].
    + simpl. unfold ret. reflexivity.
    + simpl. lia.
    + constructor.
    + intros [e He]. discriminate.
  - rewrite Hmx.
    destruct (Z.gtb_spec (Z.of_nat (S r) - 1) 0) as [Hgt|Hgt].
    + (* another round *)
      set (be1 := set_next ((next be + 1) mod n)%Z be).
      set (s1 := {| heap := <[l := be1]> (heap s); px := px s;
                    trace := trace s ++ [EDial req (inr err); ELog "ERR dial %q: %v"] |}).
      assert (Hl1 : heap s1 !! l = Some be1) by (simpl; apply lookup_insert_eq).
      assert (Hc1 : (0 <= next be1 < Z.of_nat (length (Addresses be1)))%Z).
      { simpl. fold n. apply Z.mod_pos_bound. lia. }
      destruct (IH fuel l (Z.of_nat (S r) - 1)%Z s1 be1 Hl1 Hc1)
        as (outs & o & Hrun & Hlen & Hfail & Hlast).
      { destruct (Z.eqb_spec (Z.of_nat (S r) - 1) 0); lia. }
      { lia. }
      { lia. }
      exists (inr err :: outs), o. split; [|split; [|split]].
      * rewrite Hrun. subst s1 be1.
        change (dial_result (set_next ((next be + 1) mod n)%Z be) o)
          with (dial_result be o).
        rewrite attempt_trace_set_next. cbn [heap px trace next Addresses set_next].
        rewrite insert_insert_eq. fold n.
        rewrite Zplus_mod_idemp_l.
        replace (next be + 1 + Z.of_nat (S (length outs)))%Z
          with (next be + Z.of_nat (S (length (inr err :: outs : list (nat + error)))))%Z
          by (cbn [length]; lia).
        rewrite <- app_assoc.
        replace (Z.to_nat ((next be + 1) mod n))
          with (S (Z.to_nat (next be)) mod length (Addresses be)).
        { reflexivity. }
        rewrite Z2Nat.inj_mod by lia. unfold n. rewrite Nat2Z.id.
        f_equal. lia.
      * simpl. lia.
      * constructor; [eexists; reflexivity | exact Hfail].
      * intros Ho. simpl. f_equal. apply Hlast, Ho.
    + (* the rotation is complete *)
      exists [], (inr err). split; [|split; [|split]].
      * simpl. unfold ret. reflexivity.
      * simpl. lia.
      * constructor.
      * intros _. simpl. lia.
Qed.

Lemma rotation_length n c m : length (rotation n c m) = m.
Proof. unfold rotation. rewrite length_fmap, length_seq. reflexivity. Qed.









(** C9.  With at least one address and the cursor in range, [dial] neither
    panics nor diverges, as many iterations as there are addresses suffice,
    and the cursor is in range again afterwards; on an empty address list
    the first index access panics. *)
Theorem dial_cursor_in_bounds (l : loc) (s : state) (be : Backend) (fuel : nat) :
  heap s !! l = Some be ->
  (1 <= length (Addresses be))%nat ->
  (0 <= next be < Z.of_nat (length (Addresses be)))%Z ->
  (length (Addresses be) <= fuel)%nat ->
  (exists res s' be',
     dial W fuel l s = Returns res s' /\
     dial W (length (Addresses be)) l s = Returns res s' /\
     heap s' !! l = Some be' /\
     Addresses be' = Addresses be /\
     (0 <= next be' < Z.of_nat (length (Addresses be')))%Z) /\
  (forall s0 be0,
     heap s0 !! l = Some be0 -> Addresses be0 = [] ->
     dial W fuel l s0 = Panics).
Proof.
  intros Hl Hn Hc Hf. split.
  - destruct (dial_loop_run (length (Addresses be)) (length (Addresses be))
                l 0%Z s be Hl Hc)
      as (outs & o & Hrun & Hlen & Hfail & Hlast); [reflexivity|lia|lia|].
    eexists _, _, _. split; [|split; [exact Hrun|]].
    + unfold dial. eapply loop_fuel_mono; [exact Hrun|exact Hf].
    + cbn [heap]. rewrite lookup_insert_eq. split; [reflexivity|].
      split; [reflexivity|]. cbn [next Addresses set_next].
      apply Z.mod_pos_bound. lia.
  - intros s0 be0 Hl0 Ha0. destruct fuel as [|fuel]; [lia|].
    unfold dial. cbn [loop]. unfold bind at 1.
    unfold dial_iter, bind, deref. rewrite Hl0. rewrite Ha0. cbn [length].
    unfold index. destruct (next be0 <? 0)%Z; [reflexivity|].
    rewrite lookup_nil. reflexivity.
Qed.

(** ** Proxy.Reconfigure *)

Lemma foldl_insert_lookup (l : loc) (sns : list string) (m : gmap string loc) k :
  foldl (fun m sn => <[sn := l]> m) m sns !! k =
    if decide (k ∈ sns) then Some l else m !! k.
Proof.
  revert m. induction sns as [|sn sns IH]; intros m; cbn [foldl].
  - rewrite decide_False by (apply not_elem_of_nil). reflexivity.
  - rewrite IH. destruct (decide (k ∈ sns)) as [Hin|Hnin].
    + rewrite decide_True by (right; exact Hin). reflexivity.
    + destruct (decide (k = sn)) as [->|Hne].
      * rewrite decide_True by left. apply lookup_insert_eq.
      * rewrite decide_False.
        -- apply lookup_insert_ne. congruence.
        -- intros Hin. apply elem_of_cons in Hin. tauto.
Qed.

Lemma stable_refl be : stable be be.
Proof. repeat split. Qed.

Lemma state_eta (s : state) :
  {| heap := heap s; px := px s; trace := trace s |} = s.
Proof. destruct s; reflexivity. Qed.

Lemma Reconfigure_backend_run l m s be :
  heap s !! l = Some be ->
  exists r be',
    Reconfigure_backend W l m s =
      Returns r {| heap := <[l := be']> (heap s); px := px s; trace := trace s |}
    /\ stable be be'
    /\ (forall m', r = inl m' ->
          m' = foldl (fun m sn => <[sn := l]> m) m (ServerNames be)).
Proof.
  intros Hl.
  assert (Hid : forall t : list event,
             {| heap := <[l := be]> (heap s); px := px s; trace := t |} =
             {| heap := heap s; px := px s; trace := t |}).
  { intros t. rewrite insert_id by exact Hl. reflexivity. }
  unfold Reconfigure_backend, bind at 1, deref. rewrite Hl.
  destruct (ClientAuth be) eqn:Hca.
  - destruct (bool_decide (ClientCAs be = "")) eqn:Hcas.
    + unfold bind at 1. unfold bind at 1. unfold assign at 1, ret at 1.
      destruct (bool_decide (ForwardRootCAs be = "")) eqn:Hf.
      * eexists _, _. split; [reflexivity|]. split; [repeat split|].
        intros m' [= <-]. reflexivity.
      * destruct (loadCerts W (ForwardRootCAs be)) as [c|err].
        -- unfold bind, deref, assign, ret. cbn [heap px trace].
           rewrite lookup_insert_eq. cbn [heap px trace].
           rewrite insert_insert_eq.
           eexists _, _. split; [reflexivity|]. split; [repeat split|].
           intros m' [= <-]. reflexivity.
        -- eexists _, _. split; [reflexivity|]. split; [repeat split|].
           intros m' [=].
    + destruct (loadCerts W (ClientCAs be)) as [c|err].
      * unfold bind at 1. unfold bind at 1. unfold assign at 1, ret at 1.
        destruct (bool_decide (ForwardRootCAs be = "")) eqn:Hf.
        -- eexists _, _. split; [reflexivity|]. split; [repeat split|].
           intros m' [= <-]. reflexivity.
        -- destruct (loadCerts W (ForwardRootCAs be)) as [c2|err].
           ++ unfold bind, deref, assign, ret. cbn [heap px trace].
              rewrite lookup_insert_eq. cbn [heap px trace].
              rewrite insert_insert_eq.
              eexists _, _. split; [reflexivity|]. split; [repeat split|].
              intros m' [= <-]. reflexivity.
           ++ eexists _, _. split; [reflexivity|]. split; [repeat split|].
              intros m' [=].
      * unfold bind, ret. exists (inr err), be. rewrite Hid, state_eta.
        split; [reflexivity|]. split; [apply stable_refl|]. intros m' [=].
  - unfold bind at 1, ret at 1.
    destruct (bool_decide (ForwardRootCAs be = "")) eqn:Hf.
    + eexists _, be. rewrite Hid, state_eta. split; [reflexivity|].
      split; [apply stable_refl|]. intros m' [= <-]. reflexivity.
    + destruct (loadCerts W (ForwardRootCAs be)) as [c2|err].
      * unfold bind, deref, assign, ret. rewrite Hl. cbn [heap px trace].
        eexists _, _. split; [reflexivity|]. split; [repeat split|].
        intros m' [= <-]. reflexivity.
      * eexists _, be. rewrite Hid, state_eta. split; [reflexivity|].
        split; [apply stable_refl|]. intros m' [=].
Qed.

Lemma heap_stable_refl h : heap_stable h h.
Proof.
  intros l. destruct (h !! l) as [be|] eqn:E; [|reflexivity].
  exists be. split; [reflexivity|apply stable_refl].
Qed.

Lemma heap_stable_trans h1 h2 h3 :
  heap_stable h1 h2 -> heap_stable h2 h3 -> heap_stable h1 h3.
Proof.
  intros H12 H23 l. specialize (H12 l). specialize (H23 l).
  destruct (h1 !! l) as [b1|].
  - destruct H12 as (b2 & E2 & S2 & A2 & N2). rewrite E2 in H23.
    destruct H23 as (b3 & E3 & S3 & A3 & N3).
    exists b3. split; [exact E3|]. repeat split; congruence.
  - rewrite H12 in H23. exact H23.
Qed.

Lemma heap_stable_insert h l be be' :
  h !! l = Some be -> stable be be' -> heap_stable h (<[l := be']> h).
Proof.
  intros Hl Hs l'. destruct (decide (l' = l)) as [->|Hne].
  - rewrite Hl, lookup_insert_eq. eauto.
  - rewrite lookup_insert_ne by congruence.
    destruct (h !! l') as [b|] eqn:E; [|reflexivity].
    exists b. split; [reflexivity|apply stable_refl].
Qed.

Lemma heap_stable_is_Some h h' l :
  heap_stable h h' -> is_Some (h !! l) -> is_Some (h' !! l).
Proof.
  intros Hs [be Hl]. specialize (Hs l). rewrite Hl in Hs.
  destruct Hs as (be' & -> & _). eauto.
Qed.

Lemma heap_stable_ok bound h h' :
  heap_stable h h' -> heap_ok bound h -> heap_ok bound h'.
Proof.
  intros Hs Hok l be' Hl'. specialize (Hs l).
  destruct (h !! l) as [be|] eqn:Hl; [|congruence].
  destruct Hs as (b & Hb & _ & HA & HN). rewrite Hl' in Hb. injection Hb as <-.
  rewrite HA, HN. apply (Hok l be Hl).
Qed.

Lemma Reconfigure_loop_run bes :
  forall m s,
    (forall l, l ∈ bes -> is_Some (heap s !! l)) ->
    exists r h',
      Reconfigure_loop W bes m s =
        Returns r {| heap := h'; px := px s; trace := trace s |}
      /\ heap_stable (heap s) h'
      /\ (forall m', r = inl m' ->
            (forall sn l, m' !! sn = Some l ->
               m !! sn = Some l \/
               (l ∈ bes /\ exists be, heap s !! l = Some be /\ sn ∈ ServerNames be))
            /\ (forall sn, is_Some (m !! sn) \/ listed (heap s) bes sn ->
                  is_Some (m' !! sn))).
Proof.
  induction bes as [|l rest IH]; intros m s Hbes.
  - exists (inl m), (heap s). cbn [Reconfigure_loop]. unfold ret.
    rewrite state_eta. split; [reflexivity|]. split; [apply heap_stable_refl|].
    intros m' [= <-]. split; [tauto|].
    intros sn [H|(l & be & Hin & _)]; [exact H|]. inversion Hin.
  - destruct (Hbes l) as [be Hl]; [left|].
    destruct (Reconfigure_backend_run l m s be Hl) as (r1 & be' & Hrun1 & Hst & Hm1).
    cbn [Reconfigure_loop]. unfold bind at 1. rewrite Hrun1.
    pose proof (heap_stable_insert _ _ _ _ Hl Hst) as Hs1.
    destruct r1 as [m1|err].
    + specialize (Hm1 m1 eq_refl).
      destruct (IH m1 {| heap := <[l := be']> (heap s); px := px s; trace := trace s |})
        as (r & h' & Hrun & Hs2 & Hprops).
      { intros l' Hin. cbn [heap]. eapply heap_stable_is_Some; [exact Hs1|].
        apply Hbes. right. exact Hin. }
      exists r, h'. split; [exact Hrun|].
      split; [eapply heap_stable_trans; [exact Hs1|exact Hs2]|].
      intros m' Hr. destruct (Hprops m' Hr) as [Hi Hii]. cbn [heap] in *. split.
      * intros sn l0 Hlk. destruct (Hi sn l0 Hlk) as [H1|(Hin & be0 & Hl0 & Hsn)].
        -- rewrite Hm1, foldl_insert_lookup in H1.
           destruct (decide (sn ∈ ServerNames be)) as [Hsn|Hsn].
           ++ injection H1 as <-. right. split; [left|]. eauto.
           ++ left. exact H1.
        -- right. split; [right; exact Hin|].
           destruct (decide (l0 = l)) as [->|Hne].
           ++ rewrite lookup_insert_eq in Hl0. injection Hl0 as <-.
              exists be. split; [exact Hl|]. destruct Hst as (HS & _). congruence.
           ++ rewrite lookup_insert_ne in Hl0 by congruence. eauto.
      * intros sn Hsn. apply Hii.
        destruct Hsn as [Hsn|(l0 & be0 & Hin & Hl0 & Hsn)].
        -- left. rewrite Hm1, foldl_insert_lookup.
           destruct (decide (sn ∈ ServerNames be)); [eauto|exact Hsn].
        -- apply elem_of_cons in Hin. destruct Hin as [->|Hin].
           ++ left. rewrite Hm1, foldl_insert_lookup.
              rewrite Hl in Hl0. injection Hl0 as <-.
              rewrite decide_True by exact Hsn. eauto.
           ++ right. exists l0.
              destruct (decide (l0 = l)) as [->|Hne].
              ** exists be'. split; [exact Hin|]. rewrite lookup_insert_eq.
                 split; [reflexivity|]. rewrite Hl in Hl0. injection Hl0 as <-.
                 destruct Hst as (HS & _). congruence.
              ** exists be0. split; [exact Hin|].
                 rewrite lookup_insert_ne by congruence. tauto.
    + exists (inr err), (<[l := be']> (heap s)). unfold ret.
      split; [reflexivity|]. split; [exact Hs1|]. intros m' [=].
Qed.

Lemma Reconfigure_noop c s :
  yaml_Marshal W (heap s) (cfg (px s)) = yaml_Marshal W (heap s) c ->
  Reconfigure W c s = Returns None s.
Proof.
  intros H. unfold Reconfigure, bind, get_proxy, get_heap, ret.
  rewrite bool_decide_eq_true_2 by exact H. reflexivity.
Qed.

Lemma Reconfigure_run c' s :
  (forall l, l ∈ Backends c' -> is_Some (heap s !! l)) ->
  exists r s' evs,
    Reconfigure W (Some c') s = Returns r s'
    /\ heap_stable (heap s) (heap s')
    /\ numOpen (px s') = numOpen (px s)
    /\ trace s' = trace s ++ evs
    /\ Forall quiet evs
    /\ ((px s' = px s /\
         (r = None ->
          yaml_Marshal W (heap s) (cfg (px s)) = yaml_Marshal W (heap s) (Some c')))
        \/
        (r = None /\ cfg (px s') = Some c'
         /\ (forall sn l, mapping (px s') !! sn = Some l ->
               l ∈ Backends c' /\
               exists be, heap s !! l = Some be /\ sn ∈ ServerNames be)
         /\ (forall sn, listed (heap s) (Backends c') sn ->
               is_Some (mapping (px s') !! sn)))).
Proof.
  intros Hbes.
  destruct (decide (yaml_Marshal W (heap s) (cfg (px s)) =
                    yaml_Marshal W (heap s) (Some c'))) as [Heq|Hne].
  - rewrite (Reconfigure_noop _ _ Heq). exists None, s, [].
    rewrite app_nil_r. repeat split; auto using heap_stable_refl.
  - unfold Reconfigure, bind at 1, get_proxy. unfold bind at 1, get_heap.
    rewrite bool_decide_eq_false_2 by exact Hne.
    set (evs := if cfg (px s) is Some _ then [ELog "INFO Configuration changed"] else []).
    set (s1 := {| heap := heap s; px := px s; trace := trace s ++ evs |}).
    assert (Hq : Forall quiet evs).
    { subst evs. destruct (cfg (px s)); repeat constructor. intros d; discriminate. }
    assert (Hpre : forall (k : M (option error)),
               bind (if cfg (px s) is Some _
                     then log_Printf "INFO Configuration changed" else ret tt)
                    (fun _ => k) s = k s1).
    { intros k. subst s1 evs. unfold bind, log_Printf, emit, ret.
      destruct (cfg (px s)); [reflexivity|].
      rewrite app_nil_r, state_eta. reflexivity. }
    rewrite Hpre.
    destruct (Reconfigure_loop_run (Backends c') ∅ s1 Hbes)
      as (r & h' & Hrun & Hst & Hprops).
    unfold bind at 1. rewrite Hrun. destruct r as [m'|err].
    + destruct (Hprops m' eq_refl) as [Hi Hii].
      unfold bind, put_proxy, ret. cbn [heap px trace].
      eexists None, _, evs. split; [reflexivity|]. cbn [heap px trace numOpen].
      repeat split; auto. right. cbn [cfg mapping]. repeat split.
      * destruct (Hi sn l H) as [H0|[Hin _]]; [|exact Hin].
        rewrite lookup_empty in H0. discriminate.
      * destruct (Hi sn l H) as [H0|[_ Hex]]; [|exact Hex].
        rewrite lookup_empty in H0. discriminate.
      * intros sn Hl. apply Hii. right. exact Hl.
    + unfold ret. eexists (Some err), _, evs. split; [reflexivity|].
      cbn [heap px trace]. repeat split; auto.
      left. split; [reflexivity|]. intros [=].
Qed.

Lemma wf_stable bound s s' :
  wf W bound s -> heap_stable (heap s) (heap s') ->
  mapping_ok (heap s') (mapping (px s')) -> wf W bound s'.
Proof.
  intros (Hh & Hm & Hr) Hst Hm'. split; [|split].
  - eapply heap_stable_ok; eassumption.
  - exact Hm'.
  - intros t c Hc. destruct (Hr t c Hc) as (c' & -> & Hb).
    exists c'. split; [reflexivity|]. intros l Hin.
    eapply heap_stable_is_Some; [exact Hst|apply Hb, Hin].
Qed.

(** ** handleConnection *)

Lemma bind_run {A B} (m : M A) (k : A -> M B) s a s' :
  m s = Returns a s' -> bind m k s = k a s'.
Proof. intros H. unfold bind. rewrite H. reflexivity. Qed.

Lemma quietly_bind {A B} (m : M A) (k : A -> M B) s Q Q' :
  quietly m s Q ->
  (forall a s', Q a s' -> quietly (k a) s' Q') ->
  quietly (bind m k) s Q'.
Proof.
  intros (a & s1 & evs1 & Hrun1 & Ht1 & Hn1 & Hq1 & HQ) Hk.
  destruct (Hk a s1 HQ) as (b & s2 & evs2 & Hrun2 & Ht2 & Hn2 & Hq2 & HQ').
  exists b, s2, (evs1 ++ evs2). rewrite (bind_run _ _ _ _ _ Hrun1).
  split; [exact Hrun2|]. split; [rewrite Ht2, Ht1, app_assoc; reflexivity|].
  split; [congruence|]. split; [apply Forall_app; auto|exact HQ'].
Qed.

Lemma quietly_ret {A} (a : A) s (Q : A -> state -> Prop) :
  Q a s -> quietly (ret a) s Q.
Proof.
  intros HQ. exists a, s, []. rewrite app_nil_r. repeat split; auto.
Qed.

Lemma quietly_emit e s (Q : unit -> state -> Prop) :
  quiet e ->
  Q tt {| heap := heap s; px := px s; trace := trace s ++ [e] |} ->
  quietly (emit e) s Q.
Proof.
  intros He HQ. eexists tt, _, [e]. split; [reflexivity|].
  repeat split; auto.
Qed.

Lemma quietly_get_trace {B} (k : list event -> M B) s Q :
  quietly (k (trace s)) s Q -> quietly (bind get_trace k) s Q.
Proof. intros H. exact H. Qed.

Lemma quietly_get_proxy {B} (k : Proxy -> M B) s Q :
  quietly (k (px s)) s Q -> quietly (bind get_proxy k) s Q.
Proof. intros H. exact H. Qed.

Lemma quiet_log f : quiet (ELog f).
Proof. intros d; discriminate. Qed.

Lemma quietly_log f s : quietly (log_Printf f) s (fun _ _ => True).
Proof. apply quietly_emit; [apply quiet_log|exact I]. Qed.

Lemma quietly_weaken {A} (m : M A) s (Q Q' : A -> state -> Prop) :
  quietly m s Q -> (forall a s', Q a s' -> Q' a s') -> quietly m s Q'.
Proof.
  intros (a & s' & evs & H1 & H2 & H3 & H4 & H5) HQ.
  exists a, s', evs. repeat split; auto.
Qed.

Lemma setKeepAlive_run c s :
  setKeepAlive c s =
    Returns tt {| heap := heap s; px := px s;
                  trace := trace s ++ keepalive_events c |}.
Proof.
  induction c as [fd|c IH|fd w r]; cbn [setKeepAlive keepalive_events].
  - reflexivity.
  - exact IH.
  - unfold ret. rewrite app_nil_r, state_eta. reflexivity.
Qed.

Lemma keepalive_quiet c : Forall quiet (keepalive_events c).
Proof.
  induction c; cbn [keepalive_events]; auto.
  repeat constructor. intros d; discriminate.
Qed.

Lemma quietly_setKeepAlive c s : quietly (setKeepAlive c) s (fun _ _ => True).
Proof.
  eexists tt, _, _. split; [apply setKeepAlive_run|].
  repeat split; auto using keepalive_quiet.
Qed.

Lemma quietly_forward out in_ s : quietly (forward W out in_) s (fun _ _ => True).
Proof.
  destruct (io_Copy W (trace s) out in_) as [|err] eqn:Hc.
  - eexists None, _, _. split; [apply forward_eof; exact Hc|].
    cbn [heap px trace]. repeat split; auto.
    destruct (implements_closeWriter out), (implements_closeReader in_);
      repeat constructor; intros d; discriminate.
  - eexists (Some err), _, _. split; [apply forward_error; exact Hc|].
    cbn [heap px trace]. repeat split; auto.
    repeat constructor; intros d; discriminate.
Qed.

Lemma attempt_trace_quiet be c outs : Forall quiet (attempt_trace be c outs).
Proof.
  revert c. induction outs as [|o outs IH]; intros c; cbn [attempt_trace].
  - constructor.
  - constructor; [intros d; discriminate|].
    apply Forall_app. split; [|apply IH].
    destruct o; repeat constructor. intros d; discriminate.
Qed.

Lemma quietly_dial fuel l s be :
  heap s !! l = Some be -> heap_ok fuel (heap s) ->
  quietly (dial W fuel l) s (fun _ _ => True).
Proof.
  intros Hl Hok. destruct (Hok l be Hl) as [[Hn Hf] Hc].
  destruct (dial_loop_run (length (Addresses be)) fuel l 0%Z s be Hl Hc)
    as (outs & o & Hrun & _); [reflexivity|lia|lia|].
  eexists _, _, _. split; [exact Hrun|]. cbn [heap px trace].
  repeat split; auto using attempt_trace_quiet.
Qed.

Lemma quietly_interleaved bound s :
  wf W bound s -> quietly (interleaved W) s (fun _ s' => wf W bound s').
Proof.
  intros Hwf. unfold interleaved. apply quietly_get_trace.
  destruct (concurrent_Reconfigure W (trace s)) as [c|] eqn:Hc.
  - destruct Hwf as (Hh & Hm & Hr).
    destruct (Hr _ _ Hc) as (c' & -> & Hbes).
    destruct (Reconfigure_run c' s Hbes)
      as (r & s' & evs & Hrun & Hst & Hn & Ht & Hq & Hpx).
    exists tt, s', evs. rewrite (bind_run _ _ _ _ _ Hrun). unfold ret.
    do 4 (split; [auto; fail|]). split; [|split].
    + eapply heap_stable_ok; eassumption.
    + intros sn l0 Hl. destruct Hpx as [[Hsame _]|(_ & _ & Hnew & _)].
      * rewrite Hsame in Hl. eapply heap_stable_is_Some; [exact Hst|].
        eapply Hm; exact Hl.
      * destruct (Hnew sn l0 Hl) as [_ (be & Hb & _)].
        eapply heap_stable_is_Some; [exact Hst|]. eauto.
    + intros t c Ht'. destruct (Hr t c Ht') as (c0 & -> & Hb).
      exists c0. split; [reflexivity|]. intros l0 Hin.
      eapply heap_stable_is_Some; [exact Hst|apply Hb, Hin].
  - apply quietly_ret. exact Hwf.
Qed.

Lemma HandshakeContext_run peer c s :
  mapping_ok (heap s) (mapping (px s)) ->
  exists hs,
    HandshakeContext peer c s =
      Returns hs {| heap := heap s; px := px s; trace := trace s ++ [EHandshake c] |}
    /\ (forall sni, clientHello peer = inl sni -> mapping (px s) !! sni = None ->
          hs = Some (fmt_Errorf "unexpected SNI: %q" [AStr sni])).
Proof.
  intros Hm. unfold HandshakeContext, bind at 1, emit.
  destruct (clientHello peer) as [sni|err].
  - unfold GetConfigForClient, backend, bind, get_proxy, ret, deref. cbn [px heap].
    destruct (mapping (px s) !! sni) as [l|] eqn:Hl.
    + destruct (Hm sni l Hl) as [be Hbe]. cbn [heap]. rewrite Hbe.
      eexists. split; [reflexivity|]. intros ? [= <-] ?. congruence.
    + eexists. split; [reflexivity|]. intros ? [= <-] _. reflexivity.
  - eexists. split; [reflexivity|]. intros ? [=].
Qed.

Lemma HandshakeContext_unknown peer c s sni :
  clientHello peer = inl sni -> mapping (px s) !! sni = None ->
  HandshakeContext peer c s =
    Returns (Some (fmt_Errorf "unexpected SNI: %q" [AStr sni]))
      {| heap := heap s; px := px s; trace := trace s ++ [EHandshake c] |}.
Proof.
  intros Hh Hn. unfold HandshakeContext, bind at 1, emit. rewrite Hh.
  unfold GetConfigForClient, backend, bind, get_proxy, ret. cbn [px heap].
  rewrite Hn. reflexivity.
Qed.

Lemma HandshakeContext_known peer c s sni l :
  clientHello peer = inl sni -> mapping (px s) !! sni = Some l ->
  is_Some (heap s !! l) ->
  HandshakeContext peer c s =
    Returns (handshakeRest peer)
      {| heap := heap s; px := px s; trace := trace s ++ [EHandshake c] |}.
Proof.
  intros Hh Hl [be Hbe]. unfold HandshakeContext, bind at 1, emit. rewrite Hh.
  unfold GetConfigForClient, backend, bind, get_proxy, ret, deref. cbn [px heap].
  rewrite Hl. cbn [heap]. rewrite Hbe. reflexivity.
Qed.

(** The part of [handleConnection] between the two changes of the counter. *)
Lemma handleConnection_body_run fuel peer netConn n s c :
  cfg (px s) = Some c -> wf W fuel s ->
  exists s' evs,
    handleConnection_body W fuel peer (TLSConn netConn) n s = Returns tt s'
    /\ trace s' = trace s ++ evs
    /\ numOpen (px s') = numOpen (px s)
    /\ Forall quiet evs
    /\ ((MaxOpen c <= n)%Z ->
          evs = [ELog "ERR %s: too many open connections: %d >= %d"])
    /\ ((n < MaxOpen c)%Z ->
          exists rest,
            evs = keepalive_events netConn ++ EHandshake (TLSConn netConn) :: rest).
Proof.
  intros Hcfg Hwf. unfold handleConnection_body.
  rewrite (bind_run get_proxy _ s (px s) s eq_refl). rewrite Hcfg.
  destruct (Z.leb_spec (MaxOpen c) n) as [Hfull|Hroom].
  - eexists _, _. split; [reflexivity|]. cbn [heap px trace].
    repeat split; auto; try lia.
    repeat constructor. apply quiet_log.
  - rewrite (bind_run _ _ _ _ _ (setKeepAlive_run netConn s)).
    destruct Hwf as (Hh & Hm & Hr).
    set (s0 := {| heap := heap s; px := px s;
                  trace := trace s ++ keepalive_events netConn |}).
    destruct (HandshakeContext_run peer (TLSConn netConn) s0 Hm) as (hs & Hhs & _).
    rewrite (bind_run _ _ _ _ _ Hhs).
    set (s1 := {| heap := heap s0; px := px s0;
                  trace := trace s0 ++ [EHandshake (TLSConn netConn)] |}).
    assert (Hwf1 : wf W fuel s1) by (split; [exact Hh|split; [exact Hm|exact Hr]]).
    assert (Hrest : quietly
      (match hs with
       | Some _ => log_Printf "ERR %s: %v"
       | None =>
           interleaved W ;;;
           r <~ backend (ConnectionState_ServerName peer) ;;
           match r with
           | inr _ => log_Printf "ERR %s: received unexpected SNI %q"
           | inl be =>
               d <~ dial W fuel be ;;
               match d with
               | inr _ => ret tt
               | inl intConn =>
                   setKeepAlive intConn ;;;
                   log_Printf "BEGIN %s" ;;;
                   e1 <~ forward W intConn (TLSConn netConn) ;;
                   e2 <~ forward W (TLSConn netConn) intConn ;;
                   (if e1 is Some _ then log_Printf "ERR %s [ext ➔ int]: %v" else ret tt) ;;;
                   (if e2 is Some _ then log_Printf "ERR %s [int ➔ ext]: %v" else ret tt) ;;;
                   log_Printf "END   %s; HS:%s Dial:%s Total:%s" ;;;
                   emit (EClose intConn)
               end
           end
       end) s1 (fun _ _ => True)).
    { destruct hs as [e|]; [apply quietly_log|].
      eapply quietly_bind; [apply quietly_interleaved; exact Hwf1|].
      intros _ s2 (Hh2 & Hm2 & _).
      eapply quietly_bind with
        (Q := fun r s' => s' = s2 /\
                match r with
                | inl l => mapping (px s2) !! ConnectionState_ServerName peer = Some l
                | inr _ => True
                end).
      { unfold backend. apply quietly_get_proxy.
        destruct (mapping (px s2) !! ConnectionState_ServerName peer) as [l|] eqn:Hl;
          apply quietly_ret; auto. }
      intros [l|e] ? [-> Hl]; [|apply quietly_log].
      destruct (Hm2 _ _ Hl) as [be Hbe].
      eapply quietly_bind; [eapply quietly_dial; eassumption|].
      intros [intConn|err] s3 _; [|apply quietly_ret; exact I].
      eapply quietly_bind; [apply quietly_setKeepAlive|]. intros _ s4 _.
      eapply quietly_bind; [apply quietly_log|]. intros _ s5 _.
      eapply quietly_bind; [apply quietly_forward|]. intros e1 s6 _.
      eapply quietly_bind; [apply quietly_forward|]. intros e2 s7 _.
      eapply quietly_bind;
        [destruct e1; [apply quietly_log|apply quietly_ret; exact I]|].
      intros _ s8 _.
      eapply quietly_bind;
        [destruct e2; [apply quietly_log|apply quietly_ret; exact I]|].
      intros _ s9 _.
      eapply quietly_bind; [apply quietly_log|]. intros _ s10 _.
      apply quietly_emit; [intros d; discriminate|exact I]. }
    destruct Hrest as ([] & s' & evs & Hrun & Ht & Hn & Hq & _).
    exists s', (keepalive_events netConn ++ EHandshake (TLSConn netConn) :: evs).
    split; [exact Hrun|]. subst s1 s0. cbn [heap px trace] in *.
    split; [rewrite Ht, <- !app_assoc; reflexivity|].
    split; [exact Hn|]. split.
    + apply Forall_app. split; [apply keepalive_quiet|].
      constructor; [intros d; discriminate|exact Hq].
    + split; [lia|]. intros _. eauto.
Qed.

Lemma incNumOpen_run n s :
  incNumOpen n s =
    Returns (numOpen (px s) + n)%Z
      {| heap := heap s;
         px := {| cfg := cfg (px s); mapping := mapping (px s);
                  numOpen := (numOpen (px s) + n)%Z |};
         trace := trace s ++ [ENumOpen n] |}.
Proof. reflexivity. Qed.

Lemma proxy_eta (p : Proxy) n :
  n = numOpen p ->
  {| cfg := cfg p; mapping := mapping p; numOpen := n |} = p.
Proof. intros ->. destruct p; reflexivity. Qed.

(** C2 (amended).  [handleConnection] adds one to [numOpen] on entry and
    takes one off as its last action, whatever happens in between, and
    touches the counter nowhere else; when the incremented value is at least
    [MaxOpen] the connection is closed at once, with no handshake and no
    dial; when it is below [MaxOpen] the handshake is started. *)
Theorem handleConnection_accounting (fuel : nat) (peer : Peer) (netConn : Conn)
    (s : state) (c : Config) :
  cfg (px s) = Some c -> wf W fuel s ->
  exists s' evs,
    handleConnection W fuel peer netConn s = Returns tt s' /\
    trace s' =
      trace s ++ ENumOpen 1 :: evs ++ [EClose (TLSConn netConn); ENumOpen (-1)] /\
    Forall quiet evs /\
    numOpen (px s') = numOpen (px s) /\
    ((MaxOpen c <= numOpen (px s) + 1)%Z ->
       evs = [ELog "ERR %s: too many open connections: %d >= %d"]) /\
    ((numOpen (px s) + 1 < MaxOpen c)%Z ->
       exists rest,
         evs = keepalive_events netConn ++ EHandshake (TLSConn netConn) :: rest).
Proof.
  intros Hcfg Hwf. unfold handleConnection.
  rewrite (bind_run _ _ _ _ _ (incNumOpen_run 1 s)).
  set (s1 := {| heap := heap s;
                px := {| cfg := cfg (px s); mapping := mapping (px s);
                         numOpen := (numOpen (px s) + 1)%Z |};
                trace := trace s ++ [ENumOpen 1] |}).
  destruct (handleConnection_body_run fuel peer netConn (numOpen (px s) + 1)%Z s1 c)
    as (s2 & evs & Hrun & Ht & Hn & Hq & Hfull & Hroom).
  { exact Hcfg. }
  { exact Hwf. }
  rewrite (bind_run _ _ _ _ _ Hrun).
  unfold bind at 1, emit at 1. rewrite bind_run with (1 := incNumOpen_run _ _).
  unfold ret. eexists _, evs. split; [reflexivity|].
  subst s1. cbn [heap px trace numOpen] in *.
  split; [rewrite Ht, <- !app_assoc; reflexivity|].
  split; [exact Hq|]. split; [lia|]. split; assumption.
Qed.

(** C4.  When the mapping holds no entry for a server name, [backend]
    returns an error and so does the [GetConfigForClient] callback; a
    connection that asks for the name fails its handshake and is closed; and
    when the name is gone at the time the backend is resolved, after a
    completed handshake, the handler logs, closes the client connection and
    makes no dial. *)
Theorem unknown_server_name (s : state) (sni : string) :
  mapping (px s) !! sni = None ->
  backend sni s = Returns (inr (fmt_Errorf "unexpected SNI: %q" [AStr sni])) s /\
  GetConfigForClient sni s =
    Returns (inr (fmt_Errorf "unexpected SNI: %q" [AStr sni])) s /\
  (forall fuel peer netConn c,
     cfg (px s) = Some c -> (numOpen (px s) + 1 < MaxOpen c)%Z ->
     clientHello peer = inl sni ->
     handleConnection W fuel peer netConn s =
       Returns tt
         {| heap := heap s; px := px s;
            trace := trace s ++ ENumOpen 1 :: keepalive_events netConn
                       ++ [EHandshake (TLSConn netConn); ELog "ERR %s: %v";
                           EClose (TLSConn netConn); ENumOpen (-1)] |}) /\
  (forall fuel peer netConn s0 c l,
     cfg (px s0) = Some c -> (numOpen (px s0) + 1 < MaxOpen c)%Z ->
     clientHello peer = inl sni -> handshakeRest peer = None ->
     mapping (px s0) !! sni = Some l -> is_Some (heap s0 !! l) ->
     interleaved W
       {| heap := heap s0;
          px := {| cfg := cfg (px s0); mapping := mapping (px s0);
                   numOpen := (numOpen (px s0) + 1)%Z |};
          trace := trace s0 ++ ENumOpen 1 :: keepalive_events netConn
                     ++ [EHandshake (TLSConn netConn)] |} = Returns tt s ->
     handleConnection W fuel peer netConn s0 =
       Returns tt
         {| heap := heap s;
            px := {| cfg := cfg (px s); mapping := mapping (px s);
                     numOpen := (numOpen (px s) + -1)%Z |};
            trace := trace s ++ [ELog "ERR %s: received unexpected SNI %q";
                                 EClose (TLSConn netConn); ENumOpen (-1)] |}).
Proof.
  intros Hnone.
  assert (Hb : backend sni s =
               Returns (inr (fmt_Errorf "unexpected SNI: %q" [AStr sni])) s).
  { unfold backend, bind, get_proxy, ret. rewrite Hnone. reflexivity. }
  split; [exact Hb|]. split.
  { unfold GetConfigForClient. rewrite (bind_run _ _ _ _ _ Hb). reflexivity. }
  split.
  - intros fuel peer netConn c Hcfg Hroom Hhello.
    unfold handleConnection. rewrite (bind_run _ _ _ _ _ (incNumOpen_run 1 s)).
    set (s1 := {| heap := heap s; px := _; trace := _ |}).
    assert (Hcfg1 : cfg (px s1) = Some c) by exact Hcfg.
    unfold bind at 1. unfold handleConnection_body.
    rewrite (bind_run get_proxy _ s1 (px s1) s1 eq_refl). rewrite Hcfg1.
    destruct (Z.leb_spec (MaxOpen c) (numOpen (px s) + 1)) as [?|_]; [lia|].
    rewrite bind_run with (1 := setKeepAlive_run _ _).
    set (s2 := {| heap := heap s1; px := _; trace := _ |}).
    rewrite (bind_run _ _ _ _ _
               (HandshakeContext_unknown peer (TLSConn netConn) s2 sni Hhello Hnone)).
    subst s2 s1.
    unfold bind, emit, get_proxy, ret, log_Printf, emit, incNumOpen, bind,
      get_proxy, put_proxy, emit, ret.
    cbn [heap px trace cfg mapping numOpen].
    f_equal. f_equal.
    + apply proxy_eta. lia.
    + rewrite <- !app_assoc. reflexivity.
  - intros fuel peer netConn s0 c l Hcfg Hroom Hhello Hrest Hl Hbe Hint.
    unfold handleConnection. rewrite (bind_run _ _ _ _ _ (incNumOpen_run 1 s0)).
    set (s1 := {| heap := heap s0; px := _; trace := _ |}).
    assert (Hcfg1 : cfg (px s1) = Some c) by exact Hcfg.
    unfold bind at 1. unfold handleConnection_body.
    rewrite (bind_run get_proxy _ s1 (px s1) s1 eq_refl). rewrite Hcfg1.
    destruct (Z.leb_spec (MaxOpen c) (numOpen (px s0) + 1)) as [?|_]; [lia|].
    rewrite bind_run with (1 := setKeepAlive_run _ _).
    set (s2 := {| heap := heap s1; px := _; trace := _ |}).
    rewrite (bind_run _ _ _ _ _
               (HandshakeContext_known peer (TLSConn netConn) s2 sni l Hhello Hl Hbe)).
    rewrite Hrest.
    subst s2 s1. cbn [heap px trace].
    rewrite <- !app_assoc.
    change ([ENumOpen 1] ++ ?x) with (ENumOpen 1 :: x).
    rewrite (bind_run _ _ _ _ _ Hint).
    unfold ConnectionState_ServerName. rewrite Hhello.
    rewrite (bind_run _ _ _ _ _ Hb).
    unfold bind, emit, get_proxy, ret, log_Printf, emit, incNumOpen, bind,
      get_proxy, put_proxy, emit, ret.
    cbn [heap px trace cfg mapping numOpen].
    rewrite <- !app_assoc. reflexivity.
Qed.

(** C5.  [Reconfigure] with a configuration that serializes to the same
    bytes as the installed one returns [nil] and changes nothing; and after a
    call that returned [nil], a second call with the same configuration
    returns [nil] and changes nothing. *)
Theorem Reconfigure_identical_noop (c : option Config) (s : state) :
  (yaml_Marshal W (heap s) (cfg (px s)) = yaml_Marshal W (heap s) c ->
   Reconfigure W c s = Returns None s) /\
  (forall s', Reconfigure W c s = Returns None s' ->
              Reconfigure W c s' = Returns None s').
Proof.
  split; [apply Reconfigure_noop|].
  intros s' Hrun.
  destruct (decide (yaml_Marshal W (heap s) (cfg (px s)) =
                    yaml_Marshal W (heap s) c)) as [Heq|Hne].
  - rewrite (Reconfigure_noop _ _ Heq) in Hrun. injection Hrun as <-.
    apply Reconfigure_noop, Heq.
  - apply Reconfigure_noop.
    unfold Reconfigure in Hrun.
    rewrite (bind_run get_proxy _ s (px s) s eq_refl) in Hrun.
    rewrite (bind_run get_heap _ s (heap s) s eq_refl) in Hrun.
    rewrite bool_decide_eq_false_2 in Hrun by exact Hne.
    unfold bind at 1 in Hrun.
    destruct ((if cfg (px s) is Some _
               then log_Printf "INFO Configuration changed" else ret tt) s)
      as [[] s1| |]; try discriminate.
    destruct c as [c'|]; [|discriminate].
    unfold bind at 1 in Hrun.
    destruct (Reconfigure_loop W (Backends c') ∅ s1) as [[m|err] s2| |];
      try discriminate.
    unfold bind, put_proxy, ret in Hrun. injection Hrun as <-. reflexivity.
Qed.

(** C6 (amended).  [backend] is a lookup of the server name as it is
    spelled: it returns the backend the mapping holds for exactly this
    string and an error for any other string; and the strings the mapping
    holds after a configuration was installed are exactly the server names
    its backends list. *)
Theorem backend_exact_lookup (s : state) (sni : string) :
  backend sni s =
    Returns (match mapping (px s) !! sni with
             | Some l => inl l
             | None => inr (fmt_Errorf "unexpected SNI: %q" [AStr sni])
             end) s
  /\ (forall c' s0,
        (forall l, l ∈ Backends c' -> is_Some (heap s0 !! l)) ->
        yaml_Marshal W (heap s0) (cfg (px s0)) <> yaml_Marshal W (heap s0) (Some c') ->
        Reconfigure W (Some c') s0 = Returns None s ->
        (is_Some (mapping (px s) !! sni) <-> listed (heap s0) (Backends c') sni)).
Proof.
  split.
  - unfold backend, bind, get_proxy, ret.
    destruct (mapping (px s) !! sni); reflexivity.
  - intros c' s0 Hbes Hne Hrun.
    destruct (Reconfigure_run c' s0 Hbes)
      as (r & s' & evs & Hrun' & _ & _ & _ & _ & Hpx).
    rewrite Hrun in Hrun'. injection Hrun' as <- <-.
    destruct Hpx as [[_ Heq]|(_ & _ & Hi & Hii)].
    + destruct Hne. apply Heq. reflexivity.
    + split.
      * intros [l Hl]. destruct (Hi sni l Hl) as (Hin & be & Hbe & Hsn).
        exists l, be. auto.
      * apply Hii.
Qed.

(** C8 (amended).  [forward] returns [nil] exactly when the copy ended at
    end of stream; it then calls [CloseWrite] on [out] when [out] has that
    method and [CloseRead] on [in] when [in] has that method, and closes
    neither connection; when the copy failed it closes both connections and
    returns the error of the copy. *)
Theorem forward_half_close (out in_ : Conn) (s : state) :
  exists r evs,
    forward W out in_ s =
      Returns r {| heap := heap s; px := px s;
                   trace := trace s ++ ECopy out in_ :: evs |}
    /\ match io_Copy W (trace s) out in_ with
       | EOF =>
           r = None /\
           evs = (if implements_closeWriter out then [ECloseWrite out] else [])
                   ++ (if implements_closeReader in_ then [ECloseRead in_] else [])
       | CopyError err =>
           r = Some err /\ evs = [EClose out; EClose in_]
       end.
Proof.
  destruct (io_Copy W (trace s) out in_) as [|err] eqn:Hc.
  - eexists None, _. split; [|split; reflexivity].
    rewrite (forward_eof _ _ _ Hc). reflexivity.
  - eexists (Some err), _. split; [|split; reflexivity].
    rewrite (forward_error _ _ _ _ Hc). reflexivity.
Qed.

End Facts.

End internal_facts.

(** ** The theorems at sample inputs *)
Module internal_checks.
Import internal examples internal_facts.

Lemma s3_wf n : wf W0 3 (s3 n).
Proof.
  split; [|split].
  - intros l be Hl. cbn [s3 heap] in Hl.
    apply lookup_singleton_Some in Hl as [_ <-]. simpl. lia.
  - intros sn l Hl. cbn [s3 heap px mapping] in *.
    apply lookup_singleton_Some in Hl as [_ <-].
    exists be3. reflexivity.
  - intros t c Hc. discriminate.
Qed.

(** Two addresses refuse, the third accepts: one call tries them in order
    and leaves the cursor at the start of the list. *)
Example dial_failover :
  dial W0 3 1%positive (s3 0) =
    Returns (inl (TCPConn 5))
      {| heap := {[ 1%positive := set_next 0 be3 ]};
         px := px (s3 0);
         trace :=
           [EDial (dial_request be3 "10.0.0.1:1") (inr (lib_error "connection refused"));
            ELog "ERR dial %q: %v";
            EDial (dial_request be3 "10.0.0.2:1") (inr (lib_error "connection refused"));
            ELog "ERR dial %q: %v";
            EDial (dial_request be3 "10.0.0.3:1") (inl 5%nat)] |}.
Proof. vm_compute. reflexivity. Qed.



Lemma dial_cursor_in_bounds_witness :
  (exists res s' be',
     dial W0 3 1%positive (s3 0) = Returns res s' /\
     heap s' !! 1%positive = Some be' /\
     (0 <= next be' < 3)%Z) /\
  dial W0 3 1%positive
    {| heap := {[ 1%positive :=
                   {| ServerNames := ["example.com"]; ClientAuth := false;
                      ClientCAs := ""; ForwardRootCAs := ""; Addresses := [];
                      UseTLS := false; InsecureSkipVerify := false;
                      ForwardServerName := ""; ForwardTimeout := 0;
                      tlsConfig := None; forwardRootCAs := None; next := 0 |} ]};
       px := px (s3 0); trace := [] |} = Panics.
Proof.
  destruct (dial_cursor_in_bounds W0 1%positive (s3 0) be3 3)
    as [(res & s' & be' & H1 & _ & H2 & H3 & H4) Hempty];
    [reflexivity | simpl; lia | simpl; lia | simpl; lia |].
  split.
  - exists res, s', be'. rewrite H3 in H4. auto.
  - eapply Hempty; reflexivity.
Defined.

(** C2 as stated fails.  [MaxOpen] is 2 and two connections are open; one
    of them closes; the next connection raises the counter to 2, which does
    not exceed [MaxOpen], and is closed without a handshake all the same. *)
Lemma handleConnection_full_at_limit :
  MaxOpen c3 = 2%Z /\
  incNumOpen (-1) (s3 2) =
    Returns 1%Z
      {| heap := heap (s3 2); px := px (s3 1); trace := [ENumOpen (-1)] |} /\
  handleConnection W0 3 peer3 (TCPConn 9)
    {| heap := heap (s3 2); px := px (s3 1); trace := [] |} =
    Returns tt
      {| heap := heap (s3 2); px := px (s3 1);
         trace := [ENumOpen 1;
                   ELog "ERR %s: too many open connections: %d >= %d";
                   EClose (TLSConn (TCPConn 9));
                   ENumOpen (-1)] |}.
Proof. repeat split; vm_compute; reflexivity. Qed.

Lemma handleConnection_accounting_witness :
  cfg (px (s3 0)) = Some c3 /\
  exists s' evs,
    handleConnection W0 3 peer3 (TCPConn 9) (s3 0) = Returns tt s' /\
    trace s' =
      trace (s3 0) ++ ENumOpen 1 :: evs
        ++ [EClose (TLSConn (TCPConn 9)); ENumOpen (-1)] /\
    numOpen (px s') = 0%Z /\
    exists rest,
      evs = ESetKeepAlive (TCPConn 9) :: EHandshake (TLSConn (TCPConn 9)) :: rest.
Proof.
  split; [reflexivity|].
  destruct (handleConnection_accounting W0 3 peer3 (TCPConn 9) (s3 0) c3 eq_refl
              (s3_wf 0))
    as (s' & evs & H1 & H2 & _ & H3 & _ & H4).
  exists s', evs. repeat split; try assumption.
  apply H4. simpl. lia.
Defined.

(** A connection for a name the proxy serves, and the whole of what the
    handler does with it. *)
Example handleConnection_served :
  handleConnection W0 3 peer3 (TCPConn 9) (s3 0) =
    Returns tt
      {| heap := {[ 1%positive := set_next 0 be3 ]};
         px := px (s3 0);
         trace :=
           [ENumOpen 1; ESetKeepAlive (TCPConn 9); EHandshake (TLSConn (TCPConn 9));
            EDial (dial_request be3 "10.0.0.1:1") (inr (lib_error "connection refused"));
            ELog "ERR dial %q: %v";
            EDial (dial_request be3 "10.0.0.2:1") (inr (lib_error "connection refused"));
            ELog "ERR dial %q: %v";
            EDial (dial_request be3 "10.0.0.3:1") (inl 5%nat);
            ESetKeepAlive (TCPConn 5);
            ELog "BEGIN %s";
            ECopy (TCPConn 5) (TLSConn (TCPConn 9));
            ECloseWrite (TCPConn 5);
            ECopy (TLSConn (TCPConn 9)) (TCPConn 5);
            ECloseWrite (TLSConn (TCPConn 9));
            ECloseRead (TCPConn 5);
            ELog "END   %s; HS:%s Dial:%s Total:%s";
            EClose (TCPConn 5);
            EClose (TLSConn (TCPConn 9));
            ENumOpen (-1)] |}.
Proof. vm_compute. reflexivity. Qed.

(** The first call installs the configuration. *)
Lemma Reconfigure_first : Reconfigure W0 (Some c3) s_new = Returns None (s3 0).
Proof. vm_compute. reflexivity. Qed.

Lemma unknown_server_name_witness :
  mapping (px (s3 0)) !! "b.test" = None /\
  backend "b.test" (s3 0) =
    Returns (inr (fmt_Errorf "unexpected SNI: %q" [AStr "b.test"])) (s3 0) /\
  handleConnection W0 3
    {| clientHello := inl "b.test"; handshakeRest := None |} (TCPConn 9) (s3 0) =
    Returns tt
      {| heap := heap (s3 0); px := px (s3 0);
         trace := [ENumOpen 1; ESetKeepAlive (TCPConn 9);
                   EHandshake (TLSConn (TCPConn 9)); ELog "ERR %s: %v";
                   EClose (TLSConn (TCPConn 9)); ENumOpen (-1)] |} /\
  handleConnection W1 3 peer3 (TCPConn 9) (s3 0) =
    Returns tt
      {| heap := heap (s3 0);
         px := {| cfg := Some c_empty; mapping := ∅; numOpen := 0 |};
         trace := [ENumOpen 1; ESetKeepAlive (TCPConn 9);
                   EHandshake (TLSConn (TCPConn 9));
                   ELog "INFO Configuration changed";
                   ELog "ERR %s: received unexpected SNI %q";
                   EClose (TLSConn (TCPConn 9)); ENumOpen (-1)] |}.
Proof.
  split; [reflexivity|].
  destruct (unknown_server_name W0 (s3 0) "b.test" eq_refl) as (Hb & _ & Hh & _).
  split; [exact Hb|]. split.
  - apply (Hh 3%nat {| clientHello := inl "b.test"; handshakeRest := None |}
              (TCPConn 9) c3 eq_refl); [simpl; lia|reflexivity].
  - destruct (unknown_server_name W1
                {| heap := heap (s3 0);
                   px := {| cfg := Some c_empty; mapping := ∅; numOpen := 1 |};
                   trace := [ENumOpen 1; ESetKeepAlive (TCPConn 9);
                             EHandshake (TLSConn (TCPConn 9));
                             ELog "INFO Configuration changed"] |}
                "example.com" (lookup_empty _)) as (_ & _ & _ & Hr).
    apply (Hr 3%nat peer3 (TCPConn 9) (s3 0) c3 1%positive eq_refl);
      [simpl; lia | reflexivity | reflexivity | reflexivity
      | exists be3; reflexivity | vm_compute; reflexivity].
Defined.

Lemma Reconfigure_identical_noop_witness :
  Reconfigure W0 (Some c3) (s3 0) = Returns None (s3 0) /\
  Reconfigure W0 None s_new = Returns None s_new.
Proof.
  split.
  - apply (proj2 (Reconfigure_identical_noop W0 (Some c3) _) _ Reconfigure_first).
  - apply (proj1 (Reconfigure_identical_noop W0 None _)). reflexivity.
Defined.

(** C6 as stated fails.  The mapping holds [example.com]; the same name in
    capitals is not resolved. *)
Lemma backend_case_sensitive :
  mapping (px (s3 0)) !! "example.com" = Some 1%positive /\
  to_lower "EXAMPLE.COM" = "example.com" /\
  backend "example.com" (s3 0) = Returns (inl 1%positive) (s3 0) /\
  backend "EXAMPLE.COM" (s3 0) =
    Returns (inr (fmt_Errorf "unexpected SNI: %q" [AStr "EXAMPLE.COM"])) (s3 0).
Proof. repeat split; vm_compute; reflexivity. Qed.

Lemma backend_exact_lookup_witness :
  (is_Some (mapping (px (s3 0)) !! "example.com") <->
   listed (heap s_new) (Backends c3) "example.com") /\
  (is_Some (mapping (px (s3 0)) !! "EXAMPLE.COM") <->
   listed (heap s_new) (Backends c3) "EXAMPLE.COM").
Proof.
  assert (Hbes : forall l, l ∈ Backends c3 -> is_Some (heap s_new !! l)).
  { intros l Hl. cbn [Backends c3] in Hl.
    apply elem_of_cons in Hl as [-> |Hl]; [|inversion Hl]. exists be3. reflexivity. }
  split.
  - apply (proj2 (backend_exact_lookup W0 (s3 0) "example.com") c3 s_new Hbes);
      [vm_compute; discriminate|exact Reconfigure_first].
  - apply (proj2 (backend_exact_lookup W0 (s3 0) "EXAMPLE.COM") c3 s_new Hbes);
      [vm_compute; discriminate|exact Reconfigure_first].
Defined.

(** C8 as stated fails.  The client has sent everything and the copy from
    the client connection, a [*tls.Conn], to the upstream ends at end of
    stream: [CloseWrite] is called on the upstream, and nothing is called on
    the client connection, which has no [CloseRead]. *)
Lemma forward_no_CloseRead_on_tls :
  io_Copy W0 [] (TCPConn 5) (TLSConn (TCPConn 9)) = EOF /\
  forward W0 (TCPConn 5) (TLSConn (TCPConn 9)) (s3 1) =
    Returns None
      {| heap := heap (s3 1); px := px (s3 1);
         trace := [ECopy (TCPConn 5) (TLSConn (TCPConn 9));
                   ECloseWrite (TCPConn 5)] |}.
Proof. split; vm_compute; reflexivity. Qed.

End internal_checks.

(** * Properties of the configuration file *)
Module config_facts.
Import config.

(** ** Loops *)

Lemma and_then_inl {A B} (m : A + error) (k : A -> B + error) b :
  and_then m k = inl b -> exists a, m = inl a /\ k a = inl b.
Proof. destruct m as [a|e]; [eauto|discriminate]. Qed.

Lemma fail_if_inl c e u : fail_if c e = inl u -> c = false.
Proof. destruct c; [discriminate|reflexivity]. Qed.

Lemma fail_on_inl r w u : fail_on r w = inl u -> r = None.
Proof. destruct r; [discriminate|reflexivity]. Qed.

Section Loops.

Context {S A : Type}.
Implicit Types body : nat -> S -> A -> (S * A) + error.

Lemma for_range_ran body i s l s' l' :
  for_range body i s l = inl (s', l') <-> ran body i s l s' l'.
Proof.
  split.
  - revert i s s' l'. induction l as [|x rest IH]; intros i s s' l' H; cbn in H.
    + injection H as <- <-. constructor.
    + apply and_then_inl in H as ([s1 x'] & Hb & H).
      apply and_then_inl in H as ([s2 rest'] & Hr & H).
      injection H as <- <-. econstructor; [exact Hb|]. apply IH, Hr.
  - induction 1 as [|i s x rest s1 x' s2 rest' Hb _ IH]; cbn; [reflexivity|].
    rewrite Hb. cbn. rewrite IH. reflexivity.
Qed.

Lemma ran_length body i s l s' l' : ran body i s l s' l' -> length l' = length l.
Proof. induction 1; cbn; congruence. Qed.

Lemma ran_Forall2 body (P : A -> A -> Prop) i s l s' l' :
  (forall i s x s' y, body i s x = inl (s', y) -> P x y) ->
  ran body i s l s' l' -> Forall2 P l l'.
Proof. intros HP. induction 1; constructor; eauto. Qed.

Lemma ran_same body i s l s' l' :
  (forall i s x s' y, body i s x = inl (s', y) -> y = x) ->
  ran body i s l s' l' -> l' = l.
Proof. intros HP. induction 1; [reflexivity|]. f_equal; eauto. Qed.

(** A second run over lists related to the results of a first run. *)
Lemma ran_replay body body2 (P : A -> A -> Prop) i s l s' l' m :
  (forall i s x s' y z,
     body i s x = inl (s', y) -> P y z -> body2 i s z = inl (s', z)) ->
  ran body i s l s' l' -> Forall2 P l' m ->
  for_range body2 i s m = inl (s', m).
Proof.
  intros Hstep Hran. revert m.
  induction Hran as [|i s x rest s1 x' s2 rest' Hb _ IH]; intros m HP.
  - inversion HP. reflexivity.
  - inversion HP as [|? z ? m' Hz Hm]; subst. cbn.
    rewrite (Hstep _ _ _ _ _ _ Hb Hz). cbn. rewrite (IH _ Hm). reflexivity.
Qed.

Lemma for_range_ext body body2 i s l :
  (forall i s x, x ∈ l -> body i s x = body2 i s x) ->
  for_range body i s l = for_range body2 i s l.
Proof.
  revert i s. induction l as [|x rest IH]; intros i s H; cbn; [reflexivity|].
  rewrite (H i s x) by left. destruct (body2 i s x) as [[s1 x']|e]; cbn; [|reflexivity].
  rewrite IH; [reflexivity|]. intros. apply H. right. assumption.
Qed.

End Loops.

Lemma Forall2_compose {A} (P Q R : A -> A -> Prop) l1 l2 l3 :
  (forall x y z, P x y -> Q y z -> R x z) ->
  Forall2 P l1 l2 -> Forall2 Q l2 l3 -> Forall2 R l1 l3.
Proof.
  intros H H12. revert l3. induction H12; intros l3 H23; inversion H23; subst;
    constructor; eauto.
Qed.

Lemma Forall2_eq_refl {A} (l : list A) : Forall2 eq l l.
Proof. induction l; constructor; auto. Qed.

(** Take apart a successful chain of checks, and use the parts in a chain
    that makes the same checks. *)
Ltac split_check H :=
  repeat (apply and_then_inl in H;
          let a := fresh "a" in
          let Hq := fresh "Hq" in
          destruct H as (a & Hq & H);
          repeat match type of H with
                 | context [match ?p with (_, _) => _ end] => is_var p; destruct p
                 end;
          cbn beta iota in H).

Ltac use_checks :=
  repeat match goal with
         | Hq : ?m = inl ?x |- context [and_then ?m _] =>
             rewrite Hq; cbn [and_then]
         end.

(** ** The loops of [Check], run a second time *)
Section Again.

Variable E : Env.

(** The IDNA conversion leaves its results alone, and upper-casing leaves
    the names of the modes alone. *)
Hypothesis idna_again : forall s, idnaToASCII E (idnaToASCII E s) = idnaToASCII E s.
Hypothesis upper_modes : forall m, m ∈ validModes -> strings_ToUpper E m = m.

Lemma check_domain_again d url e1 e2 e1' e2' d' :
  check_domain E d url e1 e2 = inl d' ->
  check_domain E d' url e1' e2' = inl d'.
Proof.
  unfold check_domain. intros H.
  destruct (bool_decide (d = "")) eqn:Hd.
  - injection H as <-. rewrite Hd. reflexivity.
  - destruct (hostAndPath E url) as [host|err]; [|discriminate].
    apply and_then_inl in H as (u & Hs & H). injection H as <-.
    destruct (bool_decide (idnaToASCII E d = "")); [reflexivity|].
    rewrite idna_again. apply fail_if_inl in Hs. rewrite Hs. reflexivity.
Qed.

Lemma check_oidc_again i ids oi ids' oi' :
  check_oidc E i ids oi = inl (ids', oi') ->
  check_oidc E i ids oi' = inl (ids', oi').
Proof.
  unfold check_oidc. intros H. split_check H. injection H as <- <-.
  cbn [ConfigOIDC.set_Domain ConfigOIDC.Name ConfigOIDC.DiscoveryURL
       ConfigOIDC.AuthEndpoint ConfigOIDC.TokenEndpoint ConfigOIDC.RedirectURL
       ConfigOIDC.ClientID ConfigOIDC.ClientSecret ConfigOIDC.Domain].
  use_checks.
  erewrite check_domain_again by eassumption. reflexivity.
Qed.

Lemma check_saml_again i ids x ids' x' :
  check_saml E i ids x = inl (ids', x') ->
  check_saml E i ids x' = inl (ids', x').
Proof.
  unfold check_saml. intros H. split_check H. injection H as <- <-.
  cbn [ConfigSAML.set_Domain ConfigSAML.Name ConfigSAML.SSOURL
       ConfigSAML.EntityID ConfigSAML.Certs ConfigSAML.ACSURL ConfigSAML.Domain].
  use_checks.
  erewrite check_domain_again by eassumption. reflexivity.
Qed.

Lemma check_passkey_again i ids x ids' x' :
  check_passkey E i ids x = inl (ids', x') ->
  check_passkey E i ids x' = inl (ids', x').
Proof.
  unfold check_passkey. intros H. split_check H. injection H as <- <-.
  cbn [ConfigPasskey.set_Domain ConfigPasskey.Name ConfigPasskey.IdentityProvider
       ConfigPasskey.Endpoint ConfigPasskey.Domain].
  use_checks.
  erewrite check_domain_again by eassumption. reflexivity.
Qed.

Ltac be_simpl :=
  cbn [Backend.ServerNames Backend.ClientAuth Backend.AllowIPs Backend.DenyIPs
       Backend.SSO Backend.ExportJWKS Backend.ALPNProtos Backend.BackendProto
       Backend.Mode Backend.BWLimit Backend.Addresses Backend.InsecureSkipVerify
       Backend.ForwardRateLimit Backend.ForwardServerName Backend.ForwardRootCAs
       Backend.ForwardTimeout Backend.PathOverrides Backend.ProxyProtocolVersion
       Backend.ServerCloseEndsConnection Backend.ClientCloseEndsConnection
       Backend.HalfCloseTimeout Backend.connLimit Backend.proxyProtocolVersion
       Backend.allowIPs Backend.denyIPs
       Backend.set_mode Backend.set_ServerNames Backend.set_forwarding] in *.

Lemma valid_mode_kept m :
  m ∈ validModes ->
  (if bool_decide (m = "") || bool_decide (m = ModePlaintext) then ModeTCP else m) = m.
Proof.
  unfold validModes. rewrite !elem_of_cons, elem_of_nil.
  intros [->|[->|[->|[->|[->|[->|[->|[->|[]]]]]]]]]; reflexivity.
Qed.

Lemma check_backend_mode_replay q i b0 b1 b3 :
  check_backend_mode E q i tt b0 = inl (tt, b1) ->
  same_mode_fields b1 b3 ->
  check_backend_mode E q i tt b3 = inl (tt, b3).
Proof.
  unfold check_backend_mode. intros H Hsame.
  match type of H with
  | context [bool_decide (?m ∈ validModes)] => set (mode := m) in H
  end.
  split_check H. injection H as <-.
  destruct b3. unfold same_mode_fields in Hsame. be_simpl.
  destruct Hsame as (-> & -> & -> & -> & -> & ->).
  assert (Hvalid : mode ∈ validModes).
  { apply fail_if_inl, negb_false_iff, bool_decide_eq_true in Hq. exact Hq. }
  rewrite (upper_modes _ Hvalid), (valid_mode_kept _ Hvalid).
  use_checks. unfold Backend.set_mode. be_simpl.
  destruct (Backend.ALPNProtos b0); [|destruct (q && _)];
    destruct (bool_decide (mode = ModeQUIC)),
      (Backend.ServerCloseEndsConnection b0),
      (Backend.ClientCloseEndsConnection b0); reflexivity.
Qed.

Lemma check_server_name_again i alpn j st sn st' sn' :
  check_server_name E i alpn j st sn = inl (st', sn') ->
  check_server_name E i alpn j st sn' = inl (st', sn').
Proof.
  unfold check_server_name. intros H. split_check H. injection H as <- <-.
  rewrite idna_again. use_checks. reflexivity.
Qed.

Lemma check_backend_names_replay i st b1 st' b2 b3 :
  check_backend_names E i st b1 = inl (st', b2) ->
  same_name_fields b2 b3 ->
  check_backend_names E i st b3 = inl (st', b3).
Proof.
  unfold check_backend_names. intros H [Hn Ha]. split_check H.
  injection H as <- <-. be_simpl. rewrite Hn, Ha.
  apply for_range_ran in Hq.
  rewrite (ran_replay _ _ eq _ _ _ _ _ _
             (fun i0 s0 x s1 y z Hb Hz =>
                eq_ind y (fun z => _ = inl (s1, z))
                  (check_server_name_again _ _ _ _ _ _ _ Hb) z Hz)
             Hq (Forall2_eq_refl _)).
  cbn [and_then]. destruct b3. be_simpl. subst. reflexivity.
Qed.

Lemma default_again (t c : Z) :
  c <> 0%Z ->
  (if ((if (t =? 0)%Z then c else t) =? 0)%Z then c
   else (if (t =? 0)%Z then c else t)) = (if (t =? 0)%Z then c else t).
Proof.
  intros Hc. destruct (Z.eqb_spec t 0) as [->|Hne].
  - destruct (Z.eqb_spec c 0); [contradiction|reflexivity].
  - destruct (Z.eqb_spec t 0); [contradiction|reflexivity].
Qed.

Lemma check_path_override_again pkis i mode j po po' :
  check_path_override E pkis i mode j tt po = inl (tt, po') ->
  check_path_override E pkis i mode j tt po' = inl (tt, po').
Proof.
  unfold check_path_override. intros H. cbv zeta in H.
  match type of H with
  | context [bool_decide (?m = ModeHTTP)] => set (pmode := m) in H
  end.
  split_check H.
  destruct (validateProxyProtoVersion (PathOverride.ProxyProtocolVersion po))
    as [ver|err] eqn:Hver; [|discriminate].
  injection H as <-.
  cbn [PathOverride.Paths PathOverride.Addresses PathOverride.Mode
       PathOverride.BackendProto PathOverride.InsecureSkipVerify
       PathOverride.ForwardServerName PathOverride.ForwardRootCAs
       PathOverride.ForwardTimeout PathOverride.ProxyProtocolVersion
       PathOverride.proxyProtocolVersion].
  cbv zeta.
  assert (Hmode : strings_ToUpper E
                    (if bool_decide (pmode = "") then mode else pmode) = pmode).
  { apply fail_if_inl in Hq1.
    assert (pmode = ModeHTTP \/ pmode = ModeHTTPS) as [Hm|Hm].
    { destruct (bool_decide (pmode = ModeHTTP)) eqn:E1;
        [left; apply bool_decide_eq_true in E1; exact E1|].
      destruct (bool_decide (pmode = ModeHTTPS)) eqn:E2;
        [right; apply bool_decide_eq_true in E2; exact E2|discriminate]. }
    - rewrite Hm. apply upper_modes. unfold validModes. set_solver.
    - rewrite Hm. apply upper_modes. unfold validModes. set_solver. }
  rewrite Hmode, idna_again, Hver, default_again by (unfold time_Second; lia).
  use_checks. reflexivity.
Qed.

Lemma check_backend_again ids pkis bw i be be' :
  check_backend E ids pkis bw i tt be = inl (tt, be') ->
  check_backend E ids pkis bw i tt be' = inl (tt, be').
Proof.
  unfold check_backend. intros H. cbv zeta in H. split_check H.
  destruct (validateProxyProtoVersion (Backend.ProxyProtocolVersion be))
    as [ver|err] eqn:Hver; [|discriminate].
  split_check H. injection H as <-.
  cbv zeta. be_simpl.
  rewrite idna_again, Hver, !default_again by (unfold time_Second; lia).
  match goal with
  | Hr : for_range (check_path_override _ _ _ _) _ _ _ = inl _ |- _ =>
      rename Hr into Hpos
  end.
  match goal with
  | Hr : match Backend.AllowIPs be with _ => _ end = inl ?x |- _ =>
      rename Hr into Hallow; rename x into allow
  end.
  match goal with
  | Hr : match Backend.DenyIPs be with _ => _ end = inl ?x |- _ =>
      rename Hr into Hdeny; rename x into deny
  end.
  apply for_range_ran in Hpos.
  rewrite (ran_length _ _ _ _ _ _ Hpos).
  use_checks.
  assert (Hallow' : match Backend.AllowIPs be with
                    | Some l =>
                        let? ips := parse_cidrs E
                          (fun j err => fmt_Errorf "backend[%d].AllowIPs[%d]: %w"
                                          [idx i; idx j; AErr err]) l in
                        inl (Some ips)
                    | None => inl allow
                    end = inl allow).
  { destruct (Backend.AllowIPs be); [exact Hallow|reflexivity]. }
  rewrite Hallow'. cbn [and_then].
  assert (Hdeny' : match Backend.DenyIPs be with
                   | Some l =>
                       let? ips := parse_cidrs E
                         (fun j err => fmt_Errorf "backend[%d].DenyIPs[%d]: %w"
                                         [idx i; idx j; AErr err]) l in
                       inl (Some ips)
                   | None => inl deny
                   end = inl deny).
  { destruct (Backend.DenyIPs be); [exact Hdeny|reflexivity]. }
  rewrite Hdeny'. cbn [and_then].
  use_checks.
  erewrite ran_replay with (P := eq);
    [reflexivity | | exact Hpos | apply Forall2_eq_refl].
  intros i0 [] x [] y z Hb <-. eapply check_path_override_again. exact Hb.
Qed.

(** What the loops over the backends leave alone. *)
Lemma check_backend_names_keeps i st b st' b' :
  check_backend_names E i st b = inl (st', b') -> same_mode_fields b b'.
Proof.
  unfold check_backend_names. intros H. split_check H. injection H as <- <-.
  repeat split.
Qed.

Lemma check_backend_keeps ids pkis bw i b b' :
  check_backend E ids pkis bw i tt b = inl (tt, b') ->
  same_mode_fields b b' /\ same_name_fields b b'.
Proof.
  unfold check_backend. intros H. cbv zeta in H. split_check H.
  destruct (validateProxyProtoVersion _); [|discriminate].
  split_check H. injection H as <-. repeat split.
Qed.

Lemma same_mode_fields_trans b1 b2 b3 :
  same_mode_fields b1 b2 -> same_mode_fields b2 b3 -> same_mode_fields b1 b3.
Proof.
  unfold same_mode_fields. intros (?&?&?&?&?&?) (?&?&?&?&?&?).
  repeat split; congruence.
Qed.

Lemma check_pki_ext bs bs' sn i pkis p :
  Forall2 same_mode_fields bs bs' ->
  check_pki E bs' sn i pkis p = check_pki E bs sn i pkis p.
Proof.
  intros Hbs. unfold check_pki.
  destruct (fail_if (flag pkis (ConfigPKI.Name p)) _); [|reflexivity].
  cbn [and_then]. destruct (bool_decide (ConfigPKI.Endpoint p = "")); [reflexivity|].
  destruct (hostAndPath E (ConfigPKI.Endpoint p)) as [host|err]; [|reflexivity].
  destruct (sn !! host) as [k|]; [|reflexivity]. cbn [mbind option_bind].
  destruct (bs !! k) as [b|] eqn:Hb.
  - destruct (Forall2_lookup_l _ _ _ k b Hbs Hb) as (b' & -> & (Hm & _)).
    rewrite Hm. reflexivity.
  - apply Forall2_length in Hbs. apply lookup_ge_None in Hb.
    rewrite (proj2 (lookup_ge_None bs' k)) by lia. reflexivity.
Qed.

Lemma check_top_replay cfg cfg1 bs o sa pa :
  check_top E cfg = inl cfg1 ->
  check_top E (Config.set_lists bs o sa pa cfg1) =
    inl (Config.set_lists bs o sa pa cfg1).
Proof.
  unfold check_top. intros H. cbv zeta in H. split_check H.
  injection H as <-. cbv zeta.
  cbn [Config.set_lists Config.Definitions Config.HTTPAddr Config.TLSAddr
       Config.EnableQUIC Config.CacheDir Config.DefaultServerName Config.Backends
       Config.Email Config.RevokeUnusedCertificates Config.MaxOpen
       Config.AcceptTOS Config.OIDCProviders Config.SAMLProviders
       Config.PasskeyProviders Config.PKI Config.BWLimits].
  match goal with
  | Hc : _ = inl ?x |- context [bool_decide (?x = "")] =>
      assert (Hcache :
        (if bool_decide (x = "") then
           match os_UserCacheDir E with
           | inl d => inl (filepath_Join E [d; "tlsproxy"; "letsencrypt"])
           | inr _ => inr (errors_New "CacheDir must be set in config")
           end
         else inl x) = inl x)
  end.
  { destruct (bool_decide (a = "")) eqn:Ha; [|reflexivity].
    apply bool_decide_eq_true in Ha.
    destruct (bool_decide (Config.CacheDir cfg = "")) eqn:Hc.
    - exact Hq.
    - apply bool_decide_eq_false in Hc. congruence. }
  rewrite Hcache. cbn [and_then].
  match goal with
  | |- context [(?x =? 0)%Z] =>
      assert (Hmax :
        (if (x =? 0)%Z then
           match openFileLimit E with
           | inl n => inl (Z.quot n 2 - 100)%Z
           | inr _ => inr (errors_New "MaxOpen: value must be set")
           end
         else inl x) = inl x)
  end.
  { destruct (Z.eqb_spec a0 0) as [Ha|Ha]; [|reflexivity].
    destruct (Z.eqb_spec (Config.MaxOpen cfg) 0) as [Hc|Hc].
    - exact Hq0.
    - congruence. }
  rewrite Hmax. cbn [and_then]. use_checks. rewrite idna_again.
  f_equal. f_equal.
  destruct (bool_decide (Config.TLSAddr cfg = "")) eqn:Ht; [reflexivity|].
  rewrite Ht. reflexivity.
Qed.

(** C10.  When [Check] accepts a configuration, [Check] accepts the
    configuration it produced and changes none of its fields. *)
Theorem Check_again (cfg cfg' : Config.t) :
  Check E cfg = inl cfg' -> Check E cfg' = inl cfg'.
Proof.
  unfold Check. intros H. cbv zeta in H. split_check H. injection H as <-.
  repeat match goal with
         | Hr : for_range _ _ _ _ = inl _ |- _ => apply for_range_ran in Hr
         end.
  match goal with Hr : check_top E cfg = inl ?c |- _ =>
    rename Hr into Htop; rename c into cfg1 end.
  match goal with Hr : ran (check_oidc E) _ _ _ ?s ?l |- _ =>
    rename Hr into Hoidc; rename l into oidc; rename s into ids1 end.
  match goal with Hr : ran (check_saml E) _ _ _ ?s ?l |- _ =>
    rename Hr into Hsaml; rename l into saml; rename s into ids2 end.
  match goal with Hr : ran (check_passkey E) _ _ _ ?s ?l |- _ =>
    rename Hr into Hpasskey; rename l into passkey; rename s into ids3 end.
  match goal with Hr : ran (check_backend_mode E _) _ _ _ _ ?l |- _ =>
    rename Hr into Hmode; rename l into bs1 end.
  match goal with Hr : ran (check_backend_names E) _ _ _ ?s ?l |- _ =>
    rename Hr into Hnames; rename l into bs2; rename s into maps end.
  match goal with Hr : ran (check_pki E _ _) _ _ _ ?s ?l |- _ =>
    rename Hr into Hpki; rename s into pkis end.
  match goal with Hr : ran check_bwlimit _ _ _ ?s ?l |- _ =>
    rename Hr into Hbw; rename s into bw end.
  match goal with Hr : ran (check_backend E _ _ _) _ _ _ _ ?l |- _ =>
    rename Hr into Hbe; rename l into bs3 end.
  assert (H23 : Forall2 (fun b b' => same_mode_fields b b' /\ same_name_fields b b')
                  bs2 bs3).
  { eapply ran_Forall2; [|exact Hbe].
    intros i [] x [] y Hb. eapply check_backend_keeps. exact Hb. }
  assert (H12 : Forall2 same_mode_fields bs1 bs2).
  { eapply ran_Forall2; [|exact Hnames].
    intros i s x s' y Hb. eapply check_backend_names_keeps. exact Hb. }
  assert (H13 : Forall2 same_mode_fields bs1 bs3).
  { eapply Forall2_compose; [|exact H12|exact H23].
    intros x y z Hxy [Hyz _]. eapply same_mode_fields_trans; eassumption. }
  rewrite (check_top_replay _ _ _ _ _ _ Htop). cbn [and_then]. cbv zeta.
  cbn [Config.set_lists Config.Definitions Config.HTTPAddr Config.TLSAddr
       Config.EnableQUIC Config.CacheDir Config.DefaultServerName Config.Backends
       Config.Email Config.RevokeUnusedCertificates Config.MaxOpen
       Config.AcceptTOS Config.OIDCProviders Config.SAMLProviders
       Config.PasskeyProviders Config.PKI Config.BWLimits].
  erewrite ran_replay with (P := eq) (body := check_oidc E);
    [| | exact Hoidc | apply Forall2_eq_refl].
  2:{ intros i s x s' y z Hb <-. eapply check_oidc_again. exact Hb. }
  cbn [and_then].
  erewrite ran_replay with (P := eq) (body := check_saml E);
    [| | exact Hsaml | apply Forall2_eq_refl].
  2:{ intros i s x s' y z Hb <-. eapply check_saml_again. exact Hb. }
  cbn [and_then].
  erewrite ran_replay with (P := eq) (body := check_passkey E);
    [| | exact Hpasskey | apply Forall2_eq_refl].
  2:{ intros i s x s' y z Hb <-. eapply check_passkey_again. exact Hb. }
  cbn [and_then].
  erewrite ran_replay with (P := same_mode_fields) (body := check_backend_mode E _);
    [| | exact Hmode | exact H13].
  2:{ intros i [] x [] y z Hb Hz. eapply check_backend_mode_replay; eassumption. }
  cbn [and_then].
  erewrite ran_replay with (P := same_name_fields) (body := check_backend_names E);
    [| | exact Hnames | ].
  2:{ intros i s x s' y z Hb Hz. eapply check_backend_names_replay; eassumption. }
  2:{ eapply Forall2_impl; [|exact H23]. intros x y [_ Hn]. exact Hn. }
  cbn [and_then].
  rewrite for_range_ext with (body := check_pki E bs3 _)
    (body2 := check_pki E bs2 maps.1).
  2:{ intros i s x _. apply check_pki_ext.
      eapply Forall2_impl; [|exact H23]. intros b b' [Hm _]. exact Hm. }
  apply for_range_ran in Hpki, Hbw. rewrite Hpki. cbn [and_then].
  rewrite Hbw. cbn [and_then].
  erewrite ran_replay with (P := eq) (body := check_backend E _ _ _);
    [| | exact Hbe | apply Forall2_eq_refl].
  2:{ intros i [] x [] y z Hb <-. eapply check_backend_again. exact Hb. }
  cbn [and_then]. use_checks. reflexivity.
Qed.

End Again.

(** ** Server names and ALPN protocols *)
Section Unique.

Variable E : Env.

Lemma flag_insert `{Countable K} (m : gmap K bool) (k k' : K) :
  flag (<[k := true]> m) k' = true <-> k = k' \/ flag m k' = true.
Proof.
  unfold flag. destruct (decide (k = k')) as [->|Hne].
  - rewrite lookup_insert_eq. cbn. tauto.
  - rewrite lookup_insert_ne by exact Hne. split; [tauto|].
    intros [?|?]; [contradiction|assumption].
Qed.

Lemma check_proto_ran i sn j ks protos ks' protos' :
  ran (check_proto i sn) j ks protos ks' protos' ->
  protos' = protos /\
  NoDup protos /\
  (forall p, p ∈ protos -> flag ks (sn, p) = false) /\
  (forall k, flag ks' k = true <->
             flag ks k = true \/ exists p, p ∈ protos /\ k = (sn, p)).
Proof.
  induction 1 as [|j ks p rest ks1 p' ks2 rest' Hb _ IH].
  - repeat split; [constructor|inversion 1|tauto|].
    intros [?|(p & Hp & _)]; [assumption|inversion Hp].
  - unfold check_proto in Hb. split_check Hb. injection Hb as <- <-.
    apply fail_if_inl in Hq.
    destruct IH as (-> & Hnd & Hfresh & Hks). repeat split.
    + constructor; [|exact Hnd]. intros Hin.
      specialize (Hfresh p Hin). rewrite (proj2 (flag_insert _ _ _)) in Hfresh
        by (left; reflexivity). discriminate.
    + intros p0 Hp0. apply elem_of_cons in Hp0 as [->|Hp0]; [exact Hq|].
      specialize (Hfresh p0 Hp0).
      destruct (flag ks (sn, p0)) eqn:Hf; [|reflexivity].
      rewrite (proj2 (flag_insert _ _ _)) in Hfresh by (right; exact Hf).
      discriminate.
    + intros Hk. apply Hks in Hk as [Hk|(p0 & Hp0 & ->)].
      * apply flag_insert in Hk as [<-|Hk]; [|left; exact Hk].
        right. exists p. split; [left|reflexivity].
      * right. exists p0. split; [right; exact Hp0|reflexivity].
    + intros [Hk|(p0 & Hp0 & ->)]; apply Hks.
      * left. apply flag_insert. right. exact Hk.
      * apply elem_of_cons in Hp0 as [->|Hp0].
        -- left. apply flag_insert. left. reflexivity.
        -- right. eauto.
Qed.

Lemma elem_of_pairs names protos k :
  k ∈ pairs names protos <-> k.1 ∈ names /\ k.2 ∈ protos.
Proof.
  unfold pairs. rewrite list_elem_of_bind. split.
  - intros (sn & Hk & Hsn). apply list_elem_of_bind in Hk as (p & Hk & Hp).
    apply list_elem_of_singleton in Hk as ->. auto.
  - intros [Hsn Hp]. exists k.1. split; [|exact Hsn].
    apply list_elem_of_bind. exists k.2. split; [|exact Hp].
    destruct k. apply list_elem_of_singleton. reflexivity.
Qed.

Lemma pairs_cons sn names protos :
  pairs (sn :: names) protos = (pair sn <$> protos) ++ pairs names protos.
Proof.
  unfold pairs. rewrite bind_cons. f_equal.
Qed.

Lemma check_server_name_ran i alpn j st names st' names' :
  ran (check_server_name E i alpn) j st names st' names' ->
  names' = idnaToASCII E <$> names /\
  NoDup (pairs names' alpn) /\
  (forall k, k ∈ pairs names' alpn -> flag st.2 k = false) /\
  (forall k, flag st'.2 k = true <-> flag st.2 k = true \/ k ∈ pairs names' alpn) /\
  (forall sn, is_Some (st'.1 !! sn) <-> is_Some (st.1 !! sn) \/ sn ∈ names') /\
  (alpn = [] -> NoDup names' /\ forall sn, sn ∈ names' -> st.1 !! sn = None).
Proof.
  induction 1 as [|j st sn rest st1 sn' st2 rest' Hb _ IH].
  - split; [reflexivity|]. split; [constructor|].
    split; [intros k Hk; inversion Hk|].
    split; [intros k; split; [tauto|intros [?|Hk]; [assumption|inversion Hk]]|].
    split; [intros x; split; [tauto|intros [?|Hk]; [assumption|inversion Hk]]|].
    intros _. split; [constructor|]. intros x Hx. inversion Hx.
  - unfold check_server_name in Hb. cbv zeta in Hb. split_check Hb.
    injection Hb as <- <-.
    match goal with Hr : for_range _ _ _ _ = inl _ |- _ =>
      apply for_range_ran, check_proto_ran in Hr;
      destruct Hr as (_ & Hnd & Hfresh & Hks) end.
    match goal with Hr : match _ !! _ with _ => _ end = inl ?m |- _ =>
      rename Hr into Hsn; rename m into names1 end.
    cbn [fst snd] in *.
    destruct IH as (-> & Hnd' & Hfresh' & Hks' & Hdom' & Hempty').
    assert (Hdom1 : forall x, is_Some (names1 !! x) <->
                              is_Some (st.1 !! x) \/ x = idnaToASCII E sn).
    { intros x. destruct (st.1 !! idnaToASCII E sn) as [k0|] eqn:Hlk.
      - split_check Hsn. injection Hsn as <-. split; [tauto|].
        intros [?| ->]; [assumption|]. rewrite Hlk. eauto.
      - injection Hsn as <-. rewrite lookup_insert_is_Some. split.
        + intros [-> |[_ ?]]; tauto.
        + intros [?| ->]; [|tauto].
          destruct (decide (idnaToASCII E sn = x)); tauto. }
    split; [reflexivity|]. rewrite pairs_cons.
    split; [|split; [|split; [|split]]].
    + apply list.NoDup_app. split; [|split; [|exact Hnd']].
      * apply NoDup_fmap_2; [|exact Hnd]. intros p q [=]. assumption.
      * intros k Hk Hk'. apply list_elem_of_fmap in Hk as (p & -> & Hp).
        specialize (Hfresh' _ Hk').
        rewrite (proj2 (Hks _)) in Hfresh' by (right; eauto). discriminate.
    + intros k Hk. apply elem_of_app in Hk as [Hk|Hk].
      * apply list_elem_of_fmap in Hk as (p & -> & Hp). apply Hfresh, Hp.
      * specialize (Hfresh' _ Hk). destruct (flag st.2 k) eqn:Hf; [|reflexivity].
        rewrite (proj2 (Hks _)) in Hfresh' by (left; exact Hf). discriminate.
    + intros k. rewrite Hks', Hks, elem_of_app, list_elem_of_fmap.
      split.
      * intros [[?|(p & Hp & ->)]|?]; eauto.
      * intros [?|[(p & -> & Hp)|?]]; eauto.
    + intros x. rewrite Hdom', Hdom1, elem_of_cons. tauto.
    + intros ->. destruct (Hempty' eq_refl) as [Hnd0 Hnone].
      assert (Hfirst : st.1 !! idnaToASCII E sn = None).
      { destruct (st.1 !! idnaToASCII E sn); [|reflexivity].
        split_check Hsn. discriminate. }
      split.
      * constructor; [|exact Hnd0]. intros Hin.
        specialize (Hnone _ Hin).
        assert (is_Some (names1 !! idnaToASCII E sn)) as [? Hs]
          by (apply Hdom1; right; reflexivity).
        congruence.
      * intros x Hx. apply elem_of_cons in Hx as [-> |Hx]; [exact Hfirst|].
        specialize (Hnone _ Hx).
        destruct (st.1 !! x) eqn:Hlk; [|reflexivity].
        assert (is_Some (names1 !! x)) as [? Hs] by (apply Hdom1; left; eauto).
        congruence.
Qed.

Lemma offered_cons be backends : offered (be :: backends) = keys be ++ offered backends.
Proof. reflexivity. Qed.

Lemma check_backend_names_ran i st bs st' bs' :
  ran (check_backend_names E) i st bs st' bs' ->
  Forall2 (fun b b' =>
             b' = Backend.set_ServerNames (idnaToASCII E <$> Backend.ServerNames b) b)
          bs bs' /\
  NoDup (offered bs') /\
  (forall k, k ∈ offered bs' -> flag st.2 k = false) /\
  (forall k, flag st'.2 k = true <-> flag st.2 k = true \/ k ∈ offered bs') /\
  (forall sn, is_Some (st'.1 !! sn) <->
              is_Some (st.1 !! sn) \/
              exists b', b' ∈ bs' /\ sn ∈ Backend.ServerNames b') /\
  names_new st.1 bs'.
Proof.
  induction 1 as [|i st b rest st1 b' st2 rest' Hb _ IH].
  - split; [constructor|]. split; [constructor|].
    split; [intros k Hk; inversion Hk|].
    split; [intros k; split; [tauto|intros [?|Hk]; [assumption|inversion Hk]]|].
    split.
    + intros x; split; [tauto|].
      intros [?|(b' & Hin & _)]; [assumption|inversion Hin].
    + intros n bj Hn. discriminate.
  - unfold check_backend_names in Hb. split_check Hb. injection Hb as <- <-.
    match goal with Hr : for_range _ _ _ _ = inl _ |- _ =>
      apply for_range_ran, check_server_name_ran in Hr;
      destruct Hr as (-> & Hnd & Hfresh & Hks & Hdom & Hempty) end.
    destruct IH as (Hall & Hnd' & Hfresh' & Hks' & Hdom' & Hnew').
    set (names' := idnaToASCII E <$> Backend.ServerNames b) in *.
    assert (Hkeys : keys (Backend.set_ServerNames names' b) =
                    pairs names' (default [] (Backend.ALPNProtos b)))
      by reflexivity.
    split; [constructor; [reflexivity|exact Hall]|].
    rewrite offered_cons, Hkeys.
    split; [|split; [|split; [|split]]].
    + apply list.NoDup_app. split; [exact Hnd|]. split; [|exact Hnd'].
      intros k Hk Hk'. specialize (Hfresh' _ Hk').
      rewrite (proj2 (Hks _)) in Hfresh' by (right; exact Hk). discriminate.
    + intros k Hk. apply elem_of_app in Hk as [Hk|Hk]; [apply Hfresh, Hk|].
      specialize (Hfresh' _ Hk). destruct (flag st.2 k) eqn:Hf; [|reflexivity].
      rewrite (proj2 (Hks _)) in Hfresh' by (left; exact Hf). discriminate.
    + intros k. rewrite Hks', Hks, elem_of_app. tauto.
    + intros x. rewrite Hdom', Hdom. split.
      * intros [[?| ?]|(b' & Hin & Hx)].
        -- left. assumption.
        -- right. exists (Backend.set_ServerNames names' b).
           split; [left|assumption].
        -- right. exists b'. split; [right; exact Hin|exact Hx].
      * intros [?|(b' & Hin & Hx)]; [tauto|].
        apply elem_of_cons in Hin as [-> |Hin]; [left; right; exact Hx|].
        right. exists b'. split; assumption.
    + intros [|n] bj Hn Halpn.
      * injection Hn as <-. destruct (Hempty Halpn) as [Hnd0 Hnone].
        split; [exact Hnd0|]. intros sn Hsn. split; [apply Hnone, Hsn|].
        intros m bi Hm. inversion Hm.
      * destruct (Hnew' n bj Hn Halpn) as [Hnd0 Hnone].
        split; [exact Hnd0|]. intros sn Hsn.
        destruct (Hnone sn Hsn) as [Hseen Hearlier].
        assert (Hnot : ~ (is_Some (st.1 !! sn) \/ sn ∈ names')).
        { intros Hor. apply Hdom in Hor as [? Hor]. congruence. }
        split.
        -- destruct (st.1 !! sn) eqn:Hlk; [|reflexivity].
           exfalso. apply Hnot. left. eauto.
        -- intros [|m] bi Hm Hbi.
           ++ injection Hbi as <-. intros Hin. apply Hnot. right. exact Hin.
           ++ apply (Hearlier m bi); [lia|exact Hbi].
Qed.

Lemma same_name_fields_keys b b' : same_name_fields b b' -> keys b' = keys b.
Proof. intros [Hn Ha]. unfold keys. rewrite Hn, Ha. reflexivity. Qed.

Lemma same_name_fields_offered bs bs' :
  Forall2 same_name_fields bs bs' -> offered bs' = offered bs.
Proof.
  induction 1 as [|b b' bs bs' Hb _ IH]; [reflexivity|].
  rewrite !offered_cons, IH, (same_name_fields_keys _ _ Hb). reflexivity.
Qed.

Lemma same_name_fields_names_new seen bs bs' :
  Forall2 same_name_fields bs bs' -> names_new seen bs -> names_new seen bs'.
Proof.
  intros Hall Hnew n bj' Hn Halpn.
  destruct (Forall2_lookup_r _ _ _ _ _ Hall Hn) as (bj & Hj & Hnj & Haj).
  rewrite Haj in Halpn. destruct (Hnew n bj Hj Halpn) as [Hnd Hnone].
  rewrite Hnj. split; [exact Hnd|]. intros sn Hsn.
  destruct (Hnone sn Hsn) as [Hseen Hearlier]. split; [exact Hseen|].
  intros m bi' Hm Hbi'.
  destruct (Forall2_lookup_r _ _ _ _ _ Hall Hbi') as (bi & Hi & Hni & _).
  rewrite Hni. eapply Hearlier; eassumption.
Qed.

(** C1 (amended).  In a configuration that [Check] accepts, no pair of a
    server name and an ALPN protocol is offered twice, by two backends or by
    one; and a backend whose list of ALPN protocols is empty lists no server
    name twice and no server name that a backend before it lists.  The server
    names are the ones that [Check] stored, after the IDNA conversion. *)
Theorem Check_unique_routing (cfg cfg' : Config.t) :
  Check E cfg = inl cfg' ->
  NoDup (offered (Config.Backends cfg')) /\
  forall n bj, Config.Backends cfg' !! n = Some bj ->
    default [] (Backend.ALPNProtos bj) = [] ->
    NoDup (Backend.ServerNames bj) /\
    forall sn m bi, sn ∈ Backend.ServerNames bj -> (m < n)%nat ->
      Config.Backends cfg' !! m = Some bi -> sn ∉ Backend.ServerNames bi.
Proof.
  unfold Check. intros H. cbv zeta in H. split_check H. injection H as <-.
  repeat match goal with
         | Hr : for_range _ _ _ _ = inl _ |- _ => apply for_range_ran in Hr
         end.
  match goal with Hr : ran (check_backend_names E) _ _ _ ?s ?l |- _ =>
    rename Hr into Hnames; rename l into bs2 end.
  match goal with Hr : ran (check_backend E _ _ _) _ _ _ _ ?l |- _ =>
    rename Hr into Hbe; rename l into bs3 end.
  assert (H23 : Forall2 same_name_fields bs2 bs3).
  { eapply ran_Forall2; [|exact Hbe].
    intros i [] x [] y Hb. eapply check_backend_keeps. exact Hb. }
  apply check_backend_names_ran in Hnames as (_ & Hnd & _ & _ & _ & Hnew).
  cbn [Config.set_lists Config.Backends].
  rewrite (same_name_fields_offered _ _ H23). split; [exact Hnd|].
  intros n bj Hn Halpn.
  destruct (same_name_fields_names_new _ _ _ H23 Hnew n bj Hn Halpn) as [Hnd0 Hnone].
  split; [exact Hnd0|]. intros sn m bi Hsn Hm Hbi.
  destruct (Hnone sn Hsn) as [_ Hearlier]. eapply Hearlier; eassumption.
Qed.

End Unique.

End config_facts.

(** * Config.Check on sample configurations *)
Module config_checks.
Import config examples config_facts.

(** The environment [env0] meets the assumptions on the IDNA conversion and
    on [strings.ToUpper]. *)
Lemma ascii_lower_again c : ascii_lower (ascii_lower c) = ascii_lower c.
Proof. destruct c as [[] [] [] [] [] [] [] []]; reflexivity. Qed.

Lemma to_lower_again s : to_lower (to_lower s) = to_lower s.
Proof.
  unfold to_lower. induction s as [|c s IH]; [reflexivity|].
  cbn [string_map]. rewrite ascii_lower_again, IH. reflexivity.
Qed.

Lemma to_upper_modes m : m ∈ validModes -> to_upper m = m.
Proof.
  unfold validModes. intros Hm.
  repeat (apply elem_of_cons in Hm as [-> |Hm]; [reflexivity|]).
  inversion Hm.
Qed.

(** C1, as first stated, fails: a backend whose ALPN list is empty and a
    later backend with [h2] list the same server name, and [Check] accepts
    the configuration and keeps both; in the other order [Check] returns the
    duplicate-name error. *)
Lemma Check_shared_name_accepted :
  exists cfg',
    Check env0 cfg_shared_name = inl cfg' /\
    routes cfg' = [(["a.test"], Some []); (["a.test"], Some ["h2"])] /\
    Check env0 cfg_shared_name_swapped =
      inr (fmt_Errorf "backend[%d].ServerNames: duplicate server name %q"
             [AInt 1; AStr "a.test"]).
Proof.
  exists (accepted cfg_shared_name (Check env0 cfg_shared_name)).
  split; [vm_compute; reflexivity|]. split; vm_compute; reflexivity.
Qed.

Lemma Check_unique_routing_witness :
  exists cfg',
    Check env0 cfg_shared_name = inl cfg' /\
    NoDup (offered (Config.Backends cfg')) /\
    forall n bj, Config.Backends cfg' !! n = Some bj ->
      default [] (Backend.ALPNProtos bj) = [] ->
      NoDup (Backend.ServerNames bj) /\
      forall sn m bi, sn ∈ Backend.ServerNames bj -> (m < n)%nat ->
        Config.Backends cfg' !! m = Some bi -> sn ∉ Backend.ServerNames bi.
Proof.
  exists (accepted cfg_shared_name (Check env0 cfg_shared_name)).
  split; [vm_compute; reflexivity|].
  apply (Check_unique_routing env0 cfg_shared_name).
  vm_compute; reflexivity.
Defined.

(** C7.  [validateProxyProtoVersion] maps the empty string, [v1] and [v2] to
    0, 1 and 2 and rejects a string that does not start with [v]; but it also
    returns a version, and no error, for [v3], [v0], [v+7], [v127] and [v-1]
    (the byte 255), and [Check] accepts a backend whose
    ProxyProtocolVersion is [v3] and stores the version 3. *)
Theorem validateProxyProtoVersion_beyond_v2 :
  validateProxyProtoVersion "" = inl 0%Z /\
  validateProxyProtoVersion "v1" = inl 1%Z /\
  validateProxyProtoVersion "v2" = inl 2%Z /\
  validateProxyProtoVersion "2" =
    inr (fmt_Errorf "invalid value %q, expected v1 or v2" [AStr "2"]) /\
  validateProxyProtoVersion "v3" = inl 3%Z /\
  validateProxyProtoVersion "v0" = inl 0%Z /\
  validateProxyProtoVersion "v+7" = inl 7%Z /\
  validateProxyProtoVersion "v127" = inl 127%Z /\
  validateProxyProtoVersion "v-1" = inl 255%Z /\
  exists cfg',
    Check env0 cfg_proxy_v3 = inl cfg' /\
    Backend.proxyProtocolVersion <$> Config.Backends cfg' = [3%Z].
Proof.
  repeat (split; [vm_compute; reflexivity|]).
  exists (accepted cfg_proxy_v3 (Check env0 cfg_proxy_v3)).
  split; vm_compute; reflexivity.
Qed.

Lemma Check_again_witness :
  exists cfg',
    Check env0 cfg_sample = inl cfg' /\ Check env0 cfg' = inl cfg'.
Proof.
  exists (accepted cfg_sample (Check env0 cfg_sample)).
  split; [vm_compute; reflexivity|].
  apply (Check_again env0 to_lower_again to_upper_modes cfg_sample).
  vm_compute; reflexivity.
Defined.

End config_checks.

(** * More of internal/proxy.go *)
Module internal_more.
Import internal internal_facts.

Section More.

Variable W : World.

(** ** Reconfigure, when loading certificates fails *)

Lemma Reconfigure_unfold c' s :
  yaml_Marshal W (heap s) (cfg (px s)) <> yaml_Marshal W (heap s) (Some c') ->
  Reconfigure W (Some c') s =
    let s1 := {| heap := heap s; px := px s;
                 trace := trace s ++
                   (if cfg (px s) is Some _ then [ELog "INFO Configuration changed"]
                    else []) |} in
    match Reconfigure_loop W (Backends c') ∅ s1 with
    | Returns (inr err) s2 => Returns (Some err) s2
    | Returns (inl mapping') s2 =>
        Returns None
          {| heap := heap s2;
             px := {| cfg := Some c'; mapping := mapping';
                      numOpen := numOpen (px s) |};
             trace := trace s2 |}
    | Panics => Panics
    | Diverges => Diverges
    end.
Proof.
  intros Hne. unfold Reconfigure.
  rewrite (bind_run get_proxy _ s (px s) s eq_refl).
  rewrite (bind_run get_heap _ s (heap s) s eq_refl).
  rewrite bool_decide_eq_false_2 by exact Hne.
  cbv zeta. unfold bind at 1.
  assert (Hlog : (if cfg (px s) is Some _
                  then log_Printf "INFO Configuration changed" else ret tt) s =
                 Returns tt
                   {| heap := heap s; px := px s;
                      trace := trace s ++
                        (if cfg (px s) is Some _
                         then [ELog "INFO Configuration changed"] else []) |}).
  { destruct (cfg (px s)); [reflexivity|].
    unfold ret. rewrite app_nil_r, state_eta. reflexivity. }
  rewrite Hlog. unfold bind at 1.
  destruct (Reconfigure_loop W (Backends c') ∅ _) as [[m|err] s2| |];
    reflexivity.
Qed.

Lemma Reconfigure_failed_run c' s s' err :
  (forall l, l ∈ Backends c' -> is_Some (heap s !! l)) ->
  Reconfigure W (Some c') s = Returns (Some err) s' ->
  px s' = px s /\
  heap_stable (heap s) (heap s') /\
  trace s' = trace s ++ (if cfg (px s) is Some _
                         then [ELog "INFO Configuration changed"] else []).
Proof.
  intros Hbes Hrun.
  destruct (decide (yaml_Marshal W (heap s) (cfg (px s)) =
                    yaml_Marshal W (heap s) (Some c'))) as [Heq|Hne].
  { rewrite (Reconfigure_noop W _ _ Heq) in Hrun. discriminate. }
  rewrite (Reconfigure_unfold _ _ Hne) in Hrun. cbv zeta in Hrun.
  match type of Hrun with
  | context [Reconfigure_loop W _ _ ?s1] =>
      destruct (Reconfigure_loop_run W (Backends c') ∅ s1 Hbes)
        as (r & h' & Hloop & Hst & _)
  end.
  rewrite Hloop in Hrun. destruct r as [m|e]; [discriminate|].
  injection Hrun as <- <-. cbn [heap px trace] in *.
  split; [reflexivity|]. split; [exact Hst|reflexivity].
Qed.

(** X1.  A call of [Reconfigure] that returns an error (a certificate could
    not be loaded) leaves the installed configuration, the routing table and
    the counter of open connections as they were, so [backend] resolves every
    name as before; the server names, addresses and cursors of all backends
    are unchanged; and the line [INFO Configuration changed] has been logged
    all the same when a configuration was installed. *)
Theorem Reconfigure_failure_keeps_routing (c' : Config) (s s' : state) (err : error) :
  (forall l, l ∈ Backends c' -> is_Some (heap s !! l)) ->
  Reconfigure W (Some c') s = Returns (Some err) s' ->
  px s' = px s /\
  heap_stable (heap s) (heap s') /\
  trace s' = trace s ++ (if cfg (px s) is Some _
                         then [ELog "INFO Configuration changed"] else []) /\
  forall sni, exists r, backend sni s = Returns r s /\ backend sni s' = Returns r s'.
Proof.
  intros Hbes Hrun.
  destruct (Reconfigure_failed_run _ _ _ _ Hbes Hrun)
    as (Hpx & Hst & Ht).
  split; [exact Hpx|]. split; [exact Hst|]. split; [exact Ht|].
  intros sni. unfold backend, bind, get_proxy, ret. rewrite Hpx.
  destruct (mapping (px s) !! sni); eexists; split; reflexivity.
Qed.

(** ** Reconfigure, the routing table it builds *)

Lemma add_names_last nm bes m sn :
  foldl (add_names nm) m bes !! sn =
    match list.last (filter (fun l => sn ∈ nm l) bes) with
    | Some l => Some l
    | None => m !! sn
    end.
Proof.
  induction bes as [|x bes IH] using rev_ind; [reflexivity|].
  rewrite foldl_app. cbn [foldl]. unfold add_names at 1.
  rewrite foldl_insert_lookup, list.filter_app, list.filter_cons, list.filter_nil.
  destruct (decide (sn ∈ nm x)) as [Hin|Hnin].
  - rewrite last_snoc. reflexivity.
  - rewrite app_nil_r. exact IH.
Qed.

Lemma names_of_insert h l be be' l0 :
  h !! l = Some be -> ServerNames be' = ServerNames be ->
  names_of (<[l := be']> h) l0 = names_of h l0.
Proof.
  intros Hl Hn. unfold names_of. destruct (decide (l0 = l)) as [->|Hne].
  - rewrite lookup_insert_eq, Hl. exact Hn.
  - rewrite lookup_insert_ne by congruence. reflexivity.
Qed.

Lemma Reconfigure_loop_mapping nm bes :
  forall m s m' s',
    (forall l, l ∈ bes -> is_Some (heap s !! l)) ->
    (forall l, names_of (heap s) l = nm l) ->
    Reconfigure_loop W bes m s = Returns (inl m') s' ->
    m' = foldl (add_names nm) m bes.
Proof.
  induction bes as [|l rest IH]; intros m s m' s' Hbes Hnm Hrun.
  - cbn in Hrun. injection Hrun as <- _. reflexivity.
  - destruct (Hbes l) as [be Hl]; [left|].
    destruct (Reconfigure_backend_run W l m s be Hl) as (r1 & be' & Hrun1 & Hst & Hm1).
    cbn [Reconfigure_loop] in Hrun. unfold bind at 1 in Hrun. rewrite Hrun1 in Hrun.
    destruct r1 as [m1|err]; [|discriminate].
    specialize (Hm1 m1 eq_refl). cbn [foldl].
    assert (Hm1' : m1 = add_names nm m l).
    { unfold add_names. rewrite <- Hnm. unfold names_of. rewrite Hl. exact Hm1. }
    rewrite <- Hm1'. eapply IH; [| |exact Hrun].
    + intros l' Hin. cbn [heap]. apply lookup_insert_is_Some'.
      right. apply Hbes. right. exact Hin.
    + intros l0. cbn [heap]. rewrite <- Hnm.
      eapply names_of_insert; [exact Hl|]. destruct Hst as (HS & _). exact HS.
Qed.

(** X2.  After [Reconfigure] installed a configuration, the routing table
    maps a server name to the last backend of the configuration that lists
    it: a backend later in [cfg.Backends] takes over the names it shares with
    earlier ones, and [backend] answers accordingly. *)
Theorem Reconfigure_last_backend_wins (c' : Config) (s s' : state) (sni : string) :
  (forall l, l ∈ Backends c' -> is_Some (heap s !! l)) ->
  yaml_Marshal W (heap s) (cfg (px s)) <> yaml_Marshal W (heap s) (Some c') ->
  Reconfigure W (Some c') s = Returns None s' ->
  mapping (px s') !! sni =
    list.last (filter (fun l => sni ∈ names_of (heap s) l) (Backends c')) /\
  backend sni s' =
    Returns (match list.last (filter (fun l => sni ∈ names_of (heap s) l) (Backends c')) with
             | Some l => inl l
             | None => inr (fmt_Errorf "unexpected SNI: %q" [AStr sni])
             end) s'.
Proof.
  intros Hbes Hne Hrun.
  rewrite (Reconfigure_unfold _ _ Hne) in Hrun. cbv zeta in Hrun.
  match type of Hrun with
  | context [Reconfigure_loop W _ _ ?s1] =>
      destruct (Reconfigure_loop W (Backends c') ∅ s1) as [[m|e] s2| |] eqn:Hloop;
        try discriminate
  end.
  apply (Reconfigure_loop_mapping (names_of (heap s))) in Hloop;
    [|exact Hbes|reflexivity].
  injection Hrun as <-. cbn [px mapping].
  assert (Hm : m !! sni =
               list.last (filter (fun l => sni ∈ names_of (heap s) l) (Backends c'))).
  { rewrite Hloop, add_names_last. rewrite lookup_empty.
    destruct (list.last _); reflexivity. }
  split; [exact Hm|].
  unfold backend, bind, get_proxy, ret. cbn [px mapping]. rewrite Hm.
  destruct (list.last _); reflexivity.
Qed.

(** ** Reconfigure, the TLS values it stores in the backends *)

Lemma kept_refl be : kept be be.
Proof. repeat split. Qed.

Lemma kept_trans be1 be2 be3 : kept be1 be2 -> kept be2 be3 -> kept be1 be3.
Proof.
  unfold kept. intros H12 H23.
  destruct H12 as (A1 & A2 & A3 & A4 & A5 & A6 & A7 & A8 & A9 & A10 & A11 & A12).
  destruct H23 as (B1 & B2 & B3 & B4 & B5 & B6 & B7 & B8 & B9 & B10 & B11 & B12).
  repeat split; try congruence.
  - intros Hca. rewrite B11 by congruence. auto.
  - intros Hf. rewrite B12 by congruence. auto.
Qed.

Lemma loaded_kept be0 be be' : kept be0 be -> loaded W be be' -> loaded W be0 be'.
Proof.
  unfold kept, loaded.
  intros (A1 & A2 & A3 & A4 & _) [Hc Hf]. rewrite A2, A3, A4 in *. auto.
Qed.

Lemma Reconfigure_backend_tls l m s be :
  heap s !! l = Some be ->
  exists r be',
    Reconfigure_backend W l m s =
      Returns r {| heap := <[l := be']> (heap s); px := px s; trace := trace s |}
    /\ kept be be'
    /\ (forall m', r = inl m' -> loaded W be be').
Proof.
  intros Hl.
  assert (Hid : forall t : list event,
             {| heap := <[l := be]> (heap s); px := px s; trace := t |} =
             {| heap := heap s; px := px s; trace := t |}).
  { intros t. rewrite insert_id by exact Hl. reflexivity. }
  unfold Reconfigure_backend, bind at 1, deref. rewrite Hl.
  unfold kept, loaded.
  destruct (ClientAuth be) eqn:Hca.
  - destruct (bool_decide (ClientCAs be = "")) eqn:Hcas.
    + unfold bind at 1. unfold bind at 1. unfold assign at 1, ret at 1.
      destruct (bool_decide (ForwardRootCAs be = "")) eqn:Hf.
      * eexists _, _. split; [reflexivity|]. cbn.
        split; [repeat split; congruence|].
        intros m' _. split.
        -- intros _. eexists. split; [reflexivity|]. cbn. auto.
        -- intros Hne. apply bool_decide_eq_true_1 in Hf. contradiction.
      * destruct (loadCerts W (ForwardRootCAs be)) as [c|err] eqn:Hload.
        -- unfold bind, deref, assign, ret. cbn [heap px trace].
           rewrite lookup_insert_eq. cbn [heap px trace].
           rewrite insert_insert_eq.
           eexists _, _. split; [reflexivity|]. cbn.
           split.
           { repeat split; try congruence. intros Hf'. rewrite Hf' in Hf.
             discriminate. }
           intros m' _. split.
           ++ intros _. eexists. split; [reflexivity|]. cbn. auto.
           ++ intros _. eauto.
        -- eexists _, _. split; [reflexivity|]. cbn.
           split; [repeat split; congruence|]. intros m' [=].
    + destruct (loadCerts W (ClientCAs be)) as [c|err] eqn:Hload1.
      * unfold bind at 1. unfold bind at 1. unfold assign at 1, ret at 1.
        destruct (bool_decide (ForwardRootCAs be = "")) eqn:Hf.
        -- eexists _, _. split; [reflexivity|]. cbn.
           split; [repeat split; congruence|].
           intros m' _. split.
           ++ intros _. eexists. split; [reflexivity|]. cbn. eauto.
           ++ intros Hne. apply bool_decide_eq_true_1 in Hf. contradiction.
        -- destruct (loadCerts W (ForwardRootCAs be)) as [c2|err] eqn:Hload2.
           ++ unfold bind, deref, assign, ret. cbn [heap px trace].
              rewrite lookup_insert_eq. cbn [heap px trace].
              rewrite insert_insert_eq.
              eexists _, _. split; [reflexivity|]. cbn.
              split.
              { repeat split; try congruence. intros Hf'. rewrite Hf' in Hf.
                discriminate. }
              intros m' _. split.
              ** intros _. eexists. split; [reflexivity|]. cbn. eauto.
              ** intros _. eauto.
           ++ eexists _, _. split; [reflexivity|]. cbn.
              split; [repeat split; congruence|]. intros m' [=].
      * unfold bind, ret. exists (inr err), be. rewrite Hid, state_eta.
        split; [reflexivity|]. split; [repeat split; congruence|]. intros m' [=].
  - unfold bind at 1, ret at 1.
    destruct (bool_decide (ForwardRootCAs be = "")) eqn:Hf.
    + eexists _, be. rewrite Hid, state_eta. split; [reflexivity|].
      split; [repeat split; congruence|]. intros m' _. split; [congruence|].
      intros Hne. apply bool_decide_eq_true_1 in Hf. contradiction.
    + destruct (loadCerts W (ForwardRootCAs be)) as [c2|err] eqn:Hload2.
      * unfold bind, deref, assign, ret. rewrite Hl. cbn [heap px trace].
        eexists _, _. split; [reflexivity|]. cbn.
        split.
        { repeat split; try congruence. intros Hf'. rewrite Hf' in Hf.
          discriminate. }
        intros m' _. split; [congruence|]. intros _. eauto.
      * eexists _, be. rewrite Hid, state_eta. split; [reflexivity|].
        split; [repeat split; congruence|]. intros m' [=].
Qed.

Lemma Reconfigure_loop_tls bes :
  forall m s m' s',
    (forall l, l ∈ bes -> is_Some (heap s !! l)) ->
    Reconfigure_loop W bes m s = Returns (inl m') s' ->
    forall l,
      match heap s !! l with
      | Some be =>
          exists be', heap s' !! l = Some be' /\ kept be be' /\
                      (l ∈ bes -> loaded W be be') /\ (l ∉ bes -> be' = be)
      | None => heap s' !! l = None
      end.
Proof.
  induction bes as [|l rest IH]; intros m s m' s' Hbes Hrun l0.
  - cbn in Hrun. injection Hrun as _ <-.
    destruct (heap s !! l0) as [be|]; [|reflexivity].
    exists be. split; [reflexivity|]. split; [apply kept_refl|].
    split; [intros Hin; inversion Hin|reflexivity].
  - destruct (Hbes l) as [be Hl]; [left|].
    destruct (Reconfigure_backend_tls l m s be Hl) as (r1 & be1 & Hrun1 & Hk1 & Hld1).
    cbn [Reconfigure_loop] in Hrun. unfold bind at 1 in Hrun. rewrite Hrun1 in Hrun.
    destruct r1 as [m1|err]; [|discriminate].
    specialize (Hld1 m1 eq_refl).
    match type of Hrun with
    | Reconfigure_loop W rest m1 ?s1 = _ =>
        assert (Hbes1 : forall l', l' ∈ rest -> is_Some (heap s1 !! l'))
    end.
    { intros l' Hin. cbn [heap]. apply lookup_insert_is_Some'.
      right. apply Hbes. right. exact Hin. }
    pose proof (IH _ _ _ _ Hbes1 Hrun l0) as Hl0. cbn [heap] in Hl0.
    destruct (decide (l0 = l)) as [->|Hne].
    + rewrite lookup_insert_eq in Hl0. rewrite Hl.
      destruct Hl0 as (be' & Hbe' & Hk & Hin & Hout).
      exists be'. split; [exact Hbe'|].
      split; [eapply kept_trans; eassumption|].
      split; [|intros Hnin; exfalso; apply Hnin; left].
      intros _. destruct (decide (l ∈ rest)) as [Hr|Hr].
      * eapply loaded_kept; [exact Hk1|]. apply Hin, Hr.
      * rewrite (Hout Hr). exact Hld1.
    + rewrite lookup_insert_ne in Hl0 by congruence.
      destruct (heap s !! l0) as [be0|]; [|exact Hl0].
      destruct Hl0 as (be' & Hbe' & Hk & Hin & Hout).
      exists be'. split; [exact Hbe'|]. split; [exact Hk|].
      split.
      * intros Hc. apply Hin. apply elem_of_cons in Hc as [?|?]; congruence.
      * intros Hc. apply Hout. intros Hr. apply Hc. right. exact Hr.
Qed.

(** X3.  After [Reconfigure] installed a configuration, every backend of
    the configuration that sets [ClientAuth] holds a TLS configuration that
    requires and verifies a client certificate, against the pool loaded from
    [ClientCAs] when that is set; every backend that sets [ForwardRootCAs]
    holds the pool loaded from it; the other settings of all backends are as
    before, and a backend that is not part of the configuration is not
    touched. *)
Theorem Reconfigure_loads_tls (c' : Config) (s s' : state) (l : loc) (be : Backend) :
  (forall l, l ∈ Backends c' -> is_Some (heap s !! l)) ->
  yaml_Marshal W (heap s) (cfg (px s)) <> yaml_Marshal W (heap s) (Some c') ->
  Reconfigure W (Some c') s = Returns None s' ->
  heap s !! l = Some be ->
  exists be',
    heap s' !! l = Some be' /\ kept be be' /\
    (l ∈ Backends c' -> loaded W be be') /\
    (l ∉ Backends c' -> be' = be).
Proof.
  intros Hbes Hne Hrun Hl.
  rewrite (Reconfigure_unfold _ _ Hne) in Hrun. cbv zeta in Hrun.
  match type of Hrun with
  | context [Reconfigure_loop W _ _ ?s1] =>
      destruct (Reconfigure_loop W (Backends c') ∅ s1) as [[m|e] s2| |] eqn:Hloop;
        try discriminate
  end.
  eapply Reconfigure_loop_tls with (l := l) in Hloop; [|exact Hbes].
  rename Hloop into H.
  cbn [heap] in H. rewrite Hl in H.
  injection Hrun as <-. cbn [heap]. exact H.
Qed.

(** ** New *)

Lemma handleConnection_unconfigured fuel peer netConn s :
  cfg (px s) = None -> handleConnection W fuel peer netConn s = Panics.
Proof.
  intros Hcfg. unfold handleConnection.
  rewrite (bind_run _ _ _ _ _ (incNumOpen_run 1 s)).
  unfold bind at 1. unfold handleConnection_body.
  rewrite (bind_run get_proxy _ _ _ _ eq_refl). cbn [px cfg]. rewrite Hcfg.
  reflexivity.
Qed.

(** X4.  [New] returns a proxy and a [nil] error whatever [Reconfigure]
    answers: when [Reconfigure] fails (a certificate could not be loaded) the
    error is lost, the proxy that [New] hands out has no configuration and an
    empty routing table, and [handleConnection] on it panics on
    [p.cfg.MaxOpen]. *)
Theorem New_drops_error (c : Config) (s : state) :
  (forall l, l ∈ Backends c -> is_Some (heap s !! l)) ->
  exists s',
    New W (Some c) s = Returns None s' /\
    forall err s1,
      Reconfigure W (Some c)
        {| heap := heap s; px := {| cfg := None; mapping := ∅; numOpen := 0 |};
           trace := trace s |} = Returns (Some err) s1 ->
      s' = s1 /\
      px s' = {| cfg := None; mapping := ∅; numOpen := 0 |} /\
      forall fuel peer netConn, handleConnection W fuel peer netConn s' = Panics.
Proof.
  intros Hbes. unfold New.
  set (s0 := {| heap := heap s; px := {| cfg := None; mapping := ∅; numOpen := 0 |};
                trace := trace s |}).
  destruct (Reconfigure_run W c s0 Hbes) as (r & s' & evs & Hrun & _).
  exists s'. split.
  - unfold bind at 1, put_proxy. fold s0. unfold bind at 1. rewrite Hrun.
    reflexivity.
  - intros err s1 Hfail. rewrite Hrun in Hfail. injection Hfail as -> <-.
    split; [reflexivity|].
    destruct (Reconfigure_failed_run c s0 s' err Hbes Hrun)
      as [Hpx _].
    split; [exact Hpx|]. intros fuel peer netConn.
    apply handleConnection_unconfigured. rewrite Hpx. reflexivity.
Qed.

(** ** dial, call after call *)



(** ** handleConnection, when the handshake fails *)

Lemma HandshakeContext_fails peer c s :
  mapping_ok (heap s) (mapping (px s)) ->
  (exists err, clientHello peer = inr err) \/
  (exists err, handshakeRest peer = Some err) ->
  exists err,
    HandshakeContext peer c s =
      Returns (Some err)
        {| heap := heap s; px := px s; trace := trace s ++ [EHandshake c] |}.
Proof.
  intros Hm Hfail. unfold HandshakeContext, bind at 1, emit.
  destruct (clientHello peer) as [sni|err] eqn:Hh.
  - unfold GetConfigForClient, backend, bind, get_proxy, ret, deref. cbn [px heap].
    destruct (mapping (px s) !! sni) as [l|] eqn:Hl.
    + destruct (Hm sni l Hl) as [be Hbe]. cbn [heap]. rewrite Hbe.
      destruct Hfail as [[e He]|[e He]]; [discriminate|].
      rewrite He. eauto.
    + eauto.
  - eauto.
Qed.

(** X6.  When the TLS handshake fails, because no ClientHello could be
    read or because the handshake broke off later (no acceptable client
    certificate, say), [handleConnection] logs the error, closes the client
    connection and gives the slot back; it resolves no backend, dials no
    address, forwards nothing, and leaves the proxy and the backends as they
    were. *)
Theorem handleConnection_handshake_failure (fuel : nat) (peer : Peer)
    (netConn : Conn) (s : state) (c : Config) :
  cfg (px s) = Some c -> (numOpen (px s) + 1 < MaxOpen c)%Z ->
  mapping_ok (heap s) (mapping (px s)) ->
  (exists err, clientHello peer = inr err) \/
  (exists err, handshakeRest peer = Some err) ->
  handleConnection W fuel peer netConn s =
    Returns tt
      {| heap := heap s; px := px s;
         trace := trace s ++ ENumOpen 1 :: keepalive_events netConn
                    ++ [EHandshake (TLSConn netConn); ELog "ERR %s: %v";
                        EClose (TLSConn netConn); ENumOpen (-1)] |}.
Proof.
  intros Hcfg Hroom Hm Hfail. unfold handleConnection.
  rewrite (bind_run _ _ _ _ _ (incNumOpen_run 1 s)).
  match goal with |- bind _ _ ?st = _ => set (s1 := st) end.
  assert (Hbody : handleConnection_body W fuel peer (TLSConn netConn)
                    (numOpen (px s) + 1)%Z s1 =
                  Returns tt
                    {| heap := heap s1; px := px s1;
                       trace := trace s1 ++ keepalive_events netConn
                                  ++ [EHandshake (TLSConn netConn);
                                      ELog "ERR %s: %v"] |}).
  { unfold handleConnection_body.
    rewrite (bind_run get_proxy _ s1 (px s1) s1 eq_refl).
    subst s1. cbn [px cfg]. rewrite Hcfg.
    destruct (Z.leb_spec (MaxOpen c) (numOpen (px s) + 1)) as [Hle|_]; [lia|].
    rewrite (bind_run _ _ _ _ _ (setKeepAlive_run netConn _)).
    match goal with |- bind _ _ ?st = _ =>
      destruct (HandshakeContext_fails peer (TLSConn netConn) st) as [err Hhs];
        [exact Hm|exact Hfail|]
    end.
    rewrite (bind_run _ _ _ _ _ Hhs). cbn [heap px trace].
    unfold log_Printf, emit. cbn [heap px trace].
    rewrite <- !app_assoc. reflexivity. }
  rewrite (bind_run _ _ _ _ _ Hbody).
  unfold bind at 1, emit at 1. rewrite bind_run with (1 := incNumOpen_run _ _).
  unfold ret. subst s1. cbn [heap px trace cfg mapping numOpen].
  f_equal. f_equal.
  - apply proxy_eta. lia.
  - rewrite <- !app_assoc. reflexivity.
Qed.

(** ** handleConnection, when the handshake succeeds *)







End More.

End internal_more.

(** ** The theorems above at sample inputs *)
Module internal_more_checks.
Import internal examples internal_facts internal_checks internal_more.

Lemma c_auth_backends l : l ∈ Backends c_auth -> is_Some (heap s_auth !! l).
Proof.
  intros Hl. cbn [Backends c_auth] in Hl.
  apply elem_of_cons in Hl as [-> |Hl]; [exists be3; reflexivity|].
  apply elem_of_cons in Hl as [-> |Hl]; [exists be_auth; reflexivity|].
  inversion Hl.
Qed.

Lemma Reconfigure_failure_keeps_routing_witness :
  Reconfigure W0 (Some c_auth) s_auth =
    Returns (Some (lib_error "no such file or directory"))
      {| heap := heap s_auth; px := px (s3 0);
         trace := [ELog "INFO Configuration changed"] |} /\
  forall sni, exists r,
    backend sni s_auth = Returns r s_auth /\
    backend sni {| heap := heap s_auth; px := px (s3 0);
                   trace := [ELog "INFO Configuration changed"] |} =
      Returns r {| heap := heap s_auth; px := px (s3 0);
                   trace := [ELog "INFO Configuration changed"] |}.
Proof.
  assert (Hrun : Reconfigure W0 (Some c_auth) s_auth =
                 Returns (Some (lib_error "no such file or directory"))
                   {| heap := heap s_auth; px := px (s3 0);
                      trace := [ELog "INFO Configuration changed"] |})
    by (vm_compute; reflexivity).
  split; [exact Hrun|].
  apply (Reconfigure_failure_keeps_routing W0 c_auth s_auth _ _ c_auth_backends Hrun).
Defined.

Lemma c_dup_backends l : l ∈ Backends c_dup -> is_Some (heap s_dup !! l).
Proof.
  intros Hl. cbn [Backends c_dup] in Hl.
  apply elem_of_cons in Hl as [-> |Hl]; [exists be3; reflexivity|].
  apply elem_of_cons in Hl as [-> |Hl]; [exists be5; reflexivity|].
  inversion Hl.
Qed.

Lemma Reconfigure_last_backend_wins_witness :
  list.last (filter (fun l => "example.com" ∈ names_of (heap s_dup) l)
               (Backends c_dup)) = Some 3%positive /\
  mapping (px (final (Reconfigure W0 (Some c_dup) s_dup) s_dup)) !! "example.com" =
    Some 3%positive.
Proof.
  assert (Hlast : list.last (filter (fun l => "example.com" ∈ names_of (heap s_dup) l)
                               (Backends c_dup)) = Some 3%positive)
    by (vm_compute; reflexivity).
  split; [exact Hlast|]. rewrite <- Hlast.
  apply (Reconfigure_last_backend_wins W0 c_dup s_dup _ "example.com" c_dup_backends).
  - vm_compute. discriminate.
  - vm_compute. reflexivity.
Defined.

Lemma c_pem_backends l : l ∈ Backends c_pem -> is_Some (heap s_pem !! l).
Proof.
  intros Hl. cbn [Backends c_pem] in Hl.
  apply elem_of_cons in Hl as [-> |Hl]; [exists be_pem; reflexivity|].
  inversion Hl.
Qed.

Lemma Reconfigure_loads_tls_witness :
  exists be',
    heap (final (Reconfigure W0 (Some c_pem) s_pem) s_pem) !! 4%positive = Some be' /\
    kept be_pem be' /\
    (4%positive ∈ Backends c_pem -> loaded W0 be_pem be') /\
    (4%positive ∉ Backends c_pem -> be' = be_pem).
Proof.
  apply (Reconfigure_loads_tls W0 c_pem s_pem _ 4%positive be_pem c_pem_backends).
  - vm_compute. discriminate.
  - vm_compute. reflexivity.
  - reflexivity.
Defined.

Lemma New_drops_error_witness :
  exists s',
    New W0 (Some c_auth) s_auth = Returns None s' /\
    forall err s1,
      Reconfigure W0 (Some c_auth)
        {| heap := heap s_auth;
           px := {| cfg := None; mapping := ∅; numOpen := 0 |};
           trace := trace s_auth |} = Returns (Some err) s1 ->
      s' = s1 /\
      px s' = {| cfg := None; mapping := ∅; numOpen := 0 |} /\
      forall fuel peer netConn, handleConnection W0 fuel peer netConn s' = Panics.
Proof. apply (New_drops_error W0 c_auth s_auth c_auth_backends). Defined.

(** [New] with a configuration whose certificates cannot be read. *)
Example New_without_certificates :
  New W0 (Some c_auth) s_auth =
    Returns None
      {| heap := heap s_auth;
         px := {| cfg := None; mapping := ∅; numOpen := 0 |};
         trace := [] |} /\
  handleConnection W0 3 peer3 (TCPConn 9)
    {| heap := heap s_auth;
       px := {| cfg := None; mapping := ∅; numOpen := 0 |};
       trace := [] |} = Panics.
Proof. split; vm_compute; reflexivity. Qed.


Lemma handleConnection_handshake_failure_witness :
  handleConnection W0 3 peer_eof (TCPConn 9) (s3 0) =
    Returns tt
      {| heap := heap (s3 0); px := px (s3 0);
         trace := [ENumOpen 1; ESetKeepAlive (TCPConn 9);
                   EHandshake (TLSConn (TCPConn 9)); ELog "ERR %s: %v";
                   EClose (TLSConn (TCPConn 9)); ENumOpen (-1)] |}.
Proof.
  apply (handleConnection_handshake_failure W0 3 peer_eof (TCPConn 9) (s3 0) c3
           eq_refl).
  - simpl. lia.
  - apply (s3_wf 0).
  - left. exists (lib_error "EOF"). reflexivity.
Defined.


End internal_more_checks.

(** * More of Config.Check *)
Module config_more.
Import config config_facts.

(** ** Loops, element by element *)
Section LoopsMore.

Context {S A : Type}.
Implicit Types body : nat -> S -> A -> (S * A) + error.

(** The iteration that produced the element at position [k]: it ran after
    the loop over the first [k] elements. *)
Lemma ran_lookup body j s l s' l' k y :
  ran body j s l s' l' -> l' !! k = Some y ->
  exists x sk sk',
    l !! k = Some x /\
    ran body j s (take k l) sk (take k l') /\
    body (j + k)%nat sk x = inl (sk', y).
Proof.
  intros Hran. revert k.
  induction Hran as [|j s x rest s1 x' s2 rest' Hb _ IH]; intros k Hk.
  - rewrite lookup_nil in Hk. discriminate.
  - destruct k as [|k]; cbn in Hk.
    + injection Hk as <-. exists x, s, s1.
      split; [reflexivity|]. split; [constructor|].
      rewrite Nat.add_0_r. exact Hb.
    + destruct (IH k Hk) as (x0 & sk & sk' & Hx & Hpre & Hbk).
      exists x0, sk, sk'. split; [exact Hx|]. split.
      * cbn [take]. econstructor; [exact Hb|exact Hpre].
      * replace (j + Datatypes.S k)%nat with (Datatypes.S j + k)%nat by lia.
        exact Hbk.
Qed.

(** Every element of a loop that ran to the end passed the body. *)
Lemma ran_elem body j s l s' l' x :
  ran body j s l s' l' -> x ∈ l ->
  exists i st st' y, body i st x = inl (st', y).
Proof.
  induction 1 as [|j s x0 rest s1 x' s2 rest' Hb _ IH]; intros Hx.
  - inversion Hx.
  - apply elem_of_cons in Hx as [-> |Hx]; eauto.
Qed.

(** A loop that refuses a name it has seen and records every name. *)
Lemma ran_unique body (name : A -> string) (proj : S -> gmap string bool)
    j s l s' l' :
  (forall i st x st' y, body i st x = inl (st', y) ->
     flag (proj st) (name x) = false /\
     proj st' = <[name x := true]> (proj st) /\ name y = name x) ->
  ran body j s l s' l' ->
  NoDup (name <$> l) /\
  name <$> l' = name <$> l /\
  (forall n, n ∈ name <$> l -> flag (proj s) n = false) /\
  (forall n, flag (proj s') n = true <-> flag (proj s) n = true \/ n ∈ name <$> l) /\
  (forall n, is_Some (proj s' !! n) <-> is_Some (proj s !! n) \/ n ∈ name <$> l).
Proof.
  intros Hbody.
  induction 1 as [|j s x rest s1 x' s2 rest' Hb _ IH].
  - split; [constructor|]. split; [reflexivity|].
    split; [intros n Hn; inversion Hn|].
    split; intros n; (split; [tauto|intros [?|Hn]; [assumption|inversion Hn]]).
  - destruct (Hbody _ _ _ _ _ Hb) as (Hnew & Hins & Hname).
    destruct IH as (Hnd & Hnames & Hfresh & Hflag & Hdom).
    rewrite !fmap_cons.
    assert (Hflag1 : forall n, flag (proj s1) n = true <->
                               name x = n \/ flag (proj s) n = true).
    { intros n. rewrite Hins. apply flag_insert. }
    split; [|split; [|split; [|split]]].
    + constructor; [|exact Hnd]. intros Hin. specialize (Hfresh _ Hin).
      rewrite (proj2 (Hflag1 _)) in Hfresh by (left; reflexivity). discriminate.
    + rewrite Hname, Hnames. reflexivity.
    + intros n Hn. apply elem_of_cons in Hn as [-> |Hn]; [exact Hnew|].
      specialize (Hfresh _ Hn). destruct (flag (proj s) n) eqn:Hf; [|reflexivity].
      rewrite (proj2 (Hflag1 _)) in Hfresh by (right; exact Hf). discriminate.
    + intros n. rewrite Hflag, Hflag1, elem_of_cons. split.
      * intros [[?|?]|?]; auto.
      * intros [?|[?|?]]; auto.
    + intros n. rewrite Hdom, Hins, lookup_insert_is_Some, elem_of_cons. split.
      * intros [[?|[_ ?]]|?]; auto.
      * intros [?|[?|?]]; auto.
        destruct (decide (name x = n)); auto.
Qed.

End LoopsMore.

Section More.

Variable E : Env.

(** ** The stages of [Check] *)

Lemma Check_inl cfg cfg' :
  Check E cfg = inl cfg' ->
  exists cfg1 ids1 oidc ids2 saml ids3 passkey bs1 maps bs2 pkis pki' bw bwl' bs3,
    check_top E cfg = inl cfg1 /\
    ran (check_oidc E) 0 ∅ (Config.OIDCProviders cfg1) ids1 oidc /\
    ran (check_saml E) 0 ids1 (Config.SAMLProviders cfg1) ids2 saml /\
    ran (check_passkey E) 0 ids2 (Config.PasskeyProviders cfg1) ids3 passkey /\
    ran (check_backend_mode E (default false (Config.EnableQUIC cfg1))) 0 tt
      (Config.Backends cfg1) tt bs1 /\
    ran (check_backend_names E) 0 (∅, ∅) bs1 maps bs2 /\
    ran (check_pki E bs2 maps.1) 0 ∅ (Config.PKI cfg1) pkis pki' /\
    ran check_bwlimit 0 ∅ (Config.BWLimits cfg1) bw bwl' /\
    ran (check_backend E ids3 pkis bw) 0 tt bs2 tt bs3 /\
    os_MkdirAll E (Config.CacheDir cfg1) = None /\
    cfg' = Config.set_lists bs3 oidc saml passkey cfg1.
Proof.
  unfold Check. intros H. cbv zeta in H. split_check H. injection H as <-.
  repeat match goal with
         | Hr : for_range _ _ _ _ = inl _ |- _ => apply for_range_ran in Hr
         end.
  repeat match goal with u : unit |- _ => destruct u end.
  match goal with Hr : fail_on _ _ = inl _ |- _ => apply fail_on_inl in Hr end.
  do 15 eexists. repeat (split; [eassumption|]). reflexivity.
Qed.

Lemma check_top_inl cfg cfg1 :
  check_top E cfg = inl cfg1 ->
  Config.Definitions cfg1 = None /\
  Config.HTTPAddr cfg1 = Config.HTTPAddr cfg /\
  Config.TLSAddr cfg1 =
    (if bool_decide (Config.TLSAddr cfg = "") then ":10443" else Config.TLSAddr cfg) /\
  (exists q, Config.EnableQUIC cfg1 = Some q /\
             q = match Config.EnableQUIC cfg with
                 | None => quicIsEnabled E
                 | Some v => v
                 end /\
             (q = true -> quicIsEnabled E = true)) /\
  (if bool_decide (Config.CacheDir cfg = "")
   then exists d, os_UserCacheDir E = inl d /\
                  Config.CacheDir cfg1 = filepath_Join E [d; "tlsproxy"; "letsencrypt"]
   else Config.CacheDir cfg1 = Config.CacheDir cfg) /\
  (if (Config.MaxOpen cfg =? 0)%Z
   then exists n, openFileLimit E = inl n /\
                  Config.MaxOpen cfg1 = (Z.quot n 2 - 100)%Z
   else Config.MaxOpen cfg1 = Config.MaxOpen cfg) /\
  Config.DefaultServerName cfg1 = idnaToASCII E (Config.DefaultServerName cfg) /\
  Config.Backends cfg1 = Config.Backends cfg /\
  Config.Email cfg1 = Config.Email cfg /\
  Config.RevokeUnusedCertificates cfg1 = Config.RevokeUnusedCertificates cfg /\
  Config.AcceptTOS cfg1 = Config.AcceptTOS cfg /\
  Config.OIDCProviders cfg1 = Config.OIDCProviders cfg /\
  Config.SAMLProviders cfg1 = Config.SAMLProviders cfg /\
  Config.PasskeyProviders cfg1 = Config.PasskeyProviders cfg /\
  Config.PKI cfg1 = Config.PKI cfg /\
  Config.BWLimits cfg1 = Config.BWLimits cfg.
Proof.
  unfold check_top. intros H. cbv zeta in H. split_check H. injection H as <-.
  cbn [Config.Definitions Config.HTTPAddr Config.TLSAddr Config.EnableQUIC
       Config.CacheDir Config.DefaultServerName Config.Backends Config.Email
       Config.RevokeUnusedCertificates Config.MaxOpen Config.AcceptTOS
       Config.OIDCProviders Config.SAMLProviders Config.PasskeyProviders
       Config.PKI Config.BWLimits].
  match goal with Hr : fail_if _ _ = inl _ |- _ => apply fail_if_inl in Hr;
    rename Hr into Hquic end.
  split; [reflexivity|]. split; [reflexivity|]. split; [reflexivity|].
  split.
  { eexists. split; [reflexivity|]. split; [reflexivity|].
    intros Hqt. rewrite Hqt in Hquic. cbn in Hquic.
    destruct (quicIsEnabled E); [reflexivity|discriminate]. }
  split.
  { destruct (bool_decide (Config.CacheDir cfg = "")).
    - destruct (os_UserCacheDir E) as [d|]; [|discriminate].
      match goal with Hr : inl _ = inl _ |- _ => injection Hr as <- end. eauto.
    - match goal with Hr : inl (Config.CacheDir cfg) = inl _ |- _ =>
        injection Hr as <- end. reflexivity. }
  split.
  { destruct (Config.MaxOpen cfg =? 0)%Z.
    - destruct (openFileLimit E) as [n|]; [|discriminate].
      match goal with Hr : inl (Z.quot _ _ - _)%Z = inl _ |- _ =>
        injection Hr as <- end. eauto.
    - match goal with Hr : inl (Config.MaxOpen cfg) = inl _ |- _ =>
        injection Hr as <- end. reflexivity. }
  repeat split.
Qed.

(** What the three loops over the backends did to the backend at position
    [k]. *)
Lemma backend_chain q bs0 bs1 maps bs2 ids pkis bw bs3 k b3 :
  ran (check_backend_mode E q) 0 tt bs0 tt bs1 ->
  ran (check_backend_names E) 0 (∅, ∅) bs1 maps bs2 ->
  ran (check_backend E ids pkis bw) 0 tt bs2 tt bs3 ->
  bs3 !! k = Some b3 ->
  exists b b1,
    bs0 !! k = Some b /\
    check_backend_mode E q k tt b = inl (tt, b1) /\
    check_backend E ids pkis bw k tt
      (Backend.set_ServerNames (idnaToASCII E <$> Backend.ServerNames b1) b1) =
      inl (tt, b3).
Proof.
  intros Hmode Hnames Hbe Hk.
  destruct (ran_lookup _ _ _ _ _ _ _ _ Hbe Hk) as (b2 & [] & [] & Hb2 & _ & Hrun3).
  apply check_backend_names_ran in Hnames as (Hall & _).
  destruct (Forall2_lookup_r _ _ _ _ _ Hall Hb2) as (b1 & Hb1 & ->).
  destruct (ran_lookup _ _ _ _ _ _ _ _ Hmode Hb1) as (b & [] & [] & Hb & _ & Hrun1).
  exists b, b1. auto.
Qed.

(** ** The first loop over the backends *)

Lemma check_backend_mode_inl q i b b1 :
  check_backend_mode E q i tt b = inl (tt, b1) ->
  mode_of E b ∈ validModes /\
  (mode_of E b = ModeTLSPassthrough -> Backend.ClientAuth b = None) /\
  (Backend.BackendProto b <> None ->
   mode_of E b = ModeHTTP \/ mode_of E b = ModeHTTPS) /\
  b1 = Backend.set_mode (mode_of E b)
         (Some match Backend.ALPNProtos b with
               | Some protos => protos
               | None => if q && bool_decide (mode_of E b ∈ h3Modes)
                         then defaultALPNProtosPlusH3 else defaultALPNProtos
               end)
         (if bool_decide (mode_of E b = ModeQUIC)
          then Some (default false (Backend.ServerCloseEndsConnection b))
          else Backend.ServerCloseEndsConnection b)
         (if bool_decide (mode_of E b = ModeQUIC)
          then Some (default false (Backend.ClientCloseEndsConnection b))
          else Backend.ClientCloseEndsConnection b) b.
Proof.
  unfold check_backend_mode. fold (mode_of E b). intros H. cbv zeta in H.
  split_check H. injection H as <-.
  repeat match goal with Hr : fail_if _ _ = inl _ |- _ => apply fail_if_inl in Hr end.
  match goal with Hr : negb (bool_decide (_ ∈ validModes)) = false |- _ =>
    apply negb_false_iff, bool_decide_eq_true_1 in Hr; rename Hr into Hvalid end.
  match goal with Hr : bool_decide (_ = ModeTLSPassthrough) && _ = false |- _ =>
    rename Hr into Hpass end.
  match goal with Hr : not_nil (Backend.BackendProto b) && _ && _ = false |- _ =>
    rename Hr into Hproto end.
  split; [exact Hvalid|]. split; [|split].
  - intros Hm. rewrite bool_decide_eq_true_2 in Hpass by exact Hm.
    destruct (Backend.ClientAuth b); [discriminate|reflexivity].
  - intros Hbp. destruct (Backend.BackendProto b); [|congruence].
    cbn in Hproto. repeat case_bool_decide; auto; discriminate.
  - f_equal.
    + destruct (Backend.ALPNProtos b); [reflexivity|]. f_equal.
      assert (Hh3 : bool_decide (mode_of E b = ModeHTTP)
                    || bool_decide (mode_of E b = ModeHTTPS)
                    || bool_decide (mode_of E b = ModeQUIC)
                    || bool_decide (mode_of E b = ModeLocal)
                    || bool_decide (mode_of E b = ModeConsole) =
                    bool_decide (mode_of E b ∈ h3Modes)).
      { unfold h3Modes. rewrite <- !bool_decide_or. apply bool_decide_ext.
        rewrite !elem_of_cons, elem_of_nil. tauto. }
      rewrite Hh3. destruct q, (bool_decide (mode_of E b ∈ h3Modes)); reflexivity.
    + destruct (bool_decide (mode_of E b = ModeQUIC)); [|reflexivity].
      destruct (Backend.ServerCloseEndsConnection b); reflexivity.
    + destruct (bool_decide (mode_of E b = ModeQUIC)); [|reflexivity].
      destruct (Backend.ClientCloseEndsConnection b); reflexivity.
Qed.

(** ** The third loop over the backends *)

Lemma length_eqb_0 {A} (l : list A) : (length l =? 0)%nat = bool_decide (l = []).
Proof. destruct l; reflexivity. Qed.

Lemma length_ltb_0 {A} (l : list A) : (0 <? length l)%nat = negb (bool_decide (l = [])).
Proof. destruct l; reflexivity. Qed.

Lemma check_backend_inl ids pkis bw i b2 b3 :
  check_backend E ids pkis bw i tt b2 = inl (tt, b3) ->
  exists allow deny ver pos wrap,
    b3 = Backend.set_forwarding
           (if (Backend.ForwardTimeout b2 =? 0)%Z then (30 * time_Second)%Z
            else Backend.ForwardTimeout b2)
           allow deny (idnaToASCII E (Backend.ForwardServerName b2))
           (if (Backend.ForwardRateLimit b2 =? 0)%Z then 5%Z
            else Backend.ForwardRateLimit b2)
           ver pos b2 /\
    Backend.ServerNames b2 <> [] /\
    (Backend.Addresses b2 = [] ->
     Backend.Mode b2 ∈ [ModeConsole; ModeHTTP; ModeHTTPS; ModeLocal]) /\
    (Backend.Addresses b2 <> [] ->
     Backend.Mode b2 <> ModeConsole /\ Backend.Mode b2 <> ModeLocal) /\
    (Backend.BWLimit b2 = "" \/ flag bw (Backend.BWLimit b2) = true) /\
    check_client_auth E pkis i (Backend.ClientAuth b2) = inl tt /\
    check_sso E ids i (Backend.SSO b2) = inl tt /\
    check_root_cas E pkis wrap (Backend.ForwardRootCAs b2) = inl tt /\
    match Backend.AllowIPs b2 with
    | None => allow = Backend.allowIPs b2
    | Some l => exists w ips, parse_cidrs E w l = inl ips /\ allow = Some ips
    end /\
    match Backend.DenyIPs b2 with
    | None => deny = Backend.denyIPs b2
    | Some l => exists w ips, parse_cidrs E w l = inl ips /\ deny = Some ips
    end /\
    validateProxyProtoVersion (Backend.ProxyProtocolVersion b2) = inl ver /\
    (Backend.PathOverrides b2 <> [] ->
     Backend.Mode b2 = ModeHTTP \/ Backend.Mode b2 = ModeHTTPS) /\
    ran (check_path_override E pkis i (Backend.Mode b2)) 0 tt
      (Backend.PathOverrides b2) tt pos.
Proof.
  unfold check_backend. intros H. cbv zeta in H. split_check H.
  destruct (validateProxyProtoVersion _) as [ver|] eqn:Hver; [|discriminate].
  split_check H. injection H as <-.
  repeat match goal with u : unit |- _ => destruct u end.
  repeat match goal with Hr : fail_if _ _ = inl _ |- _ => apply fail_if_inl in Hr end.
  rewrite ?length_eqb_0, ?length_ltb_0 in *.
  match goal with Hr : for_range (check_path_override _ _ _ _) _ _ _ = inl _ |- _ =>
    apply for_range_ran in Hr; rename Hr into Hpos end.
  match goal with Hr : check_client_auth _ _ _ _ = inl _ |- _ => rename Hr into Hca end.
  match goal with Hr : check_sso _ _ _ _ = inl _ |- _ => rename Hr into Hsso end.
  match goal with Hr : check_root_cas _ _ _ _ = inl _ |- _ => rename Hr into Hroot end.
  match goal with Hr : bool_decide (Backend.ServerNames b2 = []) = false |- _ =>
    apply bool_decide_eq_false_1 in Hr; rename Hr into Hnames end.
  match goal with Hr : bool_decide (Backend.Addresses b2 = []) && _ && _ && _ && _ = false |- _ =>
    rename Hr into Hnoaddr end.
  match goal with Hr : negb (bool_decide (Backend.Addresses b2 = [])) && _ = false |- _ =>
    rename Hr into Haddr end.
  match goal with Hr : negb (bool_decide (Backend.BWLimit b2 = "")) && _ = false |- _ =>
    rename Hr into Hbw end.
  match goal with Hr : negb (bool_decide (Backend.PathOverrides b2 = [])) && _ && _ = false |- _ =>
    rename Hr into Hpo end.
  match goal with
  | Ha : match Backend.AllowIPs b2 with _ => _ end = inl ?allow,
    Hd : match Backend.DenyIPs b2 with _ => _ end = inl ?deny |- _ =>
      rename Ha into Hallow; rename Hd into Hdeny;
      exists allow, deny, ver
  end.
  eexists _, _. split; [reflexivity|].
  split; [exact Hnames|]. split; [|split; [|split; [|split; [|split; [|split]]]]].
  - intros Hno. rewrite bool_decide_eq_true_2 in Hnoaddr by exact Hno.
    cbn in Hnoaddr. rewrite !elem_of_cons. clear - Hnoaddr.
    repeat case_bool_decide; auto; discriminate.
  - intros Hsome. rewrite bool_decide_eq_false_2 in Haddr by exact Hsome.
    cbn in Haddr. clear - Haddr. repeat case_bool_decide; try discriminate. auto.
  - clear - Hbw. case_bool_decide; auto. cbn in Hbw.
    right. destruct (flag bw (Backend.BWLimit b2)); [reflexivity|discriminate].
  - exact Hca.
  - exact Hsso.
  - exact Hroot.
  - split; [|split; [|split; [reflexivity|split; [|exact Hpos]]]].
    + destruct (Backend.AllowIPs b2) as [cidrs|].
      * split_check Hallow. injection Hallow as <-. eauto.
      * injection Hallow as <-. reflexivity.
    + destruct (Backend.DenyIPs b2) as [cidrs|].
      * split_check Hdeny. injection Hdeny as <-. eauto.
      * injection Hdeny as <-. reflexivity.
    + intros Hsome. rewrite bool_decide_eq_false_2 in Hpo by exact Hsome.
      cbn in Hpo. clear - Hpo. repeat case_bool_decide; auto; discriminate.
Qed.

(** ** The backends of an accepted configuration *)

Lemma Check_backend_view cfg cfg' k b' :
  Check E cfg = inl cfg' -> Config.Backends cfg' !! k = Some b' ->
  exists q ids pkis bw b b1,
    Config.EnableQUIC cfg' = Some q /\
    Config.Backends cfg !! k = Some b /\
    check_backend_mode E q k tt b = inl (tt, b1) /\
    check_backend E ids pkis bw k tt
      (Backend.set_ServerNames (idnaToASCII E <$> Backend.ServerNames b1) b1) =
      inl (tt, b').
Proof.
  intros H Hk.
  destruct (Check_inl _ _ H)
    as (cfg1 & ids1 & oidc & ids2 & saml & ids3 & passkey & bs1 & maps & bs2 & pkis
        & pki' & bw & bwl' & bs3 & Htop & _ & _ & _ & Hmode & Hnames & _ & _ & Hbe
        & _ & ->).
  cbn [Config.Backends Config.set_lists Config.EnableQUIC] in *.
  destruct (backend_chain _ _ _ _ _ _ _ _ _ _ _ Hmode Hnames Hbe Hk)
    as (b & b1 & Hb & Hm & Hc).
  apply check_top_inl in Htop
    as (_ & _ & _ & (q & Hq & _) & _ & _ & _ & Hbs & _).
  rewrite Hq in Hm. cbn [default] in Hm. rewrite Hbs in Hb.
  exists q, ids3, pkis, bw, b, b1. auto.
Qed.

Ltac backend_fields :=
  cbn [Backend.set_forwarding Backend.set_ServerNames Backend.set_mode
       Backend.ServerNames Backend.ClientAuth Backend.AllowIPs Backend.DenyIPs
       Backend.SSO Backend.ExportJWKS Backend.ALPNProtos Backend.BackendProto
       Backend.Mode Backend.BWLimit Backend.Addresses Backend.InsecureSkipVerify
       Backend.ForwardRateLimit Backend.ForwardServerName Backend.ForwardRootCAs
       Backend.ForwardTimeout Backend.PathOverrides Backend.ProxyProtocolVersion
       Backend.ServerCloseEndsConnection Backend.ClientCloseEndsConnection
       Backend.HalfCloseTimeout Backend.connLimit Backend.proxyProtocolVersion
       Backend.allowIPs Backend.denyIPs] in *.

(** X8.  In a configuration that [Check] accepts, the mode of every backend
    is one of the eight valid modes: the mode given, in upper case, with
    [TCP] in place of the empty string and of [PLAINTEXT].  A backend in
    mode [TLSPASSTHROUGH] has no [ClientAuth], [BackendProto] is set only in
    the modes [HTTP] and [HTTPS], and a backend in mode [QUIC] has both
    [ServerCloseEndsConnection] and [ClientCloseEndsConnection] set, to
    [false] when they were not given; in the other modes these two are as
    given. *)
Theorem Check_backend_modes (cfg cfg' : Config.t) (k : nat) (b' : Backend.t) :
  Check E cfg = inl cfg' -> Config.Backends cfg' !! k = Some b' ->
  exists b,
    Config.Backends cfg !! k = Some b /\
    Backend.Mode b' = mode_of E b /\
    Backend.Mode b' ∈ validModes /\
    (Backend.Mode b' = ModeTLSPassthrough -> Backend.ClientAuth b' = None) /\
    (Backend.BackendProto b' <> None ->
     Backend.Mode b' = ModeHTTP \/ Backend.Mode b' = ModeHTTPS) /\
    (if bool_decide (Backend.Mode b' = ModeQUIC)
     then Backend.ServerCloseEndsConnection b' =
            Some (default false (Backend.ServerCloseEndsConnection b)) /\
          Backend.ClientCloseEndsConnection b' =
            Some (default false (Backend.ClientCloseEndsConnection b))
     else Backend.ServerCloseEndsConnection b' = Backend.ServerCloseEndsConnection b /\
          Backend.ClientCloseEndsConnection b' = Backend.ClientCloseEndsConnection b).
Proof.
  intros H Hk.
  destruct (Check_backend_view _ _ _ _ H Hk)
    as (q & ids & pkis & bw & b & b1 & _ & Hb & Hm & Hc).
  apply check_backend_mode_inl in Hm as (Hvalid & Hpass & Hproto & ->).
  apply check_backend_inl in Hc as (allow & deny & ver & pos & wrap & -> & _).
  exists b. backend_fields.
  split; [exact Hb|]. split; [reflexivity|]. split; [exact Hvalid|].
  split; [exact Hpass|]. split; [exact Hproto|].
  destruct (bool_decide (mode_of E b = ModeQUIC)); split; reflexivity.
Qed.

(** X9.  In a configuration that [Check] accepts, [ALPNProtos] of every
    backend is set: a list that was given is kept, the empty list too; a
    list that was not given becomes [h2, http/1.1], with [h3] in front when
    QUIC is enabled and the mode is [HTTP], [HTTPS], [QUIC], [LOCAL] or
    [CONSOLE]. *)
Theorem Check_alpn_defaults (cfg cfg' : Config.t) (k : nat) (b' : Backend.t) :
  Check E cfg = inl cfg' -> Config.Backends cfg' !! k = Some b' ->
  exists q b,
    Config.EnableQUIC cfg' = Some q /\
    Config.Backends cfg !! k = Some b /\
    Backend.ALPNProtos b' =
      Some match Backend.ALPNProtos b with
           | Some protos => protos
           | None => if q && bool_decide (Backend.Mode b' ∈ h3Modes)
                     then defaultALPNProtosPlusH3 else defaultALPNProtos
           end.
Proof.
  intros H Hk.
  destruct (Check_backend_view _ _ _ _ H Hk)
    as (q & ids & pkis & bw & b & b1 & Hq & Hb & Hm & Hc).
  apply check_backend_mode_inl in Hm as (_ & _ & _ & ->).
  apply check_backend_inl in Hc as (allow & deny & ver & pos & wrap & -> & _).
  exists q, b. backend_fields. auto.
Qed.

(** X10.  In a configuration that [Check] accepts, every backend has at
    least one server name, and its names are the names given, each passed
    through [idnaToASCII]; its addresses are the addresses given; a backend
    without addresses is in mode [CONSOLE], [HTTP], [HTTPS] or [LOCAL], so a
    backend in mode [TCP], [TLS], [TLSPASSTHROUGH] or [QUIC] has an address;
    and a backend in mode [CONSOLE] or [LOCAL] has none. *)
Theorem Check_names_and_addresses (cfg cfg' : Config.t) (k : nat) (b' : Backend.t) :
  Check E cfg = inl cfg' -> Config.Backends cfg' !! k = Some b' ->
  exists b,
    Config.Backends cfg !! k = Some b /\
    Backend.ServerNames b' = idnaToASCII E <$> Backend.ServerNames b /\
    Backend.ServerNames b' <> [] /\
    Backend.Addresses b' = Backend.Addresses b /\
    (Backend.Addresses b' = [] ->
     Backend.Mode b' ∈ [ModeConsole; ModeHTTP; ModeHTTPS; ModeLocal]) /\
    (Backend.Mode b' ∈ [ModeTCP; ModeTLS; ModeTLSPassthrough; ModeQUIC] ->
     Backend.Addresses b' <> []) /\
    (Backend.Mode b' ∈ [ModeConsole; ModeLocal] -> Backend.Addresses b' = []).
Proof.
  intros H Hk.
  destruct (Check_backend_view _ _ _ _ H Hk)
    as (q & ids & pkis & bw & b & b1 & _ & Hb & Hm & Hc).
  apply check_backend_mode_inl in Hm as (_ & _ & _ & ->).
  apply check_backend_inl in Hc
    as (allow & deny & ver & pos & wrap & -> & Hnames & Hnoaddr & Haddr & _).
  exists b. backend_fields.
  split; [exact Hb|]. split; [reflexivity|]. split; [exact Hnames|].
  split; [reflexivity|]. split; [exact Hnoaddr|]. split.
  - intros Hmode Hno. specialize (Hnoaddr Hno).
    rewrite !elem_of_cons, elem_of_nil in Hmode, Hnoaddr.
    destruct Hmode as [Hm|[Hm|[Hm|[Hm|[]]]]]; rewrite Hm in Hnoaddr;
      destruct Hnoaddr as [?|[?|[?|[?|[]]]]]; discriminate.
  - intros Hmode. destruct (Backend.Addresses b) as [|a rest] eqn:Ha; [reflexivity|].
    destruct Haddr as [Hc1 Hc2]; [discriminate|].
    rewrite !elem_of_cons, elem_of_nil in Hmode.
    destruct Hmode as [?|[?|[]]]; contradiction.
Qed.

Lemma validateProxyProtoVersion_byte s v :
  validateProxyProtoVersion s = inl v -> (0 <= v < 256)%Z.
Proof.
  unfold validateProxyProtoVersion. destruct s as [|c rest]; [intros [= <-]; lia|].
  destruct (_ || _); [discriminate|].
  destruct (strconv_ParseInt_10_8 rest) as [n|]; [|discriminate].
  intros [= <-]. apply Z.mod_pos_bound. lia.
Qed.

(** X11.  In a configuration that [Check] accepts, no backend has a zero
    [ForwardTimeout] or a zero [ForwardRateLimit]: zero becomes 30 seconds
    and 5, other values are kept; the rate limiter has the rate limit as
    limit and as burst; [ForwardServerName] has passed through
    [idnaToASCII]; and the stored PROXY protocol version is the byte that
    [validateProxyProtoVersion] returns for [ProxyProtocolVersion]. *)
Theorem Check_forwarding_defaults (cfg cfg' : Config.t) (k : nat) (b' : Backend.t) :
  Check E cfg = inl cfg' -> Config.Backends cfg' !! k = Some b' ->
  exists b,
    Config.Backends cfg !! k = Some b /\
    Backend.ForwardTimeout b' =
      (if (Backend.ForwardTimeout b =? 0)%Z then 30000000000%Z
       else Backend.ForwardTimeout b) /\
    Backend.ForwardTimeout b' <> 0%Z /\
    Backend.ForwardRateLimit b' =
      (if (Backend.ForwardRateLimit b =? 0)%Z then 5%Z
       else Backend.ForwardRateLimit b) /\
    Backend.ForwardRateLimit b' <> 0%Z /\
    Backend.connLimit b' =
      Some (Backend.ForwardRateLimit b', Backend.ForwardRateLimit b') /\
    Backend.ForwardServerName b' = idnaToASCII E (Backend.ForwardServerName b) /\
    Backend.ProxyProtocolVersion b' = Backend.ProxyProtocolVersion b /\
    validateProxyProtoVersion (Backend.ProxyProtocolVersion b) =
      inl (Backend.proxyProtocolVersion b') /\
    (0 <= Backend.proxyProtocolVersion b' < 256)%Z.
Proof.
  intros H Hk.
  destruct (Check_backend_view _ _ _ _ H Hk)
    as (q & ids & pkis & bw & b & b1 & _ & Hb & Hm & Hc).
  apply check_backend_mode_inl in Hm as (_ & _ & _ & ->).
  apply check_backend_inl in Hc
    as (allow & deny & ver & pos & wrap & -> & _ & _ & _ & _ & _ & _ & _ & _ & _
        & Hver & _).
  exists b. backend_fields.
  split; [exact Hb|]. split; [reflexivity|]. split.
  { destruct (Z.eqb_spec (Backend.ForwardTimeout b) 0); [discriminate|assumption]. }
  split; [reflexivity|]. split.
  { destruct (Z.eqb_spec (Backend.ForwardRateLimit b) 0); [discriminate|assumption]. }
  split; [reflexivity|]. split; [reflexivity|]. split; [reflexivity|].
  split; [exact Hver|]. eapply validateProxyProtoVersion_byte, Hver.
Qed.

(** ** Identity providers *)

Lemma check_domain_inl domain url bad_url not_part d :
  check_domain E domain url bad_url not_part = inl d ->
  if bool_decide (domain = "") then d = ""
  else d = idnaToASCII E domain /\
       exists host, hostAndPath E url = inl host /\
                    strings_HasSuffix host d = true.
Proof.
  unfold check_domain. destruct (bool_decide (domain = "")) eqn:Hd.
  - intros [= <-]. apply bool_decide_eq_true_1 in Hd. exact Hd.
  - destruct (hostAndPath E url) as [host|]; [|discriminate].
    intros H. split_check H. injection H as <-.
    match goal with Hr : fail_if _ _ = inl _ |- _ =>
      apply fail_if_inl, negb_false_iff in Hr end.
    eauto.
Qed.

Lemma check_oidc_inl i st x st' y :
  check_oidc E i st x = inl (st', y) ->
  flag st (ConfigOIDC.Name x) = false /\
  st' = <[ConfigOIDC.Name x := true]> st /\
  ConfigOIDC.Name y = ConfigOIDC.Name x.
Proof.
  unfold check_oidc. intros H. cbv zeta in H. split_check H.
  injection H as <- <-.
  match goal with Hr : fail_if (flag st _) _ = inl _ |- _ => apply fail_if_inl in Hr end.
  auto.
Qed.

Lemma check_saml_inl i st x st' y :
  check_saml E i st x = inl (st', y) ->
  flag st (ConfigSAML.Name x) = false /\
  st' = <[ConfigSAML.Name x := true]> st /\
  ConfigSAML.Name y = ConfigSAML.Name x.
Proof.
  unfold check_saml. intros H. cbv zeta in H. split_check H.
  injection H as <- <-.
  match goal with Hr : fail_if (flag st _) _ = inl _ |- _ => apply fail_if_inl in Hr end.
  auto.
Qed.

Lemma check_passkey_inl i st x st' y :
  check_passkey E i st x = inl (st', y) ->
  (flag st (ConfigPasskey.Name x) = false /\
   st' = <[ConfigPasskey.Name x := true]> st /\
   ConfigPasskey.Name y = ConfigPasskey.Name x) /\
  ConfigPasskey.Endpoint y = ConfigPasskey.Endpoint x /\
  ConfigPasskey.Endpoint x <> "" /\
  ConfigPasskey.IdentityProvider y = ConfigPasskey.IdentityProvider x /\
  ConfigPasskey.IdentityProvider x <> "" /\
  (ConfigPasskey.IdentityProvider x = ConfigPasskey.Name x \/
   is_Some (st !! ConfigPasskey.IdentityProvider x)).
Proof.
  unfold check_passkey. intros H. cbv zeta in H. split_check H.
  injection H as <- <-.
  repeat match goal with Hr : fail_if _ _ = inl _ |- _ => apply fail_if_inl in Hr end.
  match goal with Hr : flag st _ = false |- _ => rename Hr into Hnew end.
  match goal with Hr : bool_decide (ConfigPasskey.Endpoint x = "") = false |- _ =>
    apply bool_decide_eq_false_1 in Hr; rename Hr into Hend end.
  match goal with Hr : bool_decide (ConfigPasskey.IdentityProvider x = "") = false |- _ =>
    apply bool_decide_eq_false_1 in Hr; rename Hr into Hidp end.
  match goal with Hr : negb (not_nil _) = false |- _ =>
    apply negb_false_iff in Hr; rename Hr into Hknown end.
  repeat split; auto.
  destruct (decide (ConfigPasskey.Name x = ConfigPasskey.IdentityProvider x))
    as [Heq|Hne]; [left; congruence|right].
  rewrite lookup_insert_ne in Hknown by exact Hne.
  destruct (st !! ConfigPasskey.IdentityProvider x); [eauto|discriminate].
Qed.

(** The names the three provider loops have recorded. *)
Lemma Check_providers cfg cfg' :
  Check E cfg = inl cfg' ->
  exists ids1 ids2 ids3 pkis bw,
    ran (check_oidc E) 0 ∅ (Config.OIDCProviders cfg) ids1 (Config.OIDCProviders cfg') /\
    ran (check_saml E) 0 ids1 (Config.SAMLProviders cfg) ids2
      (Config.SAMLProviders cfg') /\
    ran (check_passkey E) 0 ids2 (Config.PasskeyProviders cfg) ids3
      (Config.PasskeyProviders cfg') /\
    (forall k b', Config.Backends cfg' !! k = Some b' ->
       exists b2, check_backend E ids3 pkis bw k tt b2 = inl (tt, b')) /\
    (exists l', ran check_bwlimit 0 ∅ (Config.BWLimits cfg') bw l') /\
    (exists bs2 maps l', ran (check_pki E bs2 maps) 0 ∅ (Config.PKI cfg') pkis l').
Proof.
  intros H.
  destruct (Check_inl _ _ H)
    as (cfg1 & ids1 & oidc & ids2 & saml & ids3 & passkey & bs1 & maps & bs2 & pkis
        & pki' & bw & bwl' & bs3 & Htop & Ho & Hs & Hp & Hmode & Hnames & Hpki & Hbw
        & Hbe & _ & ->).
  apply check_top_inl in Htop
    as (_ & _ & _ & _ & _ & _ & _ & _ & _ & _ & _ & Eo & Es & Ep & Epki & Ebw).
  rewrite Eo in Ho. rewrite Es in Hs. rewrite Ep in Hp.
  rewrite Epki in Hpki. rewrite Ebw in Hbw.
  cbn [Config.set_lists Config.OIDCProviders Config.SAMLProviders
       Config.PasskeyProviders Config.Backends Config.BWLimits Config.PKI].
  exists ids1, ids2, ids3, pkis, bw.
  split; [exact Ho|]. split; [exact Hs|]. split; [exact Hp|]. split; [|split].
  - intros k b' Hk.
    destruct (ran_lookup _ _ _ _ _ _ _ _ Hbe Hk) as (b2 & [] & [] & _ & _ & Hrun).
    eauto.
  - rewrite Ebw. eauto.
  - rewrite Epki. eauto.
Qed.

Lemma provider_names_recorded cfg cfg' ids1 ids2 ids3 :
  ran (check_oidc E) 0 ∅ (Config.OIDCProviders cfg) ids1 (Config.OIDCProviders cfg') ->
  ran (check_saml E) 0 ids1 (Config.SAMLProviders cfg) ids2
    (Config.SAMLProviders cfg') ->
  ran (check_passkey E) 0 ids2 (Config.PasskeyProviders cfg) ids3
    (Config.PasskeyProviders cfg') ->
  provider_names cfg' = provider_names cfg /\
  NoDup (provider_names cfg') /\
  (forall n, flag ids3 n = true <-> n ∈ provider_names cfg') /\
  (forall n, is_Some (ids2 !! n) <->
             n ∈ (ConfigOIDC.Name <$> Config.OIDCProviders cfg') ++
                 (ConfigSAML.Name <$> Config.SAMLProviders cfg')).
Proof.
  intros Ho Hs Hp.
  apply (ran_unique _ ConfigOIDC.Name id) in Ho
    as (Hnd1 & Hn1 & _ & Hfl1 & Hdom1); [|intros; eapply check_oidc_inl; eassumption].
  apply (ran_unique _ ConfigSAML.Name id) in Hs
    as (Hnd2 & Hn2 & Hfr2 & Hfl2 & Hdom2); [|intros; eapply check_saml_inl; eassumption].
  apply (ran_unique _ ConfigPasskey.Name id) in Hp
    as (Hnd3 & Hn3 & Hfr3 & Hfl3 & _);
    [|intros ? ? ? ? ? Hb; apply check_passkey_inl in Hb as [Hb _]; exact Hb].
  unfold id in *. unfold provider_names. rewrite Hn1, Hn2, Hn3.
  split; [reflexivity|].
  assert (Hin1 : forall n, flag ids1 n = true <->
                           n ∈ ConfigOIDC.Name <$> Config.OIDCProviders cfg).
  { intros n. rewrite Hfl1. unfold flag. rewrite lookup_empty. cbn.
    split; [intros [?|?]; [discriminate|assumption]|auto]. }
  split; [|split].
  - apply list.NoDup_app. split; [exact Hnd1|]. split.
    + intros n Hn Hn'. apply elem_of_app in Hn' as [Hn'|Hn'].
      * apply Hfr2 in Hn'. apply Hin1 in Hn. congruence.
      * apply Hfr3 in Hn'. rewrite (proj2 (Hfl2 n)) in Hn'; [discriminate|].
        left. apply Hin1, Hn.
    + apply list.NoDup_app. split; [exact Hnd2|]. split; [|exact Hnd3].
      intros n Hn Hn'. apply Hfr3 in Hn'.
      rewrite (proj2 (Hfl2 n)) in Hn'; [discriminate|]. right. exact Hn.
  - intros n. rewrite Hfl3, Hfl2, Hin1, !elem_of_app. tauto.
  - intros n. rewrite Hdom2, Hdom1, lookup_empty, elem_of_app.
    split; [intros [[[? ?]|?]|?]; [discriminate|auto|auto]|tauto].
Qed.

(** X12.  In a configuration that [Check] accepts, no two identity
    providers have the same name, whatever their kinds: the names of the
    OIDC, SAML and passkey providers together are without repetition.
    [Check] changes no name. *)
Theorem Check_provider_names_unique (cfg cfg' : Config.t) :
  Check E cfg = inl cfg' ->
  NoDup (provider_names cfg') /\ provider_names cfg' = provider_names cfg.
Proof.
  intros H.
  destruct (Check_providers _ _ H) as (ids1 & ids2 & ids3 & pkis & bw & Ho & Hs & Hp & _).
  destruct (provider_names_recorded _ _ _ _ _ Ho Hs Hp) as (Heq & Hnd & _).
  auto.
Qed.

(** X13.  In a configuration that [Check] accepts, every passkey provider
    has an endpoint and names an identity provider, and that name is the
    name of an OIDC provider, of a SAML provider, of a passkey provider
    listed before it, or its own name. *)
Theorem Check_passkey_identity_provider (cfg cfg' : Config.t) (k : nat)
    (pp : ConfigPasskey.t) :
  Check E cfg = inl cfg' -> Config.PasskeyProviders cfg' !! k = Some pp ->
  ConfigPasskey.Endpoint pp <> "" /\
  ConfigPasskey.IdentityProvider pp <> "" /\
  ConfigPasskey.IdentityProvider pp ∈
    (ConfigOIDC.Name <$> Config.OIDCProviders cfg') ++
    (ConfigSAML.Name <$> Config.SAMLProviders cfg') ++
    (ConfigPasskey.Name <$> take (Datatypes.S k) (Config.PasskeyProviders cfg')).
Proof.
  intros H Hk.
  destruct (Check_providers _ _ H) as (ids1 & ids2 & ids3 & pkis & bw & Ho & Hs & Hp & _).
  destruct (provider_names_recorded _ _ _ _ _ Ho Hs Hp) as (_ & _ & _ & Hdom2).
  destruct (ran_lookup _ _ _ _ _ _ _ _ Hp Hk) as (x & sk & sk' & Hx & Hpre & Hb).
  apply check_passkey_inl in Hb
    as ((_ & _ & Hname) & Hend & Hend' & Hidp & Hidp' & Hknown).
  apply (ran_unique _ ConfigPasskey.Name id) in Hpre
    as (_ & Hn & _ & _ & Hdomk);
    [|intros ? ? ? ? ? Hb; apply check_passkey_inl in Hb as [Hb _]; exact Hb].
  unfold id in *.
  split; [congruence|]. split; [congruence|].
  rewrite Hidp. rewrite (take_S_r _ _ _ Hk), fmap_app, Hn.
  rewrite !elem_of_app. cbn [fmap list_fmap]. rewrite list_elem_of_singleton.
  destruct Hknown as [Hself|Hseen].
  - right. right. right. congruence.
  - apply Hdomk in Hseen as [Hseen|Hseen].
    + apply Hdom2, elem_of_app in Hseen. tauto.
    + auto.
Qed.

Lemma check_sso_inl ids i sso :
  check_sso E ids i (Some sso) = inl tt ->
  flag ids (BackendSSO.Provider sso) = true /\
  forall srv, BackendSSO.LocalOIDCServer sso = Some srv ->
    (forall c, c ∈ LocalOIDCServer.Clients srv ->
       LocalOIDCClient.ID c <> "" /\ LocalOIDCClient.Secret c <> "" /\
       LocalOIDCClient.RedirectURI c <> []) /\
    (forall rr, rr ∈ LocalOIDCServer.RewriteRules srv ->
       LocalOIDCRewriteRule.InputClaim rr <> "" /\
       LocalOIDCRewriteRule.OutputClaim rr <> "" /\
       LocalOIDCRewriteRule.Regex rr <> "" /\
       regexp_Compile E (LocalOIDCRewriteRule.Regex rr) = None).
Proof.
  unfold check_sso. intros H. split_check H.
  match goal with Hr : fail_if _ _ = inl _ |- _ =>
    apply fail_if_inl, negb_false_iff in Hr; rename Hr into Hprov end.
  split; [exact Hprov|]. intros srv Hsrv. rewrite Hsrv in H. split_check H.
  repeat match goal with p : (unit * _)%type |- _ => destruct p as [[] ?] end.
  repeat match goal with
         | Hr : for_range _ _ _ _ = inl _ |- _ => apply for_range_ran in Hr
         end.
  match goal with Hr : ran (check_oidc_client i) _ _ _ _ _ |- _ =>
    rename Hr into Hclients end.
  match goal with Hr : ran (check_rewrite_rule E i) _ _ _ _ _ |- _ =>
    rename Hr into Hrules end.
  split.
  - intros c Hc.
    destruct (ran_elem _ _ _ _ _ _ _ Hclients Hc) as (j & [] & [] & y & Hb).
    unfold check_oidc_client in Hb. split_check Hb.
    repeat match goal with Hr : fail_if _ _ = inl _ |- _ => apply fail_if_inl in Hr end.
    rewrite ?length_eqb_0 in *.
    repeat match goal with
           | Hr : bool_decide _ = false |- _ => apply bool_decide_eq_false_1 in Hr
           end.
    auto.
  - intros rr Hrr.
    destruct (ran_elem _ _ _ _ _ _ _ Hrules Hrr) as (j & [] & [] & y & Hb).
    unfold check_rewrite_rule in Hb. split_check Hb.
    repeat match goal with Hr : fail_if _ _ = inl _ |- _ => apply fail_if_inl in Hr end.
    match goal with Hr : fail_on _ _ = inl _ |- _ => apply fail_on_inl in Hr end.
    repeat match goal with
           | Hr : bool_decide _ = false |- _ => apply bool_decide_eq_false_1 in Hr
           end.
    auto.
Qed.

(** X14.  In a configuration that [Check] accepts, the SSO provider that a
    backend names is one of the identity providers of the configuration;
    and when the backend runs a local OIDC server, every client of it has an
    ID, a secret and at least one redirect URI, and every rewrite rule has an
    input claim, an output claim and a regular expression that compiles. *)
Theorem Check_sso_provider (cfg cfg' : Config.t) (k : nat) (b' : Backend.t)
    (sso : BackendSSO.t) :
  Check E cfg = inl cfg' -> Config.Backends cfg' !! k = Some b' ->
  Backend.SSO b' = Some sso ->
  BackendSSO.Provider sso ∈ provider_names cfg' /\
  forall srv, BackendSSO.LocalOIDCServer sso = Some srv ->
    (forall c, c ∈ LocalOIDCServer.Clients srv ->
       LocalOIDCClient.ID c <> "" /\ LocalOIDCClient.Secret c <> "" /\
       LocalOIDCClient.RedirectURI c <> []) /\
    (forall rr, rr ∈ LocalOIDCServer.RewriteRules srv ->
       LocalOIDCRewriteRule.InputClaim rr <> "" /\
       LocalOIDCRewriteRule.OutputClaim rr <> "" /\
       LocalOIDCRewriteRule.Regex rr <> "" /\
       regexp_Compile E (LocalOIDCRewriteRule.Regex rr) = None).
Proof.
  intros H Hk Hsso.
  destruct (Check_providers _ _ H)
    as (ids1 & ids2 & ids3 & pkis & bw & Ho & Hs & Hp & Hbe & _).
  destruct (provider_names_recorded _ _ _ _ _ Ho Hs Hp) as (_ & _ & Hflag & _).
  destruct (Hbe k b' Hk) as (b2 & Hc).
  apply check_backend_inl in Hc
    as (allow & deny & ver & pos & wrap & -> & _ & _ & _ & _ & _ & Hcheck & _).
  backend_fields. rewrite Hsso in Hcheck.
  apply check_sso_inl in Hcheck as [Hprov Hsrv].
  split; [apply Hflag, Hprov|exact Hsrv].
Qed.

(** ** Bandwidth limits *)

Lemma check_bwlimit_inl i st x st' y :
  check_bwlimit i st x = inl (st', y) ->
  flag st (BWLimit.Name x) = false /\
  st' = <[BWLimit.Name x := true]> st /\
  BWLimit.Name y = BWLimit.Name x.
Proof.
  unfold check_bwlimit. intros H. split_check H. injection H as <- <-.
  match goal with Hr : fail_if _ _ = inl _ |- _ => apply fail_if_inl in Hr end.
  auto.
Qed.

(** X15.  In a configuration that [Check] accepts, no two bandwidth limit
    groups have the same name, and the group that a backend names, when it
    names one, is defined. *)
Theorem Check_bwlimits (cfg cfg' : Config.t) :
  Check E cfg = inl cfg' ->
  NoDup (BWLimit.Name <$> Config.BWLimits cfg') /\
  forall k b', Config.Backends cfg' !! k = Some b' ->
    Backend.BWLimit b' = "" \/
    Backend.BWLimit b' ∈ BWLimit.Name <$> Config.BWLimits cfg'.
Proof.
  intros H.
  destruct (Check_providers _ _ H)
    as (ids1 & ids2 & ids3 & pkis & bw & _ & _ & _ & Hbe & (l' & Hbw) & _).
  apply (ran_unique _ BWLimit.Name id) in Hbw
    as (Hnd & _ & _ & Hflag & _); [|intros; eapply check_bwlimit_inl; eassumption].
  unfold id in *. split; [exact Hnd|]. intros k b' Hk.
  destruct (Hbe k b' Hk) as (b2 & Hc).
  apply check_backend_inl in Hc
    as (allow & deny & ver & pos & wrap & -> & _ & _ & _ & Hlim & _).
  backend_fields. destruct Hlim as [Hnone|Hdef]; [left; exact Hnone|right].
  apply Hflag in Hdef as [Hdef|Hdef]; [|exact Hdef].
  unfold flag in Hdef. rewrite lookup_empty in Hdef. discriminate.
Qed.

(** ** Certificates *)

Lemma check_root_cas_inl pkis wrap names :
  check_root_cas E pkis wrap names = inl tt ->
  forall n, n ∈ names -> flag pkis n = true \/ loadCerts E n = None.
Proof.
  unfold check_root_cas. intros H. split_check H.
  match goal with p : (unit * _)%type |- _ => destruct p as [[] ?] end.
  match goal with Hr : for_range _ _ _ _ = inl _ |- _ =>
    apply for_range_ran in Hr; rename Hr into Hran end.
  intros n Hn.
  destruct (ran_elem _ _ _ _ _ _ _ Hran Hn) as (j & [] & [] & y & Hb).
  cbn beta in Hb. destruct (flag pkis n); [left; reflexivity|right].
  split_check Hb.
  match goal with Hr : fail_on _ _ = inl _ |- _ => apply fail_on_inl in Hr end.
  assumption.
Qed.

Lemma check_pki_inl bs maps i st x st' y :
  check_pki E bs maps i st x = inl (st', y) ->
  flag st (ConfigPKI.Name x) = false /\
  st' = <[ConfigPKI.Name x := true]> st /\
  ConfigPKI.Name y = ConfigPKI.Name x.
Proof.
  unfold check_pki. intros H. cbv zeta in H. split_check H. injection H as <- <-.
  match goal with Hr : fail_if (flag st _) _ = inl _ |- _ => apply fail_if_inl in Hr end.
  auto.
Qed.

Lemma check_path_override_inl pkis i beMode j po po' :
  check_path_override E pkis i beMode j tt po = inl (tt, po') ->
  PathOverride.Paths po' = PathOverride.Paths po /\
  PathOverride.Paths po <> [] /\
  (forall p, p ∈ PathOverride.Paths po -> strings_HasPrefix p "/" = true) /\
  PathOverride.Mode po' =
    strings_ToUpper E (if bool_decide (PathOverride.Mode po = "") then beMode
                       else PathOverride.Mode po) /\
  PathOverride.Mode po' ∈ [ModeHTTP; ModeHTTPS] /\
  PathOverride.ForwardRootCAs po' = PathOverride.ForwardRootCAs po /\
  (forall n, n ∈ PathOverride.ForwardRootCAs po ->
     flag pkis n = true \/ loadCerts E n = None) /\
  PathOverride.ForwardServerName po' =
    idnaToASCII E (PathOverride.ForwardServerName po) /\
  PathOverride.ForwardTimeout po' =
    (if (PathOverride.ForwardTimeout po =? 0)%Z then 30000000000%Z
     else PathOverride.ForwardTimeout po) /\
  PathOverride.ProxyProtocolVersion po' = PathOverride.ProxyProtocolVersion po /\
  validateProxyProtoVersion (PathOverride.ProxyProtocolVersion po) =
    inl (PathOverride.proxyProtocolVersion po') /\
  PathOverride.Addresses po' = PathOverride.Addresses po /\
  PathOverride.BackendProto po' = PathOverride.BackendProto po /\
  PathOverride.InsecureSkipVerify po' = PathOverride.InsecureSkipVerify po.
Proof.
  unfold check_path_override. intros H. cbv zeta in H. split_check H.
  destruct (validateProxyProtoVersion _) as [ver|] eqn:Hver; [|discriminate].
  injection H as <-.
  repeat match goal with p : (unit * _)%type |- _ => destruct p as [[] ?] end.
  repeat match goal with u : unit |- _ => destruct u end.
  match goal with Hr : for_range _ _ _ _ = inl _ |- _ =>
    apply for_range_ran in Hr; rename Hr into Hpaths end.
  match goal with Hr : check_root_cas _ _ _ _ = inl _ |- _ =>
    pose proof (check_root_cas_inl _ _ _ Hr) as Hroot end.
  repeat match goal with Hr : fail_if _ _ = inl _ |- _ => apply fail_if_inl in Hr end.
  rewrite ?length_eqb_0 in *.
  match goal with Hr : bool_decide (PathOverride.Paths po = []) = false |- _ =>
    apply bool_decide_eq_false_1 in Hr; rename Hr into Hne end.
  match goal with Hr : negb (bool_decide (_ = ModeHTTP)) && _ = false |- _ =>
    rename Hr into Hmode end.
  cbn [PathOverride.Paths PathOverride.Addresses PathOverride.Mode
       PathOverride.BackendProto PathOverride.InsecureSkipVerify
       PathOverride.ForwardServerName PathOverride.ForwardRootCAs
       PathOverride.ForwardTimeout PathOverride.ProxyProtocolVersion
       PathOverride.proxyProtocolVersion].
  split; [reflexivity|]. split; [exact Hne|]. split.
  { intros p Hp.
    destruct (ran_elem _ _ _ _ _ _ _ Hpaths Hp) as (j0 & [] & [] & y & Hb).
    cbn beta in Hb. split_check Hb.
    match goal with Hr : fail_if _ _ = inl _ |- _ =>
      apply fail_if_inl, negb_false_iff in Hr; exact Hr end. }
  split; [reflexivity|]. split.
  { rewrite !elem_of_cons.
    apply andb_false_iff in Hmode as [Hm|Hm];
      apply negb_false_iff, bool_decide_eq_true_1 in Hm; auto. }
  repeat split; auto.
Qed.

(** The names the loop over [cfg.PKI] has recorded. *)
Lemma Check_pki_names cfg cfg' :
  Check E cfg = inl cfg' ->
  exists ids pkis bw,
    NoDup (ConfigPKI.Name <$> Config.PKI cfg') /\
    (forall n, flag pkis n = true <-> n ∈ ConfigPKI.Name <$> Config.PKI cfg') /\
    (forall k b', Config.Backends cfg' !! k = Some b' ->
       exists b2, check_backend E ids pkis bw k tt b2 = inl (tt, b')).
Proof.
  intros H.
  destruct (Check_providers _ _ H)
    as (ids1 & ids2 & ids3 & pkis & bw & _ & _ & _ & Hbe & _
        & (bs2 & maps & l' & Hpki)).
  apply (ran_unique _ ConfigPKI.Name id) in Hpki
    as (Hnd & _ & _ & Hflag & _); [|intros; eapply check_pki_inl; eassumption].
  unfold id in *. exists ids3, pkis, bw. split; [exact Hnd|]. split; [|exact Hbe].
  intros n. rewrite Hflag. unfold flag. rewrite lookup_empty. cbn.
  split; [intros [?|?]; [discriminate|assumption]|auto].
Qed.

Lemma check_client_auth_inl pkis i ca :
  check_client_auth E pkis i (Some ca) = inl tt ->
  (forall n, n ∈ ClientAuth.RootCAs ca ->
     flag pkis n = true \/ loadCerts E n = None) /\
  (forall f, f ∈ ClientAuth.AddClientCertHeader ca ->
     strings_ToLower E f ∈ validXFCCFields).
Proof.
  unfold check_client_auth. intros H. split_check H.
  repeat match goal with p : (unit * _)%type |- _ => destruct p as [[] ?] end.
  repeat match goal with u : unit |- _ => destruct u end.
  match goal with Hr : check_root_cas _ _ _ _ = inl _ |- _ =>
    pose proof (check_root_cas_inl _ _ _ Hr) as Hroot end.
  match goal with Hr : for_range _ _ _ _ = inl _ |- _ =>
    apply for_range_ran in Hr; rename Hr into Hfields end.
  split; [exact Hroot|]. intros f Hf.
  destruct (ran_elem _ _ _ _ _ _ _ Hfields Hf) as (j0 & [] & [] & y & Hb).
  cbn beta in Hb. split_check Hb.
  match goal with Hr : fail_if _ _ = inl _ |- _ =>
    apply fail_if_inl, negb_false_iff, bool_decide_eq_true_1 in Hr; exact Hr end.
Qed.

(** X16.  In a configuration that [Check] accepts, every entry of
    [ForwardRootCAs] of a backend, of [ClientAuth.RootCAs] and of
    [ForwardRootCAs] of a path override is the name of a PKI of the
    configuration or was loaded by [loadCerts] without error; no two PKIs
    have the same name; and every field of [ClientAuth.AddClientCertHeader]
    is, in lower case, one of [cert], [chain], [hash], [subject], [uri],
    [dns]. *)
Theorem Check_certificates (cfg cfg' : Config.t) :
  Check E cfg = inl cfg' ->
  NoDup (ConfigPKI.Name <$> Config.PKI cfg') /\
  forall k b', Config.Backends cfg' !! k = Some b' ->
    let known n := n ∈ ConfigPKI.Name <$> Config.PKI cfg' \/ loadCerts E n = None in
    (forall n, n ∈ Backend.ForwardRootCAs b' -> known n) /\
    (forall ca, Backend.ClientAuth b' = Some ca ->
       (forall n, n ∈ ClientAuth.RootCAs ca -> known n) /\
       (forall f, f ∈ ClientAuth.AddClientCertHeader ca ->
          strings_ToLower E f ∈ validXFCCFields)) /\
    (forall po n, po ∈ Backend.PathOverrides b' ->
       n ∈ PathOverride.ForwardRootCAs po -> known n).
Proof.
  intros H.
  destruct (Check_pki_names _ _ H) as (ids & pkis & bw & Hnd & Hflag & Hbe).
  split; [exact Hnd|]. intros k b' Hk known.
  assert (Hknown : forall n, flag pkis n = true \/ loadCerts E n = None -> known n).
  { intros n [Hn|Hn]; [left; apply Hflag, Hn|right; exact Hn]. }
  destruct (Hbe k b' Hk) as (b2 & Hc).
  apply check_backend_inl in Hc
    as (allow & deny & ver & pos & wrap & -> & _ & _ & _ & _ & Hca & _ & Hroot & _
        & _ & _ & _ & Hpos).
  backend_fields. split; [|split].
  - intros n Hn. eapply Hknown, check_root_cas_inl; eassumption.
  - intros ca Hsome. rewrite Hsome in Hca.
    apply check_client_auth_inl in Hca as [Hr Hf]. split; [|exact Hf].
    intros n Hn. apply Hknown, Hr, Hn.
  - intros po n Hpo Hn. apply list_elem_of_lookup in Hpo as [j Hj].
    destruct (ran_lookup _ _ _ _ _ _ _ _ Hpos Hj) as (x & [] & [] & _ & _ & Hb).
    apply check_path_override_inl in Hb
      as (_ & _ & _ & _ & _ & Hsame & Hr & _).
    rewrite Hsame in Hn. apply Hknown, Hr, Hn.
Qed.

(** X17.  In a configuration that [Check] accepts, only backends in mode
    [HTTP] or [HTTPS] have path overrides; every path override has at least
    one path, all its paths start with [/], its mode is [HTTP] or [HTTPS],
    its [ForwardTimeout] is not zero, and its stored PROXY protocol version
    is the byte that [validateProxyProtoVersion] returns for its
    [ProxyProtocolVersion]. *)
Theorem Check_path_overrides (cfg cfg' : Config.t) (k j : nat) (b' : Backend.t)
    (po : PathOverride.t) :
  Check E cfg = inl cfg' -> Config.Backends cfg' !! k = Some b' ->
  Backend.PathOverrides b' !! j = Some po ->
  Backend.Mode b' ∈ [ModeHTTP; ModeHTTPS] /\
  PathOverride.Paths po <> [] /\
  (forall p, p ∈ PathOverride.Paths po -> strings_HasPrefix p "/" = true) /\
  PathOverride.Mode po ∈ [ModeHTTP; ModeHTTPS] /\
  PathOverride.ForwardTimeout po <> 0%Z /\
  validateProxyProtoVersion (PathOverride.ProxyProtocolVersion po) =
    inl (PathOverride.proxyProtocolVersion po) /\
  (0 <= PathOverride.proxyProtocolVersion po < 256)%Z.
Proof.
  intros H Hk Hj.
  destruct (Check_pki_names _ _ H) as (ids & pkis & bw & _ & _ & Hbe).
  destruct (Hbe k b' Hk) as (b2 & Hc).
  apply check_backend_inl in Hc
    as (allow & deny & ver & pos & wrap & -> & _ & _ & _ & _ & _ & _ & _ & _
        & _ & _ & Hmode & Hpos).
  backend_fields.
  destruct (ran_lookup _ _ _ _ _ _ _ _ Hpos Hj) as (x & [] & [] & Hx & _ & Hb).
  apply check_path_override_inl in Hb
    as (Hp & Hne & Hpre & _ & Hm & _ & _ & _ & Ht & Hv & Hver & _).
  split.
  { rewrite !elem_of_cons. destruct Hmode as [?|?]; auto.
    intros Hnil. rewrite Hnil in Hx. discriminate. }
  rewrite Hp, Hv. split; [exact Hne|]. split; [exact Hpre|]. split; [exact Hm|].
  split.
  { rewrite Ht. destruct (Z.eqb_spec (PathOverride.ForwardTimeout x) 0);
      [discriminate|assumption]. }
  split; [exact Hver|]. eapply validateProxyProtoVersion_byte, Hver.
Qed.

(** ** Address lists *)

Lemma parse_cidrs_inl wrap l ips :
  parse_cidrs E wrap l = inl ips ->
  Forall2 (fun c n => net_ParseCIDR E c = inl n) l ips.
Proof.
  unfold parse_cidrs. intros H. split_check H. injection H as <-.
  match goal with Hr : for_range _ _ _ _ = inl _ |- _ =>
    apply for_range_ran in Hr; rename Hr into Hran end.
  match type of Hran with ran ?body _ _ _ _ _ =>
    assert (Hgen : forall j acc l0 acc' l1,
               ran body j acc l0 acc' l1 ->
               exists ns, acc' = acc ++ ns /\
                          Forall2 (fun c n => net_ParseCIDR E c = inl n) l0 ns)
  end.
  { clear. induction 1 as [|j acc c rest acc1 c' acc2 rest' Hb _ IH].
    - exists []. rewrite app_nil_r. split; [reflexivity|constructor].
    - cbn beta in Hb. destruct (net_ParseCIDR E c) as [n|] eqn:Hn; [|discriminate].
      injection Hb as <- <-. destruct IH as (ns & -> & Hall).
      exists (n :: ns). rewrite <- app_assoc. split; [reflexivity|].
      constructor; assumption. }
  destruct (Hgen _ _ _ _ _ Hran) as (ns & -> & Hall). exact Hall.
Qed.

(** X18.  In a configuration that [Check] accepts, the parsed allow list
    of a backend has one network for each entry of [AllowIPs], in the same
    order, each the result of [net.ParseCIDR] on its entry, and likewise the
    deny list for [DenyIPs]; without [AllowIPs], or [DenyIPs], the parsed
    list is left as it was. *)
Theorem Check_ip_lists (cfg cfg' : Config.t) (k : nat) (b' : Backend.t) :
  Check E cfg = inl cfg' -> Config.Backends cfg' !! k = Some b' ->
  exists b,
    Config.Backends cfg !! k = Some b /\
    Backend.AllowIPs b' = Backend.AllowIPs b /\
    Backend.DenyIPs b' = Backend.DenyIPs b /\
    match Backend.AllowIPs b with
    | Some l => exists ips, Backend.allowIPs b' = Some ips /\
                            Forall2 (fun c n => net_ParseCIDR E c = inl n) l ips
    | None => Backend.allowIPs b' = Backend.allowIPs b
    end /\
    match Backend.DenyIPs b with
    | Some l => exists ips, Backend.denyIPs b' = Some ips /\
                            Forall2 (fun c n => net_ParseCIDR E c = inl n) l ips
    | None => Backend.denyIPs b' = Backend.denyIPs b
    end.
Proof.
  intros H Hk.
  destruct (Check_backend_view _ _ _ _ H Hk)
    as (q & ids & pkis & bw & b & b1 & _ & Hb & Hm & Hc).
  apply check_backend_mode_inl in Hm as (_ & _ & _ & ->).
  apply check_backend_inl in Hc
    as (allow & deny & ver & pos & wrap & -> & _ & _ & _ & _ & _ & _ & _ & Hallow
        & Hdeny & _).
  exists b. backend_fields.
  split; [exact Hb|]. split; [reflexivity|]. split; [reflexivity|]. split.
  - destruct (Backend.AllowIPs b) as [l|]; [|exact Hallow].
    destruct Hallow as (w & ips & Hp & ->). exists ips.
    split; [reflexivity|]. eapply parse_cidrs_inl, Hp.
  - destruct (Backend.DenyIPs b) as [l|]; [|exact Hdeny].
    destruct Hdeny as (w & ips & Hp & ->). exists ips.
    split; [reflexivity|]. eapply parse_cidrs_inl, Hp.
Qed.

(** ** The settings of the proxy itself *)

(** X19.  In a configuration that [Check] accepts, [Definitions] is
    cleared, [TLSAddr] is the address given or [:10443] and so never empty,
    [EnableQUIC] is set, to the value given or else to what the binary
    supports, and is true only if the binary supports QUIC; [MaxOpen] is the
    value given when that is not zero and otherwise half the open file limit
    less 100; [CacheDir] is the directory given or else
    [<user cache dir>/tlsproxy/letsencrypt], and [os.MkdirAll] succeeded on
    it; [DefaultServerName] has passed through [idnaToASCII]; the other
    settings are unchanged and no list changes its length. *)
Theorem Check_top_level (cfg cfg' : Config.t) :
  Check E cfg = inl cfg' ->
  Config.Definitions cfg' = None /\
  Config.TLSAddr cfg' =
    (if bool_decide (Config.TLSAddr cfg = "") then ":10443" else Config.TLSAddr cfg) /\
  Config.TLSAddr cfg' <> "" /\
  (exists q, Config.EnableQUIC cfg' = Some q /\
             q = default (quicIsEnabled E) (Config.EnableQUIC cfg) /\
             (q = true -> quicIsEnabled E = true)) /\
  (if bool_decide (Config.CacheDir cfg = "")
   then exists d, os_UserCacheDir E = inl d /\
                  Config.CacheDir cfg' = filepath_Join E [d; "tlsproxy"; "letsencrypt"]
   else Config.CacheDir cfg' = Config.CacheDir cfg) /\
  os_MkdirAll E (Config.CacheDir cfg') = None /\
  (if (Config.MaxOpen cfg =? 0)%Z
   then exists n, openFileLimit E = inl n /\
                  Config.MaxOpen cfg' = (Z.quot n 2 - 100)%Z
   else Config.MaxOpen cfg' = Config.MaxOpen cfg) /\
  Config.DefaultServerName cfg' = idnaToASCII E (Config.DefaultServerName cfg) /\
  Config.HTTPAddr cfg' = Config.HTTPAddr cfg /\
  Config.Email cfg' = Config.Email cfg /\
  Config.AcceptTOS cfg' = Config.AcceptTOS cfg /\
  Config.RevokeUnusedCertificates cfg' = Config.RevokeUnusedCertificates cfg /\
  Config.PKI cfg' = Config.PKI cfg /\
  Config.BWLimits cfg' = Config.BWLimits cfg /\
  length (Config.Backends cfg') = length (Config.Backends cfg) /\
  length (Config.OIDCProviders cfg') = length (Config.OIDCProviders cfg) /\
  length (Config.SAMLProviders cfg') = length (Config.SAMLProviders cfg) /\
  length (Config.PasskeyProviders cfg') = length (Config.PasskeyProviders cfg).
Proof.
  intros H.
  destruct (Check_inl _ _ H)
    as (cfg1 & ids1 & oidc & ids2 & saml & ids3 & passkey & bs1 & maps & bs2 & pkis
        & pki' & bw & bwl' & bs3 & Htop & Ho & Hs & Hp & Hmode & Hnames & _ & _
        & Hbe & Hdir & ->).
  apply ran_length in Ho, Hs, Hp, Hmode, Hnames, Hbe.
  apply check_top_inl in Htop
    as (Hdef & Hhttp & Htls & (q & Hq & Hqv & Hqs) & Hcache & Hmax & Hdsn & Ebs & Eem
        & Erev & Etos & Eo & Es & Ep & Epki & Ebw).
  cbn [Config.set_lists Config.Definitions Config.HTTPAddr Config.TLSAddr
       Config.EnableQUIC Config.CacheDir Config.DefaultServerName Config.Backends
       Config.Email Config.RevokeUnusedCertificates Config.MaxOpen Config.AcceptTOS
       Config.OIDCProviders Config.SAMLProviders Config.PasskeyProviders
       Config.PKI Config.BWLimits].
  split; [exact Hdef|]. split; [exact Htls|]. split.
  { rewrite Htls. destruct (decide (Config.TLSAddr cfg = "")) as [He|Hn].
    - rewrite bool_decide_eq_true_2 by exact He. intros [=].
    - rewrite bool_decide_eq_false_2 by exact Hn. exact Hn. }
  split.
  { exists q. split; [exact Hq|]. split; [|exact Hqs].
    rewrite Hqv. destruct (Config.EnableQUIC cfg); reflexivity. }
  split; [exact Hcache|]. split; [exact Hdir|]. split; [exact Hmax|].
  split; [exact Hdsn|]. split; [exact Hhttp|]. split; [exact Eem|].
  split; [exact Etos|]. split; [exact Erev|]. split; [exact Epki|].
  split; [exact Ebw|]. rewrite <- Ebs, <- Eo, <- Es, <- Ep.
  repeat split; congruence.
Qed.

(** ** PKI endpoints *)

(** [serverNames] maps a name to the first backend that lists it. *)
Lemma check_server_name_owner i alpn j st names st' names' :
  ran (check_server_name E i alpn) j st names st' names' ->
  forall sn k, st'.1 !! sn = Some k ->
    st.1 !! sn = Some k \/ (st.1 !! sn = None /\ k = i /\ sn ∈ names').
Proof.
  induction 1 as [|j st x rest st1 x' st2 rest' Hb _ IH]; intros sn k Hk.
  - left. exact Hk.
  - unfold check_server_name in Hb. cbv zeta in Hb. split_check Hb.
    injection Hb as <- <-. cbn [fst snd] in *.
    match goal with Hr : match _ !! _ with _ => _ end = inl ?m |- _ =>
      rename Hr into Hsn; rename m into names1 end.
    assert (Hstep : forall y, names1 !! y =
                      match st.1 !! y with
                      | Some v => Some v
                      | None => if decide (y = idnaToASCII E x) then Some i else None
                      end).
    { intros y. destruct (st.1 !! idnaToASCII E x) as [v|] eqn:Hlk.
      - split_check Hsn. injection Hsn as <-.
        destruct (st.1 !! y) eqn:Hy; [reflexivity|].
        destruct (decide (y = idnaToASCII E x)) as [->|]; [congruence|reflexivity].
      - injection Hsn as <-.
        destruct (decide (y = idnaToASCII E x)) as [->|Hne].
        + rewrite lookup_insert_eq, Hlk. reflexivity.
        + rewrite lookup_insert_ne by congruence. destruct (st.1 !! y); reflexivity. }
    destruct (IH sn k Hk) as [H1|(H1 & -> & Hin)]; rewrite Hstep in H1.
    + destruct (st.1 !! sn) eqn:Hs; [left; exact H1|].
      destruct (decide (sn = idnaToASCII E x)) as [->|]; [|discriminate].
      injection H1 as <-. right. split; [reflexivity|]. split; [reflexivity|left].
    + destruct (st.1 !! sn) eqn:Hs; [discriminate|].
      right. split; [reflexivity|]. split; [reflexivity|right; exact Hin].
Qed.

Lemma check_backend_names_owner i st bs st' bs' :
  ran (check_backend_names E) i st bs st' bs' ->
  forall sn k, st'.1 !! sn = Some k ->
    st.1 !! sn = Some k \/
    (st.1 !! sn = None /\ (i <= k)%nat /\
     exists b', bs' !! (k - i)%nat = Some b' /\ sn ∈ Backend.ServerNames b' /\
       forall j bj, (j < k - i)%nat -> bs' !! j = Some bj ->
                    sn ∉ Backend.ServerNames bj).
Proof.
  induction 1 as [|i st b rest st1 b' st2 rest' Hb _ IH]; intros sn k Hk.
  - left. exact Hk.
  - unfold check_backend_names in Hb. split_check Hb. injection Hb as <- <-.
    match goal with Hr : for_range _ _ _ _ = inl _ |- _ =>
      apply for_range_ran in Hr; rename Hr into Hnames end.
    pose proof (check_server_name_owner _ _ _ _ _ _ _ Hnames) as Hown.
    apply check_server_name_ran in Hnames as (-> & _ & _ & _ & Hdom & _).
    cbn [fst snd] in *.
    destruct (IH sn k Hk) as [H1|(H1 & Hle & bk & Hbk & Hin & Hfirst)].
    + destruct (Hown sn k H1) as [H0|(H0 & -> & Hin0)]; [left; exact H0|].
      right. split; [exact H0|]. split; [lia|].
      rewrite Nat.sub_diag. eexists. split; [reflexivity|].
      split; [exact Hin0|]. intros j bj Hj. lia.
    + assert (Hnot : ~ (is_Some (st.1 !! sn) \/
                        sn ∈ idnaToASCII E <$> Backend.ServerNames b)).
      { intros Hor. apply Hdom in Hor as [? Hor]. congruence. }
      right. split.
      { destruct (st.1 !! sn) eqn:Hs; [|reflexivity].
        exfalso. apply Hnot. left. eauto. }
      split; [lia|]. exists bk.
      replace (k - i)%nat with (Datatypes.S (k - Datatypes.S i)) by lia.
      split; [exact Hbk|]. split; [exact Hin|].
      intros [|j] bj Hj Hbj.
      * injection Hbj as <-. cbn. intros Hin0. apply Hnot. right. exact Hin0.
      * apply (Hfirst j bj); [lia|exact Hbj].
Qed.

(** X20.  In a configuration that [Check] accepts, a PKI with an endpoint
    has an endpoint that [hostAndPath] can split, and the first backend of
    the configuration that lists the host of the endpoint as a server name
    exists and is, by its mode in upper case, in mode [LOCAL] or
    [CONSOLE]. *)
Theorem Check_pki_endpoints (cfg cfg' : Config.t) (p : ConfigPKI.t) :
  Check E cfg = inl cfg' -> p ∈ Config.PKI cfg' -> ConfigPKI.Endpoint p <> "" ->
  exists host k b',
    hostAndPath E (ConfigPKI.Endpoint p) = inl host /\
    Config.Backends cfg' !! k = Some b' /\
    host ∈ Backend.ServerNames b' /\
    (forall j bj, (j < k)%nat -> Config.Backends cfg' !! j = Some bj ->
                  host ∉ Backend.ServerNames bj) /\
    strings_ToUpper E (Backend.Mode b') ∈ [ModeLocal; ModeConsole].
Proof.
  intros H Hp Hend.
  destruct (Check_inl _ _ H)
    as (cfg1 & ids1 & oidc & ids2 & saml & ids3 & passkey & bs1 & maps & bs2 & pkis
        & pki' & bw & bwl' & bs3 & Htop & _ & _ & _ & _ & Hnames & Hpki & _
        & Hbe & _ & ->).
  cbn [Config.set_lists Config.PKI Config.Backends] in *.
  destruct (ran_elem _ _ _ _ _ _ _ Hpki Hp) as (i & st & st' & y & Hb).
  unfold check_pki in Hb. cbv zeta in Hb. split_check Hb.
  rewrite bool_decide_eq_false_2 in * by exact Hend.
  destruct (hostAndPath E (ConfigPKI.Endpoint p)) as [host|] eqn:Hhost;
    [|discriminate].
  destruct (maps.1 !! host) as [k|] eqn:Hk; [|discriminate].
  cbn [mbind option_bind] in *.
  destruct (bs2 !! k) as [b2|] eqn:Hb2; [|discriminate].
  match goal with Hr : fail_if _ _ = inl _ |- _ =>
    apply fail_if_inl in Hr; rename Hr into Hmode end.
  destruct (check_backend_names_owner _ _ _ _ _ Hnames host k Hk)
    as [Hseen|(_ & _ & bk & Hbk & Hin & Hfirst)].
  { cbn in Hseen. rewrite lookup_empty in Hseen. discriminate. }
  rewrite Nat.sub_0_r in Hbk, Hfirst. rewrite Hb2 in Hbk. injection Hbk as <-.
  assert (H23 : Forall2 (fun b b' => same_mode_fields b b' /\ same_name_fields b b')
                  bs2 bs3).
  { eapply ran_Forall2; [|exact Hbe].
    intros i0 [] x [] z Hbz. eapply check_backend_keeps. exact Hbz. }
  destruct (Forall2_lookup_l _ _ _ _ _ H23 Hb2) as (b3 & Hb3 & (Hm & _) & (Hn & _)).
  exists host, k, b3. split; [reflexivity|]. split; [exact Hb3|].
  split; [rewrite Hn; exact Hin|]. split.
  - intros j bj Hj Hbj.
    destruct (Forall2_lookup_r _ _ _ _ _ H23 Hbj) as (b2j & Hb2j & _ & (Hnj & _)).
    rewrite Hnj. eapply Hfirst; eassumption.
  - rewrite Hm, !elem_of_cons.
    apply andb_false_iff in Hmode as [Hx|Hx];
      apply negb_false_iff, bool_decide_eq_true_1 in Hx; auto.
Qed.

(** ** The settings of the OIDC and SAML providers *)

Lemma check_oidc_settings i st x st' y :
  check_oidc E i st x = inl (st', y) ->
  (exists d, y = ConfigOIDC.set_Domain d x /\
     check_domain E (ConfigOIDC.Domain x) (ConfigOIDC.RedirectURL x)
       (fun err => fmt_Errorf "oidc[%d].RedirectURL %q: %v"
                     [idx i; AStr (ConfigOIDC.RedirectURL x); AErr err])
       (fun d host => fmt_Errorf "oidc[%d].Domain %q must be part of RedirectURL (%s)"
                        [idx i; AStr d; AStr host]) = inl d) /\
  (ConfigOIDC.DiscoveryURL x <> "" \/
   ConfigOIDC.AuthEndpoint x <> "" /\ ConfigOIDC.TokenEndpoint x <> "") /\
  ConfigOIDC.RedirectURL x <> "" /\ url_Parse E (ConfigOIDC.RedirectURL x) = None /\
  ConfigOIDC.ClientID x <> "" /\ ConfigOIDC.ClientSecret x <> "".
Proof.
  unfold check_oidc. intros H. cbv zeta in H. split_check H.
  injection H as <- <-.
  repeat match goal with Hr : fail_if _ _ = inl _ |- _ => apply fail_if_inl in Hr end.
  match goal with Hr : fail_on _ _ = inl _ |- _ => apply fail_on_inl in Hr;
    rename Hr into Hurl end.
  match goal with Hr : (_ || _) && _ = false |- _ => rename Hr into Hep end.
  repeat match goal with
         | Hr : bool_decide _ = false |- _ => apply bool_decide_eq_false_1 in Hr
         end.
  split; [eauto|]. split; [|auto].
  clear - Hep. repeat case_bool_decide; auto; discriminate.
Qed.

Lemma check_saml_settings i st x st' y :
  check_saml E i st x = inl (st', y) ->
  (exists d, y = ConfigSAML.set_Domain d x /\
     check_domain E (ConfigSAML.Domain x) (ConfigSAML.ACSURL x)
       (fun err => fmt_Errorf "saml[%d].ACSURL %q: %v"
                     [idx i; AStr (ConfigSAML.ACSURL x); AErr err])
       (fun d host => fmt_Errorf "saml[%d].Domain %q must be part of ACSURL (%s)"
                        [idx i; AStr d; AStr host]) = inl d) /\
  ConfigSAML.SSOURL x <> "" /\ ConfigSAML.EntityID x <> "" /\
  ConfigSAML.Certs x <> "" /\ ConfigSAML.ACSURL x <> "".
Proof.
  unfold check_saml. intros H. cbv zeta in H. split_check H.
  injection H as <- <-.
  repeat match goal with Hr : fail_if _ _ = inl _ |- _ => apply fail_if_inl in Hr end.
  repeat match goal with
         | Hr : bool_decide _ = false |- _ => apply bool_decide_eq_false_1 in Hr
         end.
  split; [eauto|auto].
Qed.

(** X21.  In a configuration that [Check] accepts, every OIDC provider has
    a redirect URL that parses, a client ID and a client secret, and either a
    discovery URL or both an authorization and a token endpoint; every SAML
    provider has an SSO URL, an entity ID, certificates and an ACS URL; and a
    provider given with a domain stores the domain as [idnaToASCII] returns
    it, and the host of its redirect URL, or ACS URL, ends with that
    domain. *)
Theorem Check_provider_settings (cfg cfg' : Config.t) (k : nat) :
  Check E cfg = inl cfg' ->
  (forall o', Config.OIDCProviders cfg' !! k = Some o' ->
     exists o,
       Config.OIDCProviders cfg !! k = Some o /\
       o' = ConfigOIDC.set_Domain (ConfigOIDC.Domain o') o /\
       (ConfigOIDC.DiscoveryURL o <> "" \/
        ConfigOIDC.AuthEndpoint o <> "" /\ ConfigOIDC.TokenEndpoint o <> "") /\
       ConfigOIDC.RedirectURL o <> "" /\
       url_Parse E (ConfigOIDC.RedirectURL o) = None /\
       ConfigOIDC.ClientID o <> "" /\ ConfigOIDC.ClientSecret o <> "" /\
       if bool_decide (ConfigOIDC.Domain o = "") then ConfigOIDC.Domain o' = ""
       else ConfigOIDC.Domain o' = idnaToASCII E (ConfigOIDC.Domain o) /\
            exists host, hostAndPath E (ConfigOIDC.RedirectURL o) = inl host /\
                         strings_HasSuffix host (ConfigOIDC.Domain o') = true) /\
  (forall s', Config.SAMLProviders cfg' !! k = Some s' ->
     exists s0,
       Config.SAMLProviders cfg !! k = Some s0 /\
       s' = ConfigSAML.set_Domain (ConfigSAML.Domain s') s0 /\
       ConfigSAML.SSOURL s0 <> "" /\ ConfigSAML.EntityID s0 <> "" /\
       ConfigSAML.Certs s0 <> "" /\ ConfigSAML.ACSURL s0 <> "" /\
       if bool_decide (ConfigSAML.Domain s0 = "") then ConfigSAML.Domain s' = ""
       else ConfigSAML.Domain s' = idnaToASCII E (ConfigSAML.Domain s0) /\
            exists host, hostAndPath E (ConfigSAML.ACSURL s0) = inl host /\
                         strings_HasSuffix host (ConfigSAML.Domain s') = true).
Proof.
  intros H.
  destruct (Check_providers _ _ H) as (ids1 & ids2 & ids3 & pkis & bw & Ho & Hs & _).
  split.
  - intros o' Hk.
    destruct (ran_lookup _ _ _ _ _ _ _ _ Ho Hk) as (o & sk & sk' & Hx & _ & Hb).
    apply check_oidc_settings in Hb
      as ((d & -> & Hd) & Hep & Hr & Hp & Hid & Hsec).
    apply check_domain_inl in Hd.
    exists o. cbn [ConfigOIDC.Domain ConfigOIDC.set_Domain].
    repeat (split; [assumption || reflexivity|]). exact Hd.
  - intros s' Hk.
    destruct (ran_lookup _ _ _ _ _ _ _ _ Hs Hk) as (s0 & sk & sk' & Hx & _ & Hb).
    apply check_saml_settings in Hb as ((d & -> & Hd) & Hsso & Hent & Hcert & Hacs).
    apply check_domain_inl in Hd.
    exists s0. cbn [ConfigSAML.Domain ConfigSAML.set_Domain].
    repeat (split; [assumption || reflexivity|]). exact Hd.
Qed.

End More.

End config_more.

(** ** The theorems on [Check] at a sample configuration *)
Module config_more_checks.
Import config examples config_facts config_more.

Lemma cfg_full_accepted : Check env0 cfg_full = inl cfg_full_checked.
Proof. vm_compute. reflexivity. Qed.

Lemma cfg_full_backend k :
  (k < 3)%nat ->
  Config.Backends cfg_full_checked !! k = Some (nth_backend k cfg_full_checked).
Proof.
  intros Hk. destruct k as [|[|[|k]]]; [vm_compute; reflexivity..|lia].
Qed.

Lemma Check_backend_modes_witness :
  Backend.Mode (nth_backend 0 cfg_full_checked) = "HTTPS" /\
  Backend.Mode (nth_backend 0 cfg_full_checked) ∈ validModes /\
  Backend.Mode (nth_backend 2 cfg_full_checked) ∈ validModes.
Proof.
  split; [vm_compute; reflexivity|].
  destruct (Check_backend_modes env0 cfg_full cfg_full_checked 0
              (nth_backend 0 cfg_full_checked) cfg_full_accepted
              (cfg_full_backend 0 ltac:(lia))) as (b & _ & _ & Hv & _).
  destruct (Check_backend_modes env0 cfg_full cfg_full_checked 2
              (nth_backend 2 cfg_full_checked) cfg_full_accepted
              (cfg_full_backend 2 ltac:(lia))) as (b2 & _ & _ & Hv2 & _).
  split; assumption.
Defined.

Lemma Check_alpn_defaults_witness :
  exists q b,
    Config.EnableQUIC cfg_full_checked = Some q /\
    Config.Backends cfg_full !! 0%nat = Some b /\
    Backend.ALPNProtos (nth_backend 0 cfg_full_checked) =
      Some match Backend.ALPNProtos b with
           | Some protos => protos
           | None =>
               if q && bool_decide (Backend.Mode (nth_backend 0 cfg_full_checked)
                                      ∈ h3Modes)
               then defaultALPNProtosPlusH3 else defaultALPNProtos
           end.
Proof.
  apply (Check_alpn_defaults env0 cfg_full cfg_full_checked 0
           (nth_backend 0 cfg_full_checked) cfg_full_accepted
           (cfg_full_backend 0 ltac:(lia))).
Defined.

Lemma Check_names_and_addresses_witness :
  Backend.ServerNames (nth_backend 0 cfg_full_checked) = ["www.example.com"] /\
  Backend.ServerNames (nth_backend 0 cfg_full_checked) <> [] /\
  (Backend.Mode (nth_backend 2 cfg_full_checked)
     ∈ [ModeTCP; ModeTLS; ModeTLSPassthrough; ModeQUIC] ->
   Backend.Addresses (nth_backend 2 cfg_full_checked) <> []).
Proof.
  split; [vm_compute; reflexivity|].
  destruct (Check_names_and_addresses env0 cfg_full cfg_full_checked 0
              (nth_backend 0 cfg_full_checked) cfg_full_accepted
              (cfg_full_backend 0 ltac:(lia))) as (b & _ & _ & Hne & _).
  destruct (Check_names_and_addresses env0 cfg_full cfg_full_checked 2
              (nth_backend 2 cfg_full_checked) cfg_full_accepted
              (cfg_full_backend 2 ltac:(lia))) as (b2 & _ & _ & _ & _ & _ & Ha & _).
  split; assumption.
Defined.

Lemma Check_forwarding_defaults_witness :
  exists b,
    Config.Backends cfg_full !! 0%nat = Some b /\
    Backend.ForwardTimeout b = 0%Z /\
    Backend.ForwardTimeout (nth_backend 0 cfg_full_checked) = 30000000000%Z /\
    Backend.ForwardRateLimit (nth_backend 0 cfg_full_checked) <> 0%Z /\
    (0 <= Backend.proxyProtocolVersion (nth_backend 0 cfg_full_checked) < 256)%Z.
Proof.
  destruct (Check_forwarding_defaults env0 cfg_full cfg_full_checked 0
              (nth_backend 0 cfg_full_checked) cfg_full_accepted
              (cfg_full_backend 0 ltac:(lia)))
    as (b & Hb & Ht & _ & _ & Hr & _ & _ & _ & _ & Hv).
  exists b. split; [exact Hb|].
  assert (Hz : Backend.ForwardTimeout b = 0%Z).
  { vm_compute in Hb. injection Hb as <-. reflexivity. }
  split; [exact Hz|]. rewrite Hz in Ht. auto.
Defined.

Lemma Check_provider_names_unique_witness :
  provider_names cfg_full = ["idp"; "saml"; "passkey"] /\
  NoDup (provider_names cfg_full_checked) /\
  provider_names cfg_full_checked = provider_names cfg_full.
Proof.
  split; [reflexivity|].
  apply (Check_provider_names_unique env0 cfg_full cfg_full_checked cfg_full_accepted).
Defined.

Lemma Check_passkey_identity_provider_witness :
  Config.PasskeyProviders cfg_full_checked !! 0%nat = Some passkey_full /\
  ConfigPasskey.IdentityProvider passkey_full = ConfigPasskey.Name passkey_full /\
  ConfigPasskey.IdentityProvider passkey_full ∈
    (ConfigOIDC.Name <$> Config.OIDCProviders cfg_full_checked) ++
    (ConfigSAML.Name <$> Config.SAMLProviders cfg_full_checked) ++
    (ConfigPasskey.Name <$> take 1 (Config.PasskeyProviders cfg_full_checked)).
Proof.
  assert (Hk : Config.PasskeyProviders cfg_full_checked !! 0%nat = Some passkey_full)
    by (vm_compute; reflexivity).
  split; [exact Hk|]. split; [reflexivity|].
  apply (Check_passkey_identity_provider env0 cfg_full cfg_full_checked 0
           passkey_full cfg_full_accepted Hk).
Defined.

Lemma Check_sso_provider_witness :
  Backend.SSO (nth_backend 0 cfg_full_checked) = Some sso_full /\
  BackendSSO.Provider sso_full ∈ provider_names cfg_full_checked.
Proof.
  assert (Hs : Backend.SSO (nth_backend 0 cfg_full_checked) = Some sso_full)
    by (vm_compute; reflexivity).
  split; [exact Hs|].
  apply (Check_sso_provider env0 cfg_full cfg_full_checked 0
           (nth_backend 0 cfg_full_checked) sso_full cfg_full_accepted
           (cfg_full_backend 0 ltac:(lia)) Hs).
Defined.

Lemma Check_bwlimits_witness :
  NoDup (BWLimit.Name <$> Config.BWLimits cfg_full_checked) /\
  (Backend.BWLimit (nth_backend 0 cfg_full_checked) = "" \/
   Backend.BWLimit (nth_backend 0 cfg_full_checked)
     ∈ BWLimit.Name <$> Config.BWLimits cfg_full_checked).
Proof.
  destruct (Check_bwlimits env0 cfg_full cfg_full_checked cfg_full_accepted)
    as [Hnd Hbe].
  split; [exact Hnd|]. apply (Hbe 0%nat). apply cfg_full_backend. lia.
Defined.

Lemma Check_certificates_witness :
  NoDup (ConfigPKI.Name <$> Config.PKI cfg_full_checked) /\
  forall n, n ∈ Backend.ForwardRootCAs (nth_backend 0 cfg_full_checked) ->
    n ∈ ConfigPKI.Name <$> Config.PKI cfg_full_checked \/ loadCerts env0 n = None.
Proof.
  destruct (Check_certificates env0 cfg_full cfg_full_checked cfg_full_accepted)
    as [Hnd Hbe].
  split; [exact Hnd|].
  destruct (Hbe 0%nat (nth_backend 0 cfg_full_checked)
              (cfg_full_backend 0 ltac:(lia))) as (Hf & _).
  exact Hf.
Defined.

Lemma Check_path_overrides_witness :
  exists po,
    Backend.PathOverrides (nth_backend 0 cfg_full_checked) !! 0%nat = Some po /\
    Backend.Mode (nth_backend 0 cfg_full_checked) ∈ [ModeHTTP; ModeHTTPS] /\
    PathOverride.Paths po <> [] /\
    PathOverride.Mode po ∈ [ModeHTTP; ModeHTTPS] /\
    PathOverride.ForwardTimeout po <> 0%Z.
Proof.
  eexists. split; [vm_compute; reflexivity|].
  match goal with |- context [PathOverride.Paths ?po] =>
    destruct (Check_path_overrides env0 cfg_full cfg_full_checked 0 0
                (nth_backend 0 cfg_full_checked) po cfg_full_accepted
                (cfg_full_backend 0 ltac:(lia)) ltac:(vm_compute; reflexivity))
      as (Hm & Hp & _ & Hpm & Ht & _)
  end.
  auto.
Defined.

Lemma Check_ip_lists_witness :
  exists b,
    Config.Backends cfg_full !! 0%nat = Some b /\
    Backend.AllowIPs (nth_backend 0 cfg_full_checked) = Backend.AllowIPs b /\
    match Backend.AllowIPs b with
    | Some l =>
        exists ips,
          Backend.allowIPs (nth_backend 0 cfg_full_checked) = Some ips /\
          Forall2 (fun c n => net_ParseCIDR env0 c = inl n) l ips
    | None => Backend.allowIPs (nth_backend 0 cfg_full_checked) = Backend.allowIPs b
    end.
Proof.
  destruct (Check_ip_lists env0 cfg_full cfg_full_checked 0
              (nth_backend 0 cfg_full_checked) cfg_full_accepted
              (cfg_full_backend 0 ltac:(lia))) as (b & Hb & Ha & _ & Hal & _).
  exists b. auto.
Defined.

Lemma Check_top_level_witness :
  Config.TLSAddr cfg_full = "" /\ Config.MaxOpen cfg_full = 0%Z /\
  Config.Definitions cfg_full_checked = None /\
  Config.TLSAddr cfg_full_checked = ":10443" /\
  Config.MaxOpen cfg_full_checked = 412%Z /\
  length (Config.Backends cfg_full_checked) = 3%nat.
Proof.
  split; [reflexivity|]. split; [reflexivity|].
  destruct (Check_top_level env0 cfg_full cfg_full_checked cfg_full_accepted)
    as (Hd & Ht & _ & _ & _ & _ & Hm & _ & _ & _ & _ & _ & _ & _ & Hl & _).
  split; [exact Hd|]. split; [exact Ht|].
  split; [|exact Hl].
  cbn in Hm. destruct Hm as (n & Hn & Hm). injection Hn as <-. exact Hm.
Defined.

Lemma Check_pki_endpoints_witness :
  exists host k b',
    hostAndPath env0 (ConfigPKI.Endpoint pki_full) = inl host /\
    Config.Backends cfg_full_checked !! k = Some b' /\
    host ∈ Backend.ServerNames b' /\
    strings_ToUpper env0 (Backend.Mode b') ∈ [ModeLocal; ModeConsole].
Proof.
  destruct (Check_pki_endpoints env0 cfg_full cfg_full_checked pki_full
              cfg_full_accepted)
    as (host & k & b' & Hh & Hk & Hin & _ & Hm).
  - vm_compute. left.
  - vm_compute. discriminate.
  - exists host, k, b'. auto.
Defined.

Lemma Check_provider_settings_witness :
  exists o,
    Config.OIDCProviders cfg_full !! 0%nat = Some o /\
    ConfigOIDC.RedirectURL o <> "" /\
    ConfigOIDC.ClientID o <> "" /\ ConfigOIDC.ClientSecret o <> "".
Proof.
  destruct (Check_provider_settings env0 cfg_full cfg_full_checked 0
              cfg_full_accepted) as [Ho _].
  destruct (Ho (ConfigOIDC.set_Domain "example.com" oidc_full))
    as (o & Hk & _ & _ & Hr & _ & Hid & Hsec & _); [vm_compute; reflexivity|].
  exists o. auto.
Defined.

End config_more_checks.
